(** * Card sorting game: the rule engine and the adaptive controller

    A shallow embedding of [src/CardSortingGame.tsx] (the DOM component,
    module [Game2D]) and [src/CardSortingGame3D.tsx] (the three.js
    component, module [Game3D]), with what the two components draw
    (modules [Game2DView] and [Game3DScene]), followed by the properties
    of the classification engine that the specification states and by
    further properties of the two components.

    JavaScript numbers that count things (the statistics, the clock in
    milliseconds, the number of symbols on a card) are natural numbers;
    [Math.random()] and [uuidv4()] are oracles carried by the state; the
    browser's timer queue and the console are part of the state. *)

From Stdlib Require Import String.
From Stdlib Require Import List Arith Bool Lia.
From Stdlib Require Import NArith QArith.
Import ListNotations.
Close Scope Q_scope.

(* ------------------------------------------------------------------ *)
(** ** Card model *)

(** [type Color = 'red' | 'blue' | 'green' | 'yellow'] *)
Inductive Color : Set := red | blue | green | yellow.

(** [type Shape = 'circle' | 'square' | 'triangle' | 'star'] *)
Inductive Shape : Set := circle | square | triangle | star.

(** [type Size = 'small' | 'medium' | 'large'] *)
Inductive Size : Set := small | medium | large.

(** [type Rule = 'color' | 'shape' | 'number' | 'size']: the key of the
    card attribute that is compared ([ByColor] is ['color'], and so on;
    the plain names are those of the fields of [Card]). *)
Inductive Rule : Set := ByColor | ByShape | ByNumber | BySize.

(** [interface Card]; the identifier is a number in the DOM component and
    a uuid string in the three.js component.  [number] counts the symbols
    of the card: the reference cards and [generateNewCard] give 1 to 4,
    and [CardSchema] admits nothing else. *)
Record Card (I : Type) : Type := mkCard {
  id : I;
  color : Color;
  shape : Shape;
  number : nat;
  size : Size
}.

Arguments mkCard {I} id color shape number size.
Arguments id {I} c.
Arguments color {I} c.
Arguments shape {I} c.
Arguments number {I} c.
Arguments size {I} c.

(** [interface GameStats] *)
Record GameStats : Set := mkStats {
  attempts : nat;
  correct : nat;
  perseverativeErrors : nat;
  ruleChanges : nat;
  streak : nat
}.

(** The state type ['correct' | 'incorrect' | null] is [option Feedback]. *)
Inductive Feedback : Set := Correct | Incorrect.

(** The value read by [card[rule]]. *)
Inductive Attr : Set :=
| AColor (c : Color)
| AShape (s : Shape)
| ANumber (n : nat)
| ASize (z : Size).

Definition Color_eq_dec (x y : Color) : {x = y} + {x <> y}.
Proof. decide equality. Defined.

Definition Shape_eq_dec (x y : Shape) : {x = y} + {x <> y}.
Proof. decide equality. Defined.

Definition Size_eq_dec (x y : Size) : {x = y} + {x <> y}.
Proof. decide equality. Defined.

Definition Rule_eq_dec (x y : Rule) : {x = y} + {x <> y}.
Proof. decide equality. Defined.

Definition Attr_eq_dec (x y : Attr) : {x = y} + {x <> y}.
Proof.
  decide equality;
    [apply Color_eq_dec | apply Shape_eq_dec | apply Nat.eq_dec | apply Size_eq_dec].
Defined.

(** [c[rule]] *)
Definition attr {I : Type} (c : Card I) (rule : Rule) : Attr :=
  match rule with
  | ByColor => AColor (color c)
  | ByShape => AShape (shape c)
  | ByNumber => ANumber (number c)
  | BySize => ASize (size c)
  end.

(** [x === y] on attribute values *)
Definition strictEq (x y : Attr) : bool :=
  if Attr_eq_dec x y then true else false.

(** [r !== current], the predicate of [rules.filter] *)
Definition ruleNeq (r current : Rule) : bool :=
  if Rule_eq_dec r current then false else true.

(** [const checkMatch = (c1, c2, rule) => c1[rule] === c2[rule]]; the two
    components define it with the same text. *)
Definition checkMatch {I J : Type} (c1 : Card I) (c2 : Card J) (rule : Rule) : bool :=
  strictEq (attr c1 rule) (attr c2 rule).

(** [const CARDS_TO_CHANGE_RULE = 5] (both components) *)
Definition CARDS_TO_CHANGE_RULE : nat := 5.

(** The literal delay of the timer that ends the feedback window
    ([setTimeout(..., 1000)], both components). *)
Definition FEEDBACK_DELAY : nat := 1000.

(** The literal delay of [setTimeout(changeRule, 100)] (three.js component). *)
Definition CHANGE_RULE_DELAY : nat := 100.

(** [const rules: Rule[] = ['color', 'shape', 'number', 'size']] *)
Definition rules : list Rule := [ByColor; ByShape; ByNumber; BySize].

(** The arrays of [generateNewCard] ([ColorEnum.options] and the like list
    the same values in the same order). *)
Definition colors : list Color := [red; blue; green; yellow].
Definition shapes : list Shape := [circle; square; triangle; star].
Definition sizes : list Size := [small; medium; large].

(** [newStreak > 0 && newStreak % CARDS_TO_CHANGE_RULE === 0] *)
Definition streakDue (n : nat) : bool :=
  (0 <? n) && (n mod CARDS_TO_CHANGE_RULE =? 0).

(* ------------------------------------------------------------------ *)
(** ** The browser: random numbers, timers *)

(** A value of [Math.random()]: the rational
    [numer / (numer + slack + 1)], which lies in [[0, 1)]. *)
Record Unit01 : Set := mkUnit01 { numer : nat; slack : nat }.

(** [Math.floor(u * n)] *)
Definition floorTimes (u : Unit01) (n : nat) : nat :=
  (numer u * n) / (numer u + slack u + 1).

(** [arr[Math.floor(Math.random() * arr.length)]] for the drawn value [u];
    the index is always in range ([floorTimes_lt]), so [d] is never read. *)
Definition randomElement {A : Type} (d : A) (arr : list A) (u : Unit01) : A :=
  nth (floorTimes u (length arr)) arr d.

(** The hidden state of [Math.random]: the sequence it will produce and the
    number of calls made so far. *)
Record MathRandom : Type := mkRandom { samples : nat -> Unit01; calls : nat }.

Definition nextRandom (g : MathRandom) : Unit01 * MathRandom :=
  (samples g (calls g), mkRandom (samples g) (S (calls g))).

(** The state of [uuidv4]: the sequence of identifiers it will produce and
    the number of calls made so far.  (A later render evaluates the
    argument of [useRef] again and drops the result; the identifiers that
    this consumes are not counted, the sequence being arbitrary.) *)
Record UuidSource : Type := mkUuid { uuids : nat -> string; issued : nat }.

Definition nextUuid (g : UuidSource) : string * UuidSource :=
  (uuids g (issued g), mkUuid (uuids g) (S (issued g))).

(** Pending [setTimeout] callbacks, in registration order, each with the
    time at which it is due.  The browser runs the one that is due first,
    and among equals the one registered first. *)
Fixpoint popEarliest {K : Type} (l : list (nat * K)) : option ((nat * K) * list (nat * K)) :=
  match l with
  | [] => None
  | t :: l' =>
      match popEarliest l' with
      | None => Some (t, [])
      | Some (t', rest) =>
          if fst t <=? fst t' then Some (t, l') else Some (t', t :: rest)
      end
  end.

(* ------------------------------------------------------------------ *)
(** ** [CardSortingGame.tsx] *)

Module Game2D.

(** The only timer callback of the component:
    [() => { setFeedback(null); generateNewCard(); }] *)
Inductive Callback : Set := NextRound.

(** [console.log] lines of the component. *)
Inductive LogEntry : Set :=
| LogRuleChanged (newRule : Rule).

(** The component's React state, and the browser state it acts on. *)
Record State : Type := mkState {
  currentRule : Rule;
  previousRule : option Rule;
  targetCard : option (Card nat);
  feedback : option Feedback;
  stats : GameStats;
  timers : list (nat * Callback);
  now : nat;
  rand : MathRandom;
  console : list LogEntry
}.

Definition setCurrentRule (r : Rule) (s : State) : State :=
  mkState r (previousRule s) (targetCard s) (feedback s) (stats s)
          (timers s) (now s) (rand s) (console s).
Definition setPreviousRule (r : option Rule) (s : State) : State :=
  mkState (currentRule s) r (targetCard s) (feedback s) (stats s)
          (timers s) (now s) (rand s) (console s).
Definition setTargetCard (c : option (Card nat)) (s : State) : State :=
  mkState (currentRule s) (previousRule s) c (feedback s) (stats s)
          (timers s) (now s) (rand s) (console s).
Definition setFeedback (f : option Feedback) (s : State) : State :=
  mkState (currentRule s) (previousRule s) (targetCard s) f (stats s)
          (timers s) (now s) (rand s) (console s).
(** [setStats(prev => f(prev))] *)
Definition setStats (f : GameStats -> GameStats) (s : State) : State :=
  mkState (currentRule s) (previousRule s) (targetCard s) (feedback s)
          (f (stats s)) (timers s) (now s) (rand s) (console s).
Definition withTimers (l : list (nat * Callback)) (s : State) : State :=
  mkState (currentRule s) (previousRule s) (targetCard s) (feedback s)
          (stats s) l (now s) (rand s) (console s).
Definition withNow (t : nat) (s : State) : State :=
  mkState (currentRule s) (previousRule s) (targetCard s) (feedback s)
          (stats s) (timers s) t (rand s) (console s).
Definition withRand (g : MathRandom) (s : State) : State :=
  mkState (currentRule s) (previousRule s) (targetCard s) (feedback s)
          (stats s) (timers s) (now s) g (console s).
(** [console.log(e)] *)
Definition consoleLog (e : LogEntry) (s : State) : State :=
  mkState (currentRule s) (previousRule s) (targetCard s) (feedback s)
          (stats s) (timers s) (now s) (rand s) (console s ++ [e]).
(** [setTimeout(k, delay)] *)
Definition setTimeout (k : Callback) (delay : nat) (s : State) : State :=
  withTimers (timers s ++ [(now s + delay, k)]) s.

(** [const referenceCards: Card[]] *)
Definition referenceCards : list (Card nat) :=
  [ mkCard 1 red circle 1 small;
    mkCard 2 green triangle 2 medium;
    mkCard 3 blue star 3 large;
    mkCard 4 yellow square 4 medium ].

(** The values of [useState] at the first render, at time [t0]. *)
Definition initialState (t0 : nat) (g : MathRandom) : State :=
  mkState ByColor None None None (mkStats 0 0 0 0 0) [] t0 g [].

(** [generateNewCard]: the identifier is [Date.now()], then one
    [Math.random()] per attribute, in the order of the object literal. *)
Definition generateNewCard (s : State) : State :=
  let (u1, g1) := nextRandom (rand s) in
  let (u2, g2) := nextRandom g1 in
  let (u3, g3) := nextRandom g2 in
  let (u4, g4) := nextRandom g3 in
  setTargetCard
    (Some (mkCard (now s)
                  (randomElement red colors u1)
                  (randomElement circle shapes u2)
                  (floorTimes u3 4 + 1)
                  (randomElement small sizes u4)))
    (withRand g4 s).

(** [changeRule] *)
Definition changeRule (s : State) : State :=
  let availableRules := filter (fun r => ruleNeq r (currentRule s)) rules in
  let (u, g) := nextRandom (rand s) in
  let newRule := randomElement (currentRule s) availableRules u in
  consoleLog (LogRuleChanged newRule)
    (setStats (fun prev => mkStats (attempts prev) (correct prev)
                                   (perseverativeErrors prev)
                                   (ruleChanges prev + 1) 0)
       (setCurrentRule newRule
          (setPreviousRule (Some (currentRule s)) (withRand g s)))).

(** [isPerseverative]: [!isMatch && previousRule && checkMatch(...)] is
    truthy exactly when this boolean is true. *)
Definition isPerseverative (isMatch : bool) (prev : option Rule)
           (target refCard : Card nat) : bool :=
  negb isMatch &&
  match prev with
  | Some p => checkMatch target refCard p
  | None => false
  end.

(** [handleCardClick] *)
Definition handleCardClick (refCard : Card nat) (s : State) : State :=
  match targetCard s, feedback s with
  | Some target, None =>
      let isMatch := checkMatch target refCard (currentRule s) in
      let persev := isPerseverative isMatch (previousRule s) target refCard in
      setTimeout NextRound FEEDBACK_DELAY
        (setStats (fun prev =>
                     mkStats (attempts prev + 1)
                             (correct prev + (if isMatch then 1 else 0))
                             (perseverativeErrors prev + (if persev then 1 else 0))
                             (ruleChanges prev)
                             (if isMatch then streak prev + 1 else 0))
           (setFeedback (Some (if isMatch then Correct else Incorrect)) s))
  | _, _ => s
  end.

(** The body of the effect that watches the streak. *)
Definition streakEffect (s : State) : State :=
  if streakDue (streak (stats s)) then changeRule s else s.

(** [useEffect(streakEffect, [stats.streak])]: after a render the effect
    runs only if [stats.streak] differs from its value [dep] at the
    previous render. *)
Definition useStreakEffect (dep : nat) (s : State) : State :=
  if streak (stats s) =? dep then s else streakEffect s.

(** The renders that follow an event handler whose state updates were
    applied to [s], [dep] being the streak rendered before the event: the
    effect's own update causes one more render ([commit_settled] shows
    that a further one would change nothing). *)
Definition commit (dep : nat) (s : State) : State :=
  useStreakEffect (streak (stats s)) (useStreakEffect dep s).

(** Running a timer callback. *)
Definition runCallback (k : Callback) (s : State) : State :=
  match k with
  | NextRound => generateNewCard (setFeedback None s)
  end.

(** The mount effect [useEffect(() => { generateNewCard(); }, [])]. *)
Definition mount (s : State) : State :=
  commit (streak (stats s)) (generateNewCard s).

(** A click on the button of [refCard], and the renders it causes. *)
Definition click (refCard : Card nat) (s : State) : State :=
  commit (streak (stats s)) (handleCardClick refCard s).

(** The buttons rendered by [referenceCards.map]: button [i] carries
    [onClick={() => handleCardClick(refCard)}] and
    [disabled={feedback !== null}]; a disabled button delivers no click. *)
Definition clickButton (i : nat) (s : State) : State :=
  match nth_error referenceCards i, feedback s with
  | Some refCard, None => click refCard s
  | _, _ => s
  end.

(** The timers that are due up to [deadline] run in order, each at its
    due time and followed by its renders. *)
Fixpoint runTimers (fuel deadline : nat) (s : State) : State :=
  match fuel with
  | 0 => s
  | S fuel' =>
      match popEarliest (timers s) with
      | Some ((due, k), rest) =>
          if due <=? deadline then
            let s1 := withNow (Nat.max (now s) due) (withTimers rest s) in
            runTimers fuel' deadline (commit (streak (stats s1)) (runCallback k s1))
          else s
      | None => s
      end
  end.

(** [dt] milliseconds pass.  No callback of this component registers a
    timer, so the number of pending timers is enough fuel
    ([wait_no_timer_due_dom]). *)
Definition wait (dt : nat) (s : State) : State :=
  let deadline := now s + dt in
  withNow deadline (runTimers (length (timers s)) deadline s).

(** What can happen to a mounted component. *)
Inductive Event : Set :=
| Click (refCard : Card nat)
| Wait (dt : nat).

Definition step (e : Event) (s : State) : State :=
  match e with
  | Click refCard => click refCard s
  | Wait dt => wait dt s
  end.

Definition run (es : list Event) (s : State) : State :=
  fold_left (fun st e => step e st) es s.

(** One round: a selection, then the feedback window. *)
Definition round (refCard : Card nat) (s : State) : State :=
  wait FEEDBACK_DELAY (click refCard s).

Fixpoint rounds (refCards : list (Card nat)) (s : State) : State :=
  match refCards with
  | [] => s
  | c :: cs => rounds cs (round c s)
  end.

(** The states of a session. *)
Inductive reachable : State -> Prop :=
| reach_mount t0 g : reachable (mount (initialState t0 g))
| reach_step e s : reachable s -> reachable (step e s).

End Game2D.

(* ------------------------------------------------------------------ *)
(** ** [CardSortingGame3D.tsx] *)

Module Game3D.

(** [gameStateRef.current] *)
Record GameStateRef : Set := mkRef {
  currentRule : Rule;
  previousRule : option Rule;
  isAnimating : bool
}.

(** [rMesh.userData = { isReference: true, cardData: card }] *)
Record UserData : Set := mkUserData {
  isReference : bool;
  cardData : Card string
}.

(** A mesh of the scene, as far as the click handler reads it: its
    [userData], which three.js creates empty ([None]). *)
Record Mesh : Set := mkMesh { userData : option UserData }.

(** The timer callbacks of the component: [changeRule], and
    [() => { setFeedback(null); setTargetCard(generateNewCard());
    gameStateRef.current.isAnimating = false; }] *)
Inductive Callback : Set := ChangeRule | NextRound.

(** [console.log] lines of the component. *)
Inductive LogEntry : Set :=
| LogRuleChanged (newRule : Rule)
| LogProcessing
| LogClickDetected (clientX clientY : nat)
| LogTouched (u : option UserData)
| LogVoid.

(** The component's React state and refs, and the browser state it acts
    on.  [sceneReady] says that the mount effect has created the scene, the
    camera and the renderer. *)
Record State : Type := mkState {
  gameStateRef : GameStateRef;
  stats : GameStats;
  feedback : option Feedback;
  targetCard : option (Card string);
  referenceCards : list (Card string);
  sceneReady : bool;
  clickableObjects : list Mesh;
  timers : list (nat * Callback);
  now : nat;
  rand : MathRandom;
  uuid : UuidSource;
  console : list LogEntry
}.

Definition withRef (r : GameStateRef) (s : State) : State :=
  mkState r (stats s) (feedback s) (targetCard s) (referenceCards s)
          (sceneReady s) (clickableObjects s) (timers s) (now s) (rand s)
          (uuid s) (console s).
(** [setStats(prev => f(prev))] *)
Definition setStats (f : GameStats -> GameStats) (s : State) : State :=
  mkState (gameStateRef s) (f (stats s)) (feedback s) (targetCard s)
          (referenceCards s) (sceneReady s) (clickableObjects s) (timers s)
          (now s) (rand s) (uuid s) (console s).
Definition setFeedback (f : option Feedback) (s : State) : State :=
  mkState (gameStateRef s) (stats s) f (targetCard s) (referenceCards s)
          (sceneReady s) (clickableObjects s) (timers s) (now s) (rand s)
          (uuid s) (console s).
Definition setTargetCard (c : option (Card string)) (s : State) : State :=
  mkState (gameStateRef s) (stats s) (feedback s) c (referenceCards s)
          (sceneReady s) (clickableObjects s) (timers s) (now s) (rand s)
          (uuid s) (console s).
Definition withSceneReady (b : bool) (s : State) : State :=
  mkState (gameStateRef s) (stats s) (feedback s) (targetCard s)
          (referenceCards s) b (clickableObjects s) (timers s) (now s)
          (rand s) (uuid s) (console s).
Definition withClickable (l : list Mesh) (s : State) : State :=
  mkState (gameStateRef s) (stats s) (feedback s) (targetCard s)
          (referenceCards s) (sceneReady s) l (timers s) (now s) (rand s)
          (uuid s) (console s).
Definition withTimers (l : list (nat * Callback)) (s : State) : State :=
  mkState (gameStateRef s) (stats s) (feedback s) (targetCard s)
          (referenceCards s) (sceneReady s) (clickableObjects s) l (now s)
          (rand s) (uuid s) (console s).
Definition withNow (t : nat) (s : State) : State :=
  mkState (gameStateRef s) (stats s) (feedback s) (targetCard s)
          (referenceCards s) (sceneReady s) (clickableObjects s) (timers s) t
          (rand s) (uuid s) (console s).
Definition withRand (g : MathRandom) (s : State) : State :=
  mkState (gameStateRef s) (stats s) (feedback s) (targetCard s)
          (referenceCards s) (sceneReady s) (clickableObjects s) (timers s)
          (now s) g (uuid s) (console s).
Definition withUuid (g : UuidSource) (s : State) : State :=
  mkState (gameStateRef s) (stats s) (feedback s) (targetCard s)
          (referenceCards s) (sceneReady s) (clickableObjects s) (timers s)
          (now s) (rand s) g (console s).
(** [console.log(e)] *)
Definition consoleLog (e : LogEntry) (s : State) : State :=
  mkState (gameStateRef s) (stats s) (feedback s) (targetCard s)
          (referenceCards s) (sceneReady s) (clickableObjects s) (timers s)
          (now s) (rand s) (uuid s) (console s ++ [e]).
(** [setTimeout(k, delay)] *)
Definition setTimeout (k : Callback) (delay : nat) (s : State) : State :=
  withTimers (timers s ++ [(now s + delay, k)]) s.

(** The initial value of [useRef<Card[]>([...])], the four identifiers
    being the results of its four [uuidv4()] calls. *)
Definition makeReferenceCards (i1 i2 i3 i4 : string) : list (Card string) :=
  [ mkCard i1 red circle 1 small;
    mkCard i2 green triangle 2 medium;
    mkCard i3 blue star 3 large;
    mkCard i4 yellow square 4 medium ].

(** The values of the hooks at the first render, at time [t0]. *)
Definition initialState (t0 : nat) (g : MathRandom) (ids : UuidSource) : State :=
  let (i1, ids1) := nextUuid ids in
  let (i2, ids2) := nextUuid ids1 in
  let (i3, ids3) := nextUuid ids2 in
  let (i4, ids4) := nextUuid ids3 in
  mkState (mkRef ByColor None false) (mkStats 0 0 0 0 0) None None
          (makeReferenceCards i1 i2 i3 i4) false [] [] t0 g ids4 [].

(** What [CardSchema] checks beyond the types of the fields (the
    identifier is taken to be a well-formed uuid). *)
Definition cardSchemaOk (c : Card string) : bool :=
  (1 <=? number c) && (number c <=? 4).

(** [generateNewCard]: the card and the state of the two sources after
    it.  [CardSchema.parse] returns its argument, as the generated card
    always passes ([generateNewCard_schema]). *)
Definition generateNewCard (s : State) : Card string * State :=
  let (i, ids) := nextUuid (uuid s) in
  let (u1, g1) := nextRandom (rand s) in
  let (u2, g2) := nextRandom g1 in
  let (u3, g3) := nextRandom g2 in
  let (u4, g4) := nextRandom g3 in
  (mkCard i
          (randomElement red colors u1)
          (randomElement circle shapes u2)
          (floorTimes u3 4 + 1)
          (randomElement small sizes u4),
   withRand g4 (withUuid ids s)).

(** [changeRule] *)
Definition changeRule (s : State) : State :=
  let current := currentRule (gameStateRef s) in
  let available := filter (fun r => ruleNeq r current) rules in
  let (u, g) := nextRandom (rand s) in
  let newRule := randomElement current available u in
  consoleLog (LogRuleChanged newRule)
    (setStats (fun prev => mkStats (attempts prev) (correct prev)
                                   (perseverativeErrors prev)
                                   (ruleChanges prev + 1) 0)
       (withRef (mkRef newRule (Some current) (isAnimating (gameStateRef s)))
          (withRand g s))).

(** [isPerseverative]: [!isMatch && previousRule && checkMatch(...)] is
    truthy exactly when this boolean is true. *)
Definition isPerseverative (isMatch : bool) (prev : option Rule)
           (target refCard : Card string) : bool :=
  negb isMatch &&
  match prev with
  | Some p => checkMatch target refCard p
  | None => false
  end.

(** [handleCardSelection].  The updater given to [setStats] registers the
    [changeRule] timer when it computes the new streak, which is before
    the later timer can run (its delay is shorter).  *)
Definition handleCardSelection (refCard : Card string) (s : State) : State :=
  match targetCard s, isAnimating (gameStateRef s) with
  | Some target, false =>
      let s1 := consoleLog LogProcessing s in
      let s2 := withRef (mkRef (currentRule (gameStateRef s1))
                               (previousRule (gameStateRef s1)) true) s1 in
      let isMatch := checkMatch target refCard (currentRule (gameStateRef s2)) in
      let persev :=
        isPerseverative isMatch (previousRule (gameStateRef s2)) target refCard in
      let s3 := setFeedback (Some (if isMatch then Correct else Incorrect)) s2 in
      let newStreak := if isMatch then streak (stats s3) + 1 else 0 in
      let s4 := if streakDue newStreak
                then setTimeout ChangeRule CHANGE_RULE_DELAY s3 else s3 in
      let s5 := setStats (fun prev =>
                            mkStats (attempts prev + 1)
                                    (correct prev + (if isMatch then 1 else 0))
                                    (perseverativeErrors prev + (if persev then 1 else 0))
                                    (ruleChanges prev)
                                    newStreak) s4 in
      setTimeout NextRound FEEDBACK_DELAY s5
  | _, _ => s
  end.

(** The effect on [[targetCard]] that rebuilds the scene, as far as
    [clickableObjects] goes: one mesh per reference card.  (three.js
    draws the identifier of every object it creates from [Math.random];
    [rand] is the sequence of the values that the component's own calls
    receive, so the values that three.js takes in between are not part
    of it.) *)
Definition sceneEffect (s : State) : State :=
  match sceneReady s, targetCard s with
  | true, Some _ =>
      withClickable
        (map (fun card => mkMesh (Some (mkUserData true card))) (referenceCards s)) s
  | _, _ => s
  end.

(** Running a timer callback; a new target card is a new object, so the
    scene effect runs in the render that follows. *)
Definition runCallback (k : Callback) (s : State) : State :=
  match k with
  | ChangeRule => changeRule s
  | NextRound =>
      let (card, s1) := generateNewCard (setFeedback None s) in
      let s2 := setTargetCard (Some card) s1 in
      let s3 := withRef (mkRef (currentRule (gameStateRef s2))
                               (previousRule (gameStateRef s2)) false) s2 in
      sceneEffect s3
  end.

(** The mount effect: the first target card, the scene (the [div] that
    [mountRef] points to exists when effects run), and then the scene
    effect of the render that shows the card.  The values of
    [Math.random] that three.js takes for the identifiers of the scene,
    the camera and the lights are not part of [rand], as in
    [sceneEffect]. *)
Definition mount (s : State) : State :=
  let (card, s1) := generateNewCard s in
  sceneEffect (withSceneReady true (setTargetCard (Some card) s1)).

(** [handleCanvasClick], given the coordinates of the click and the
    result [intersects] of the ray cast against [clickableObjects]. *)
Definition handleCanvasClick (clientX clientY : nat) (intersects : list Mesh)
           (s : State) : State :=
  if negb (sceneReady s) then s
  else
    let s1 := consoleLog (LogClickDetected clientX clientY) s in
    match intersects with
    | object :: _ =>
        let s2 := consoleLog (LogTouched (userData object)) s1 in
        match userData object with
        | Some ud => if isReference ud then handleCardSelection (cardData ud) s2 else s2
        | None => s2
        end
    | [] => consoleLog LogVoid s1
    end.

(** The timers that are due up to [deadline] run in order, each at its
    due time. *)
Fixpoint runTimers (fuel deadline : nat) (s : State) : State :=
  match fuel with
  | 0 => s
  | S fuel' =>
      match popEarliest (timers s) with
      | Some ((due, k), rest) =>
          if due <=? deadline then
            runTimers fuel' deadline
              (runCallback k (withNow (Nat.max (now s) due) (withTimers rest s)))
          else s
      | None => s
      end
  end.

(** [dt] milliseconds pass.  No callback of this component registers a
    timer, so the number of pending timers is enough fuel
    ([wait_no_timer_due_gl]). *)
Definition wait (dt : nat) (s : State) : State :=
  let deadline := now s + dt in
  withNow deadline (runTimers (length (timers s)) deadline s).

(** What can happen to a mounted component. *)
Inductive Event : Set :=
| Select (refCard : Card string)
| CanvasClick (clientX clientY : nat) (intersects : list Mesh)
| Wait (dt : nat).

Definition step (e : Event) (s : State) : State :=
  match e with
  | Select refCard => handleCardSelection refCard s
  | CanvasClick x y intersects => handleCanvasClick x y intersects s
  | Wait dt => wait dt s
  end.

Definition run (es : list Event) (s : State) : State :=
  fold_left (fun st e => step e st) es s.

(** One round: a selection, then the feedback window. *)
Definition round (refCard : Card string) (s : State) : State :=
  wait FEEDBACK_DELAY (handleCardSelection refCard s).

Fixpoint rounds (refCards : list (Card string)) (s : State) : State :=
  match refCards with
  | [] => s
  | c :: cs => rounds cs (round c s)
  end.

(** The states of a session. *)
Inductive reachable : State -> Prop :=
| reach_mount t0 g ids : reachable (mount (initialState t0 g ids))
| reach_step e s : reachable s -> reachable (step e s).

End Game3D.

(* ------------------------------------------------------------------ *)
(** ** Notions used to state the properties *)

(** Two cards show the same face: they agree on the four attributes
    (identifiers apart). *)
Definition sameFace {I J : Type} (a : Card I) (b : Card J) : Prop :=
  forall rule, attr a rule = attr b rule.

(** The reference cards that a target card matches under a rule. *)
Definition matching {I J : Type} (refs : list (Card I)) (target : Card J)
           (rule : Rule) : list (Card I) :=
  filter (fun refCard => checkMatch target refCard rule) refs.

(** The four counters that only count up. *)
Definition countersLe (a b : GameStats) : Prop :=
  attempts a <= attempts b /\ correct a <= correct b /\
  perseverativeErrors a <= perseverativeErrors b /\
  ruleChanges a <= ruleChanges b.

(** The perseveration test of the specification: wrong under the current
    rule and right under the previous one, when there is one. *)
Definition perseverates {I J : Type} (target : Card I) (refCard : Card J)
           (current : Rule) (previous : option Rule) : Prop :=
  checkMatch target refCard current = false /\
  exists p, previous = Some p /\ checkMatch target refCard p = true.

(** The session configuration of the specification, with its defaults, and
    the switch condition for a configured threshold. *)
Record Config : Set := mkConfig {
  cardsPerRuleChange : nat;
  feedbackDelayMs : nat
}.

Definition defaultConfig : Config := mkConfig 5 1000.

Definition configuredSwitchDue (cfg : Config) (n : nat) : bool :=
  (0 <? n) && (n mod cardsPerRuleChange cfg =? 0).

(** A generator that always returns 0, and one that always returns one
    half; a uuid source that numbers its results. *)
Definition zeroRandom : MathRandom := mkRandom (fun _ => mkUnit01 0 0) 0.
Definition halfRandom : MathRandom := mkRandom (fun _ => mkUnit01 1 0) 0.
Definition countingUuid : UuidSource :=
  mkUuid (fun n => String.concat "" (repeat "u"%string (S n))) 0.

Module Game2DProps.
Import Game2D.

(** The state awaits a selection: a target card is shown, no feedback is
    shown, and no timer is pending (as in every reachable state without
    feedback, [reachable_wf_dom]). *)
Definition awaiting (s : State) (target : Card nat) : Prop :=
  targetCard s = Some target /\ feedback s = None /\ timers s = [].

(** The selection of [refCard] is evaluated in [s] and is correct. *)
Definition correctIn (refCard : Card nat) (s : State) : bool :=
  match targetCard s, feedback s with
  | Some target, None => checkMatch target refCard (currentRule s)
  | _, _ => false
  end.

(** Each selection of the list is correct in the round it is made in. *)
Fixpoint allCorrect (refCards : list (Card nat)) (s : State) : bool :=
  match refCards with
  | [] => true
  | c :: cs => correctIn c s && allCorrect cs (round c s)
  end.

(** The milliseconds that pass during a list of events. *)
Definition elapsed (es : list Event) : nat :=
  fold_right (fun e acc => match e with Wait dt => dt + acc | Click _ => acc end) 0 es.

(** The invariant of a session: without feedback no timer is pending;
    with feedback exactly the timer that ends the window is, and the
    window started less than [FEEDBACK_DELAY] ago.  The streak stays below
    the threshold. *)
Definition wf (s : State) : Prop :=
  targetCard s <> None /\
  streak (stats s) < CARDS_TO_CHANGE_RULE /\
  match feedback s with
  | None => timers s = []
  | Some _ => exists t0, timers s = [(t0 + FEEDBACK_DELAY, NextRound)] /\
                         t0 <= now s < t0 + FEEDBACK_DELAY
  end.

End Game2DProps.

Module Game3DProps.
Import Game3D.

(** The state awaits a selection: a target card is shown, no selection is
    being processed, and no timer is pending (as in every reachable state
    that is not animating, [reachable_wf_gl]). *)
Definition awaiting (s : State) (target : Card string) : Prop :=
  targetCard s = Some target /\ isAnimating (gameStateRef s) = false /\
  timers s = [].

(** The selection of [refCard] is evaluated in [s] and is correct. *)
Definition correctIn (refCard : Card string) (s : State) : bool :=
  match targetCard s, isAnimating (gameStateRef s) with
  | Some target, false => checkMatch target refCard (currentRule (gameStateRef s))
  | _, _ => false
  end.

(** Each selection of the list is correct in the round it is made in. *)
Fixpoint allCorrect (refCards : list (Card string)) (s : State) : bool :=
  match refCards with
  | [] => true
  | c :: cs => correctIn c s && allCorrect cs (round c s)
  end.

(** The milliseconds that pass during a list of events. *)
Definition elapsed (es : list Event) : nat :=
  fold_right (fun e acc => match e with Wait dt => dt + acc | _ => acc end) 0 es.

(** The session state proper: everything but the console and the two
    sources. *)
Definition sameSession (a b : State) : Prop :=
  gameStateRef a = gameStateRef b /\ stats a = stats b /\
  feedback a = feedback b /\ targetCard a = targetCard b /\
  referenceCards a = referenceCards b /\ timers a = timers b /\
  clickableObjects a = clickableObjects b /\ now a = now b.

(** The meshes that a ray cast can return carry a reference card. *)
Definition clickableAreReferences (s : State) : Prop :=
  forall m, In m (clickableObjects s) ->
            exists card, In card (referenceCards s) /\
                         userData m = Some (mkUserData true card).

(** A selection evaluated at time [t0] is being processed: the timer that
    ends the window is pending, preceded by the [changeRule] timer if the
    rule is still to be changed. *)
Definition lockedSince (t0 : nat) (s : State) : Prop :=
  isAnimating (gameStateRef s) = true /\
  t0 <= now s < t0 + FEEDBACK_DELAY /\
  (timers s = [(t0 + FEEDBACK_DELAY, NextRound)] \/
   (timers s = [(t0 + CHANGE_RULE_DELAY, ChangeRule);
                (t0 + FEEDBACK_DELAY, NextRound)] /\
    now s < t0 + CHANGE_RULE_DELAY)).

(** The streak is at the threshold exactly while the rule change that it
    caused is pending, and below it otherwise. *)
Definition streakBound (s : State) : Prop :=
  match timers s with
  | (_, ChangeRule) :: _ => streak (stats s) = CARDS_TO_CHANGE_RULE
  | _ => streak (stats s) < CARDS_TO_CHANGE_RULE
  end.

(** The invariant of a session. *)
Definition wf (s : State) : Prop :=
  targetCard s <> None /\
  clickableAreReferences s /\
  streakBound s /\
  if isAnimating (gameStateRef s) then exists t0, lockedSince t0 s
  else timers s = [].

End Game3DProps.

(* ------------------------------------------------------------------ *)
(** ** The atomic actions of a session, and what is read off its state *)

(** What the statistics always satisfy: an answer is correct, a
    perseverative error, or another error; and every rule change has used
    up [CARDS_TO_CHANGE_RULE] correct answers, the streak counting those
    made since. *)
Definition statsInv (st : GameStats) : Prop :=
  correct st + perseverativeErrors st <= attempts st /\
  CARDS_TO_CHANGE_RULE * ruleChanges st + streak st <= correct st.

(** The rules of a session: the previous rule is not the current one, and
    there is one exactly when a rule change has been counted. *)
Definition rulesInv (current : Rule) (previous : option Rule) (st : GameStats) : Prop :=
  previous <> Some current /\ (previous = None <-> ruleChanges st = 0).

(** [Math.random()] returning [k / n]. *)
Definition fraction (k n : nat) : Unit01 := mkUnit01 k (n - 1 - k).

(** A [Math.random] that returns the given values, in order. *)
Definition scripted (draws : list Unit01) : MathRandom :=
  mkRandom (fun i => nth i draws (mkUnit01 0 0)) 0.

(** The position of a value in one of the arrays of [generateNewCard]. *)
Definition colorIndex (c : Color) : nat :=
  match c with red => 0 | blue => 1 | green => 2 | yellow => 3 end.
Definition shapeIndex (s : Shape) : nat :=
  match s with circle => 0 | square => 1 | triangle => 2 | star => 3 end.
Definition sizeIndex (z : Size) : nat :=
  match z with small => 0 | medium => 1 | large => 2 end.

(** The position of [r] among the rules other than [current]. *)
Definition otherRuleIndex (current r : Rule) : nat :=
  match current, r with
  | ByColor, ByShape => 0 | ByColor, ByNumber => 1 | ByColor, BySize => 2
  | ByShape, ByColor => 0 | ByShape, ByNumber => 1 | ByShape, BySize => 2
  | ByNumber, ByColor => 0 | ByNumber, ByShape => 1 | ByNumber, BySize => 2
  | BySize, ByColor => 0 | BySize, ByShape => 1 | BySize, ByNumber => 2
  | _, _ => 0
  end.

(** The draws that make [generateNewCard] return a given face. *)
Definition drawsOfFace (c : Color) (sh : Shape) (n : nat) (z : Size) : MathRandom :=
  scripted [ fraction (colorIndex c) 4; fraction (shapeIndex sh) 4;
             fraction (n - 1) 4; fraction (sizeIndex z) 3 ].

Module Game2DSteps.
Import Game2D.

(** The atomic actions of the DOM component: an evaluated
    [handleCardClick], the streak effect running [changeRule], the clock,
    and the timer callback. *)
Inductive action : State -> State -> Prop :=
| act_click refCard target s :
    targetCard s = Some target -> feedback s = None ->
    action s (handleCardClick refCard s)
| act_changeRule s :
    streakDue (streak (stats s)) = true -> action s (changeRule s)
| act_clock t s : action s (withNow t s)
| act_nextRound tm s :
    action s (generateNewCard (setFeedback None (withNow tm (withTimers [] s)))).

(** Several actions in a row. *)
Inductive actions : State -> State -> Prop :=
| acts_none s : actions s s
| acts_more s s1 s2 : action s s1 -> actions s1 s2 -> actions s s2.

(** The rules named by the console, oldest first. *)
Definition loggedRules (l : list LogEntry) : list Rule :=
  map (fun e => match e with LogRuleChanged r => r end) l.

(** The state shows a target card with one to four symbols. *)
Definition targetValid (s : State) : Prop :=
  exists target, targetCard s = Some target /\ 1 <= number target <= 4.

End Game2DSteps.

Module Game3DSteps.
Import Game3D.

(** The console lines of [handleCanvasClick]. *)
Definition isClickLine (e : LogEntry) : bool :=
  match e with
  | LogClickDetected _ _ | LogTouched _ | LogVoid => true
  | _ => false
  end.

(** The atomic actions of the three.js component: a console line of
    [handleCanvasClick], an evaluated [handleCardSelection], the clock, and
    the two timer callbacks, [changeRule] running when its timer is taken
    off the queue. *)
Inductive action : State -> State -> Prop :=
| act_log e s : isClickLine e = true -> action s (consoleLog e s)
| act_select refCard target s :
    targetCard s = Some target -> isAnimating (gameStateRef s) = false ->
    action s (handleCardSelection refCard s)
| act_clock t s : action s (withNow t s)
| act_changeRule tq l s :
    streakDue (streak (stats s)) = true ->
    action s (changeRule (withNow tq (withTimers l s)))
| act_nextRound tm s :
    action s (runCallback NextRound (withNow tm (withTimers [] s))).

(** Several actions in a row. *)
Inductive actions : State -> State -> Prop :=
| acts_none s : actions s s
| acts_more s s1 s2 : action s s1 -> actions s1 s2 -> actions s s2.

(** The rules named by the console, oldest first. *)
Definition loggedRules (l : list LogEntry) : list Rule :=
  flat_map (fun e => match e with LogRuleChanged r => [r] | _ => [] end) l.

(** The number of selections that the console says were processed. *)
Definition processedLines (l : list LogEntry) : nat :=
  length (filter (fun e => match e with LogProcessing => true | _ => false end) l).

(** The state shows a target card with one to four symbols. *)
Definition targetValid (s : State) : Prop :=
  exists target, targetCard s = Some target /\ 1 <= number target <= 4.

(** The mesh that the scene effect builds for a reference card, as far as
    the click handler reads it. *)
Definition referenceMesh (card : Card string) : Mesh :=
  mkMesh (Some (mkUserData true card)).

(** The scene is set up: the reference cards are the four of the first
    render, and the clickable meshes are theirs, in order. *)
Definition sceneValid (s : State) : Prop :=
  sceneReady s = true /\
  (exists i1 i2 i3 i4, referenceCards s = makeReferenceCards i1 i2 i3 i4) /\
  clickableObjects s = map referenceMesh (referenceCards s).

End Game3DSteps.

(* ------------------------------------------------------------------ *)
(** ** What the components draw *)

(** The string that a rule is ([{currentRule}] in the markup). *)
Definition ruleName (r : Rule) : string :=
  match r with
  | ByColor => "color" | ByShape => "shape" | ByNumber => "number" | BySize => "size"
  end.

(** [l.map((x, i) => f(x, i))] *)
Definition mapWithIndex {A B : Type} (f : A -> nat -> B) (l : list A) : list B :=
  map (fun p => f (snd p) (fst p)) (combine (seq 0 (length l)) l).

(** [a || b] on numbers that are not [NaN]: [b] if [a] is zero. *)
Definition orElseN (a b : N) : N := if (a =? 0)%N then b else a.
Definition orElseQ (a b : Q) : Q := if Qeq_bool a 0 then b else a.

Module Game2DView.
Import Game2D.

(** [<span key={i} className=...>{s}</span>] *)
Record Span : Set := mkSpan { key : nat; spanClass : string; text : string }.

(** The [<div className={...}>] of [renderShape], with its children. *)
Record Element : Set := mkElement { className : string; children : list Span }.

(** [renderShape] *)
Definition renderShape {I : Type} (card : Card I) : Element :=
  let scale :=
    match size card with
    | small => "scale-75" | large => "scale-125" | medium => "scale-100"
    end%string in
  let colorMap := fun c =>
    match c with
    | red => "text-red-500" | blue => "text-blue-500"
    | green => "text-emerald-500" | yellow => "text-yellow-500"
    end%string in
  let shapeMap := fun sh =>
    match sh with
    | circle => "●" | square => "■" | triangle => "▲" | star => "★"
    end%string in
  let symbols := repeat (shapeMap (shape card)) (number card) in
  mkElement
    ("flex gap-1 flex-wrap justify-center " ++ colorMap (color card) ++ " " ++ scale
       ++ " transition-transform duration-300")%string
    (mapWithIndex (fun s i => mkSpan i "text-4xl drop-shadow-sm" s) symbols).

(** The [<span>] of the feedback overlay. *)
Record Overlay : Set := mkOverlay { overlayClass : string; overlayText : string }.

(** A [<button key=... disabled=...>] of the reference cards. *)
Record Button : Set := mkButton { buttonKey : nat; disabled : bool; content : Element }.

(** The parts of the page that depend on the state. *)
Record Page : Set := mkPage {
  shownAttempts : nat;
  shownCorrect : nat;
  shownRuleChanges : nat;
  shownPerseverativeErrors : nat;
  targetView : option Element;
  overlay : option Overlay;
  buttons : list Button;
  devLine : string
}.

(** The markup that the component returns. *)
Definition render (s : State) : Page :=
  mkPage
    (attempts (stats s)) (correct (stats s)) (ruleChanges (stats s))
    (perseverativeErrors (stats s))
    (match targetCard s with
     | Some target => Some (renderShape target)
     | None => None
     end)
    (match feedback s with
     | Some f =>
         Some (mkOverlay
                 ("text-2xl font-black px-4 py-2 rounded shadow-lg " ++
                  match f with
                  | Correct => "bg-green-500 text-white"
                  | Incorrect => "bg-red-500 text-white"
                  end)%string
                 (match f with Correct => "¡CORRECTO!" | Incorrect => "INCORRECTO" end)%string)
     | None => None
     end)
    (map (fun refCard =>
            mkButton (id refCard)
                     (match feedback s with Some _ => true | None => false end)
                     (renderShape refCard))
         referenceCards)
    ("Regla Actual (Solo Dev): " ++ ruleName (currentRule s))%string.

(** What two states show alike: the rule, the feedback, the four counters
    and the face of the target card. *)
Definition sameShown (a b : State) : Prop :=
  currentRule a = currentRule b /\ feedback a = feedback b /\
  attempts (stats a) = attempts (stats b) /\
  correct (stats a) = correct (stats b) /\
  ruleChanges (stats a) = ruleChanges (stats b) /\
  perseverativeErrors (stats a) = perseverativeErrors (stats b) /\
  match targetCard a, targetCard b with
  | Some ta, Some tb => sameFace ta tb
  | None, None => True
  | _, _ => False
  end.

End Game2DView.

Module Game3DScene.
Import Game3D.

(** The geometries of three.js that the component creates, with the
    arguments of their constructors.  Numbers that are not counts are
    rationals: the decimal literals of the source stand for the nearest
    doubles, and the only arithmetic done on them (the positions of the
    reference meshes) is exact in both. *)
Inductive Geometry : Set :=
| SphereGeometry (radius : Q) (widthSegments heightSegments : nat)
| BoxGeometry (width height depth : Q)
| ConeGeometry (radius height : Q) (radialSegments : nat)
| IcosahedronGeometry (radius : Q) (detail : nat).

(** [getGeometry], on the values that it is called with (a card's
    shape); the [default] case is the last one. *)
Definition getGeometry (shape : Shape) : Geometry :=
  match shape with
  | circle => SphereGeometry (3 # 5) 32 32
  | square => BoxGeometry 1 1 1
  | triangle => ConeGeometry (3 # 5) (6 # 5) 4
  | star => IcosahedronGeometry (7 # 10) 0
  end.

(** [getColor], on the values that it is called with (a card's color). *)
Definition getColor (color : Color) : N :=
  let map := fun c =>
    match c with
    | red => 0xff4444 | blue => 0x4444ff | green => 0x44aa44 | yellow => 0xffff44
    end%N in
  orElseN (map color) 0xffffff%N.

(** [getScale], on the values that it is called with (a card's size). *)
Definition getScale (size : Size) : Q :=
  let map := fun z =>
    match z with small => 7 # 10 | medium => 1 | large => 13 # 10 end%Q in
  orElseQ (map size) 1.

(** The parameters given to [new THREE.MeshStandardMaterial]. *)
Record Material : Set := mkMaterial {
  materialColor : N;
  emissive : option N;
  emissiveIntensity : option Q;
  roughness : option Q
}.

(** A mesh of the scene: what the scene effect sets of it. *)
Record SceneMesh : Set := mkSceneMesh {
  geometry : Geometry;
  material : Material;
  scale : Q * Q * Q;
  position : Q * Q * Q;
  meshUserData : option UserData
}.

(** The children of the scene. *)
Inductive Object3D : Set :=
| AmbientLight (color : N) (intensity : Q)
| DirectionalLight (color : N) (intensity : Q) (position : Q * Q * Q)
| MeshObject (m : SceneMesh).

(** [child instanceof THREE.Mesh] *)
Definition isMesh (child : Object3D) : bool :=
  match child with MeshObject _ => true | _ => false end.

(** The children of the scene that the mount effect creates. *)
Definition mountScene : list Object3D :=
  [ AmbientLight 0xffffff%N (3 # 5); DirectionalLight 0xffffff%N 1 (5, 5, 5)%Q ].

(** [tMesh] of the scene effect. *)
Definition targetMesh (targetCard : Card string) : SceneMesh :=
  let tGeo := getGeometry (shape targetCard) in
  let tMat := mkMaterial (getColor (color targetCard))
                         (Some (getColor (color targetCard))) (Some (2 # 5)%Q) None in
  let tScale := getScale (size targetCard) in
  mkSceneMesh tGeo tMat (tScale, tScale, tScale) (0, 3, 0)%Q None.

(** [rMesh] of the scene effect, for the reference card at [index]. *)
Definition referenceMeshAt (card : Card string) (index : nat) : SceneMesh :=
  let rGeo := getGeometry (shape card) in
  let rMat := mkMaterial (getColor (color card)) None None (Some (3 # 10)%Q) in
  let spacing := (7 # 2)%Q in
  let startX := (-21 # 4)%Q in
  let rScale := getScale (size card) in
  mkSceneMesh rGeo rMat (rScale, rScale, rScale)
              ((startX + inject_Z (Z.of_nat index) * spacing)%Q, (-5 # 2)%Q, 0%Q)
              (Some (mkUserData true card)).

(** [scene.remove(child)] for the child at position [i]: an object is a
    child of the scene at most once, so this is the position that is
    removed. *)
Fixpoint removeAt {A : Type} (i : nat) (l : list A) : list A :=
  match l, i with
  | [], _ => []
  | _ :: l', 0 => l'
  | x :: l', S i' => x :: removeAt i' l'
  end.

(** The loop [for (let i = count - 1; i >= 0; i--)] that removes the
    meshes of the scene. *)
Fixpoint removeMeshesFrom (count : nat) (children : list Object3D) : list Object3D :=
  match count with
  | 0 => children
  | S i =>
      removeMeshesFrom i
        (match nth_error children i with
         | Some child => if isMesh child then removeAt i children else children
         | None => children
         end)
  end.

(** The scene effect for a scene that exists and a target card: the
    children of the scene and [clickableObjects.current] after it. *)
Definition rebuildScene (targetCard : Card string) (referenceCards : list (Card string))
           (children : list Object3D) : list Object3D * list SceneMesh :=
  let children1 := removeMeshesFrom (length children) children in
  let children2 := children1 ++ [MeshObject (targetMesh targetCard)] in
  fold_left
    (fun acc p =>
       let rMesh := referenceMeshAt (snd p) (fst p) in
       (fst acc ++ [MeshObject rMesh], snd acc ++ [rMesh]))
    (combine (seq 0 (length referenceCards)) referenceCards)
    (children2, []).

(** The scene after the scene effect has run for each target card of a
    list in turn, from the scene of the mount effect. *)
Definition sceneAfter (targetCards : list (Card string))
           (referenceCards : list (Card string)) : list Object3D :=
  fold_left (fun children target => fst (rebuildScene target referenceCards children))
            targetCards mountScene.

(** What the click handler reads of a mesh. *)
Definition clickView (m : SceneMesh) : Mesh := mkMesh (meshUserData m).

(** What a mesh looks like. *)
Definition appearance (m : SceneMesh) : Geometry * Material * (Q * Q * Q) :=
  (geometry m, material m, scale m).

End Game3DScene.

(* ------------------------------------------------------------------ *)
(** ** Random draws and the timer queue *)

Lemma floorTimes_lt (u : Unit01) (n : nat) : 0 < n -> floorTimes u n < n.
Proof.
  intros Hn. unfold floorTimes.
  apply Nat.Div0.div_lt_upper_bound. nia.
Qed.

Lemma randomElement_In (A : Type) (d : A) (arr : list A) (u : Unit01) :
  arr <> [] -> In (randomElement d arr u) arr.
Proof.
  intros Hne. unfold randomElement. apply nth_In.
  apply floorTimes_lt. destruct arr; [congruence | simpl; lia].
Qed.

Lemma ruleNeq_true (r current : Rule) : ruleNeq r current = true <-> r <> current.
Proof.
  unfold ruleNeq. destruct (Rule_eq_dec r current); split; congruence.
Qed.

(** The rule drawn by [changeRule] is one of the four and is not the
    current one. *)
Lemma newRule_other (current : Rule) (u : Unit01) :
  let newRule :=
    randomElement current (filter (fun r => ruleNeq r current) rules) u in
  newRule <> current /\ In newRule rules.
Proof.
  intros newRule.
  assert (Hin : In newRule (filter (fun r => ruleNeq r current) rules)).
  { apply randomElement_In. destruct current; discriminate. }
  apply filter_In in Hin. destruct Hin as [Hr Hneq].
  split; [now apply ruleNeq_true | exact Hr].
Qed.

Lemma streakDue_true (n : nat) :
  streakDue n = true <-> 0 < n /\ n mod CARDS_TO_CHANGE_RULE = 0.
Proof.
  unfold streakDue. rewrite andb_true_iff, Nat.ltb_lt, Nat.eqb_eq. tauto.
Qed.

Lemma streakDue_zero : streakDue 0 = false.
Proof. reflexivity. Qed.

Lemma streakDue_small (n : nat) :
  n < CARDS_TO_CHANGE_RULE -> streakDue n = false.
Proof.
  intros Hn. destruct (streakDue n) eqn:E; [|reflexivity].
  apply streakDue_true in E. destruct E as [Hpos Hmod].
  rewrite Nat.mod_small in Hmod by exact Hn. lia.
Qed.

Lemma streakDue_threshold : streakDue CARDS_TO_CHANGE_RULE = true.
Proof. reflexivity. Qed.

(** The generated number of symbols is between 1 and 4. *)
Lemma generated_number (u : Unit01) : 1 <= floorTimes u 4 + 1 <= 4.
Proof.
  pose proof (floorTimes_lt u 4). lia.
Qed.

Lemma app_singleton_pair (A : Type) (x y : A) : [x] ++ [y] = [x; y].
Proof. reflexivity. Qed.

(** What [popEarliest] returns: a timer of the queue that none precedes,
    and the queue without it. *)
Lemma popEarliest_spec (K : Type) (l : list (nat * K)) :
  match popEarliest l with
  | None => l = []
  | Some (t, rest) =>
      length l = S (length rest) /\
      (forall x, In x l <-> x = t \/ In x rest) /\
      (forall x, In x l -> fst t <= fst x)
  end.
Proof.
  induction l as [|a l IH]; [reflexivity|].
  cbn [popEarliest]. destruct (popEarliest l) as [[t' rest]|].
  - destruct IH as (Hlen & Hin & Hmin).
    destruct (fst a <=? fst t') eqn:E.
    + apply Nat.leb_le in E. split; [reflexivity|]. split.
      * intros x. cbn [In]. split; intros [H|H]; auto.
      * intros x [<-|Hx]; [lia|]. specialize (Hmin x Hx). lia.
    + apply Nat.leb_gt in E. split; [cbn [length]; lia|]. split.
      * intros x. cbn [In]. rewrite (Hin x). intuition auto.
      * intros x [<-|Hx]; [lia|]. now apply Hmin.
  - subst l. split; [reflexivity|]. split.
    + intros x. cbn [In]. intuition auto.
    + intros x [<-|[]]. lia.
Qed.

Lemma mod_threshold_run (n : nat) :
  (forall k, 1 <= k <= 4 -> streakDue (n + k) = false) ->
  streakDue (n + CARDS_TO_CHANGE_RULE) = true.
Proof.
  intros H. apply streakDue_true. unfold CARDS_TO_CHANGE_RULE. split; [lia|].
  assert (Hk : forall k, 1 <= k <= 4 -> (n + k) mod 5 <> 0).
  { intros k Hk E. specialize (H k Hk).
    assert (Ht : streakDue (n + k) = true)
      by (apply streakDue_true; unfold CARDS_TO_CHANGE_RULE; split; [lia | exact E]).
    congruence. }
  pose proof (Hk 1 ltac:(lia)) as H1. pose proof (Hk 2 ltac:(lia)) as H2.
  pose proof (Hk 3 ltac:(lia)) as H3. pose proof (Hk 4 ltac:(lia)) as H4.
  pose proof (Nat.div_mod_eq n 5) as Hn.
  pose proof (Nat.mod_upper_bound n 5 ltac:(lia)) as Hr.
  assert (Hcase : n mod 5 = 0 \/ n mod 5 = 1 \/ n mod 5 = 2 \/ n mod 5 = 3 \/ n mod 5 = 4)
    by lia.
  assert (Hadd : forall k, (n + k) mod 5 = (n mod 5 + k) mod 5).
  { intros k. rewrite Nat.Div0.add_mod_idemp_l. reflexivity. }
  rewrite (Hadd 5). rewrite (Hadd 1) in H1. rewrite (Hadd 2) in H2.
  rewrite (Hadd 3) in H3. rewrite (Hadd 4) in H4.
  destruct Hcase as [E|[E|[E|[E|E]]]]; rewrite E in *; cbn in *; congruence.
Qed.

Lemma countersLe_refl (a : GameStats) : countersLe a a.
Proof. unfold countersLe. auto. Qed.

Lemma countersLe_trans (a b c : GameStats) :
  countersLe a b -> countersLe b c -> countersLe a c.
Proof. unfold countersLe. intros (?&?&?&?) (?&?&?&?). repeat split; lia. Qed.

(* ------------------------------------------------------------------ *)
(** ** The DOM component *)

Module Game2DFacts.
Import Game2D Game2DProps.

Ltac fields :=
  cbn [currentRule previousRule targetCard feedback stats timers now rand console
       attempts correct perseverativeErrors ruleChanges streak
       setCurrentRule setPreviousRule setTargetCard setFeedback setStats
       withTimers withNow withRand consoleLog setTimeout] in *.

(** *** [changeRule] *)

Lemma changeRule_currentRule (s : State) :
  currentRule (changeRule s) <> currentRule s /\ In (currentRule (changeRule s)) rules.
Proof.
  unfold changeRule. destruct (nextRandom (rand s)) as [u g]. fields.
  apply newRule_other.
Qed.

Lemma changeRule_previousRule (s : State) :
  previousRule (changeRule s) = Some (currentRule s).
Proof.
  unfold changeRule. destruct (nextRandom (rand s)) as [u g]. reflexivity.
Qed.

Lemma changeRule_stats_dom (s : State) :
  stats (changeRule s) =
  mkStats (attempts (stats s)) (correct (stats s)) (perseverativeErrors (stats s))
          (ruleChanges (stats s) + 1) 0.
Proof.
  unfold changeRule. destruct (nextRandom (rand s)) as [u g]. reflexivity.
Qed.

Lemma changeRule_console (s : State) :
  console (changeRule s) = console s ++ [LogRuleChanged (currentRule (changeRule s))].
Proof.
  unfold changeRule. destruct (nextRandom (rand s)) as [u g]. reflexivity.
Qed.

Lemma changeRule_frame_dom (s : State) :
  targetCard (changeRule s) = targetCard s /\
  feedback (changeRule s) = feedback s /\
  timers (changeRule s) = timers s /\
  now (changeRule s) = now s.
Proof.
  unfold changeRule. destruct (nextRandom (rand s)) as [u g]. fields. auto.
Qed.

(** *** [generateNewCard] *)

Lemma generateNewCard_frame_dom (s : State) :
  currentRule (generateNewCard s) = currentRule s /\
  previousRule (generateNewCard s) = previousRule s /\
  feedback (generateNewCard s) = feedback s /\
  stats (generateNewCard s) = stats s /\
  timers (generateNewCard s) = timers s /\
  now (generateNewCard s) = now s /\
  console (generateNewCard s) = console s.
Proof. unfold generateNewCard, nextRandom. fields. repeat split. Qed.

Lemma generateNewCard_target (s : State) :
  exists card, targetCard (generateNewCard s) = Some card /\
               id card = now s /\ 1 <= number card <= 4.
Proof.
  unfold generateNewCard, nextRandom. fields.
  eexists. split; [reflexivity|]. split; [reflexivity|].
  cbn [number]. apply generated_number.
Qed.

(** *** The streak effect and the renders *)

Lemma useStreakEffect_same (s : State) : useStreakEffect (streak (stats s)) s = s.
Proof. unfold useStreakEffect. now rewrite Nat.eqb_refl. Qed.

Lemma commit_same (s : State) : commit (streak (stats s)) s = s.
Proof. unfold commit. now rewrite !useStreakEffect_same. Qed.

Lemma commit_unchanged (dep : nat) (s : State) :
  streak (stats s) = dep -> commit dep s = s.
Proof. intros <-. apply commit_same. Qed.

Lemma streakEffect_idle (s : State) :
  streakDue (streak (stats s)) = false -> streakEffect s = s.
Proof. unfold streakEffect. now intros ->. Qed.

(** After an event the effect runs [changeRule] once if the streak changed
    to a positive multiple of the threshold, and nothing otherwise. *)
Lemma commit_eq (dep : nat) (s : State) :
  commit dep s =
  if streakDue (streak (stats s)) && negb (streak (stats s) =? dep)
  then changeRule s else s.
Proof.
  unfold commit, useStreakEffect at 2.
  destruct (streak (stats s) =? dep) eqn:Edep.
  - rewrite andb_false_r. apply useStreakEffect_same.
  - rewrite andb_true_r. unfold streakEffect.
    destruct (streakDue (streak (stats s))) eqn:Edue.
    + unfold useStreakEffect. rewrite changeRule_stats_dom. cbn [streak].
      apply streakDue_true in Edue.
      destruct (0 =? streak (stats s)) eqn:E0.
      * apply Nat.eqb_eq in E0. lia.
      * unfold streakEffect. rewrite changeRule_stats_dom. cbn [streak].
        now rewrite streakDue_zero.
    + apply useStreakEffect_same.
Qed.

(** One more render after [commit] changes nothing: the renders of
    [commit] are all that an event causes. *)
Lemma commit_settled (dep : nat) (s : State) :
  useStreakEffect (streak (stats (useStreakEffect dep s))) (commit dep s) = commit dep s.
Proof.
  rewrite commit_eq.
  destruct (streakDue (streak (stats s)) && negb (streak (stats s) =? dep)) eqn:E.
  - apply andb_true_iff in E. destruct E as [Edue Edep].
    apply negb_true_iff in Edep.
    unfold useStreakEffect at 2. rewrite Edep. unfold streakEffect. rewrite Edue.
    apply useStreakEffect_same.
  - assert (H : useStreakEffect dep s = s).
    { unfold useStreakEffect. destruct (streak (stats s) =? dep) eqn:Edep; [reflexivity|].
      rewrite andb_true_r in E. now apply streakEffect_idle. }
    rewrite H. apply useStreakEffect_same.
Qed.

(** *** [handleCardClick] *)

Lemma handleCardClick_ignored (refCard : Card nat) (s : State) :
  targetCard s = None \/ feedback s <> None -> handleCardClick refCard s = s.
Proof.
  unfold handleCardClick. intros [H | H].
  - now rewrite H.
  - destruct (targetCard s); [|reflexivity].
    destruct (feedback s); [reflexivity | congruence].
Qed.

Lemma click_ignored (refCard : Card nat) (s : State) :
  targetCard s = None \/ feedback s <> None -> click refCard s = s.
Proof.
  intros H. unfold click. rewrite (handleCardClick_ignored refCard s H).
  apply commit_same.
Qed.

(** The state after an evaluated selection, field by field. *)
Lemma handleCardClick_evaluated (refCard target : Card nat) (s : State) :
  targetCard s = Some target -> feedback s = None ->
  let isMatch := checkMatch target refCard (currentRule s) in
  let s' := handleCardClick refCard s in
  currentRule s' = currentRule s /\
  previousRule s' = previousRule s /\
  targetCard s' = Some target /\
  feedback s' = Some (if isMatch then Correct else Incorrect) /\
  stats s' =
    mkStats (attempts (stats s) + 1)
            (correct (stats s) + (if isMatch then 1 else 0))
            (perseverativeErrors (stats s) +
             (if isPerseverative isMatch (previousRule s) target refCard then 1 else 0))
            (ruleChanges (stats s))
            (if isMatch then streak (stats s) + 1 else 0) /\
  timers s' = timers s ++ [(now s + FEEDBACK_DELAY, NextRound)] /\
  now s' = now s /\ rand s' = rand s /\ console s' = console s.
Proof.
  intros Ht Hf isMatch s'. subst s' isMatch. unfold handleCardClick.
  rewrite Ht, Hf. fields. rewrite Ht. repeat split.
Qed.

(** An evaluated selection followed by its renders. *)
Lemma click_evaluated (refCard target : Card nat) (s : State) :
  targetCard s = Some target -> feedback s = None ->
  let h := handleCardClick refCard s in
  click refCard s = if streakDue (streak (stats h)) then changeRule h else h.
Proof.
  intros Ht Hf h. unfold click. fold h. rewrite commit_eq.
  destruct (handleCardClick_evaluated refCard target s Ht Hf)
    as (_ & _ & _ & _ & Hst & _). fold h in Hst.
  destruct (streakDue (streak (stats h))) eqn:Edue; [|reflexivity].
  replace (streak (stats h) =? streak (stats s)) with false; [reflexivity|].
  symmetry. apply Nat.eqb_neq. rewrite Hst in *. cbn [streak] in *.
  destruct (checkMatch target refCard (currentRule s)); [lia|].
  now rewrite streakDue_zero in Edue.
Qed.

(** *** Timers *)

Lemma commit_timers (dep : nat) (s : State) : timers (commit dep s) = timers s.
Proof.
  rewrite commit_eq.
  destruct (streakDue (streak (stats s)) && negb (streak (stats s) =? dep));
    [apply changeRule_frame_dom | reflexivity].
Qed.

Lemma runCallback_timers_dom (k : Callback) (s : State) :
  timers (runCallback k s) = timers s.
Proof. destruct k. unfold runCallback, generateNewCard, nextRandom. reflexivity. Qed.

(** The fuel of [wait] is enough: when [runTimers] stops, every timer
    that is still pending is due after the deadline. *)
Lemma runTimers_done_dom (fuel deadline : nat) :
  forall s, length (timers s) <= fuel ->
            forall x, In x (timers (runTimers fuel deadline s)) -> deadline < fst x.
Proof.
  induction fuel as [|fuel IH]; intros s Hlen x Hx.
  - cbn [runTimers] in Hx. destruct (timers s); [destruct Hx | cbn in Hlen; lia].
  - cbn [runTimers] in Hx.
    pose proof (popEarliest_spec _ (timers s)) as Hpop.
    destruct (popEarliest (timers s)) as [[[due k] rest]|].
    + destruct Hpop as (Hl & Hin & Hmin).
      destruct (due <=? deadline) eqn:E.
      * eapply IH; [|exact Hx].
        rewrite commit_timers, runCallback_timers_dom. fields. lia.
      * apply Nat.leb_gt in E. specialize (Hmin x Hx). cbn [fst] in Hmin. lia.
    + rewrite Hpop in Hx. destruct Hx.
Qed.

Lemma wait_no_timer_due_dom (dt : nat) (s : State) :
  forall x, In x (timers (wait dt s)) -> now (wait dt s) < fst x.
Proof.
  intros x Hx. unfold wait in *. fields.
  now apply (runTimers_done_dom (length (timers s)) (now s + dt) s (le_n _)).
Qed.

Lemma wait_idle_dom (dt : nat) (s : State) :
  timers s = [] -> wait dt s = withNow (now s + dt) s.
Proof. intros H. unfold wait. rewrite H. reflexivity. Qed.

Lemma wait_early_dom (dt due : nat) (s : State) :
  timers s = [(due, NextRound)] -> now s + dt < due ->
  wait dt s = withNow (now s + dt) s.
Proof.
  intros H Hlt. unfold wait. rewrite H. cbn [length runTimers]. rewrite H.
  cbn [popEarliest]. apply Nat.leb_gt in Hlt. now rewrite Hlt.
Qed.

Lemma wait_due (dt due : nat) (s : State) :
  timers s = [(due, NextRound)] -> due <= now s + dt ->
  wait dt s =
  withNow (now s + dt)
    (generateNewCard (setFeedback None (withNow (Nat.max (now s) due) (withTimers [] s)))).
Proof.
  intros H Hle. unfold wait. rewrite H. cbn [length runTimers]. rewrite H.
  cbn [popEarliest]. apply Nat.leb_le in Hle. rewrite Hle.
  cbn [runCallback runTimers]. rewrite commit_unchanged; reflexivity.
Qed.

(** *** Rounds *)

(** The end of a feedback window, from the state [c] in which its timer
    is the only one pending. *)
Lemma window_end_dom (t tm : nat) (c : State) :
  let s' := withNow t (generateNewCard (setFeedback None (withNow tm (withTimers [] c)))) in
  currentRule s' = currentRule c /\ previousRule s' = previousRule c /\
  stats s' = stats c /\ console s' = console c /\ now s' = t /\
  exists target', awaiting s' target' /\ 1 <= number target' <= 4.
Proof.
  unfold generateNewCard, nextRandom, awaiting. fields. repeat split.
  eexists. repeat split; cbn [number]; apply generated_number.
Qed.

(** After the feedback window of an evaluated selection the session
    awaits the next selection; rules, statistics and console are as the
    selection and its renders left them. *)
Lemma round_evaluated_dom (refCard target : Card nat) (s : State) :
  awaiting s target ->
  let c := click refCard s in
  let s' := round refCard s in
  currentRule s' = currentRule c /\ previousRule s' = previousRule c /\
  stats s' = stats c /\ console s' = console c /\
  now s' = now s + FEEDBACK_DELAY /\
  exists target', awaiting s' target' /\ 1 <= number target' <= 4.
Proof.
  intros (Ht & Hf & Htm) c s'.
  destruct (handleCardClick_evaluated refCard target s Ht Hf)
    as (_ & _ & _ & _ & _ & Htimers & Hnow & _).
  cbn zeta in Htimers, Hnow.
  assert (Hc : timers c = [(now s + FEEDBACK_DELAY, NextRound)] /\ now c = now s).
  { subst c. rewrite (click_evaluated refCard target s Ht Hf). cbn zeta.
    generalize dependent (handleCardClick refCard s). intros h Htimers Hnow.
    destruct (streakDue _).
    - destruct (changeRule_frame_dom h) as (_ & _ & -> & ->).
      now rewrite Htimers, Htm, Hnow.
    - now rewrite Htimers, Htm, Hnow. }
  destruct Hc as [Hct Hcn].
  subst s'. unfold round. fold c. clear Htimers Hnow.
  generalize dependent c. intros c Hct Hcn.
  rewrite (wait_due FEEDBACK_DELAY (now s + FEEDBACK_DELAY) c Hct) by lia.
  rewrite Hcn.
  match goal with
  | |- context [withNow ?t (generateNewCard (setFeedback None (withNow ?tm (withTimers [] c))))] =>
      destruct (window_end_dom t tm c) as (E1 & E2 & E3 & E4 & E5 & Haw)
  end.
  cbn zeta in *. rewrite E1, E2, E3, E4, E5. repeat split. exact Haw.
Qed.

(** A round, written out: the selection and its renders, then the callback
    of the timer at its due time. *)
Lemma round_shape_dom (refCard target : Card nat) (s : State) :
  awaiting s target ->
  round refCard s =
  withNow (now s + FEEDBACK_DELAY)
    (generateNewCard
       (setFeedback None
          (withNow (Nat.max (now s) (now s + FEEDBACK_DELAY))
             (withTimers [] (click refCard s))))).
Proof.
  intros (Ht & Hf & Htm).
  destruct (handleCardClick_evaluated refCard target s Ht Hf)
    as (_ & _ & _ & _ & _ & Htimers & Hnow & _).
  cbn zeta in Htimers, Hnow.
  assert (Hc : timers (click refCard s) = [(now s + FEEDBACK_DELAY, NextRound)] /\
               now (click refCard s) = now s).
  { rewrite (click_evaluated refCard target s Ht Hf). cbn zeta.
    generalize dependent (handleCardClick refCard s). intros h Htimers Hnow.
    destruct (streakDue _).
    - destruct (changeRule_frame_dom h) as (_ & _ & -> & ->).
      now rewrite Htimers, Htm, Hnow.
    - now rewrite Htimers, Htm, Hnow. }
  destruct Hc as [Hct Hcn]. unfold round. clear Htimers Hnow.
  generalize dependent (click refCard s). intros c Hct Hcn.
  rewrite (wait_due FEEDBACK_DELAY (now s + FEEDBACK_DELAY) c Hct) by lia.
  now rewrite Hcn.
Qed.

(** A correct selection and its renders: the streak grows by one, or, when
    that makes it a positive multiple of the threshold, the rule is
    switched once. *)
Lemma click_correct (refCard target : Card nat) (s : State) :
  targetCard s = Some target -> feedback s = None ->
  checkMatch target refCard (currentRule s) = true ->
  let s' := click refCard s in
  if streakDue (streak (stats s) + 1) then
    currentRule s' <> currentRule s /\ In (currentRule s') rules /\
    previousRule s' = Some (currentRule s) /\
    stats s' = mkStats (attempts (stats s) + 1) (correct (stats s) + 1)
                       (perseverativeErrors (stats s))
                       (ruleChanges (stats s) + 1) 0 /\
    console s' = console s ++ [LogRuleChanged (currentRule s')]
  else
    currentRule s' = currentRule s /\ previousRule s' = previousRule s /\
    stats s' = mkStats (attempts (stats s) + 1) (correct (stats s) + 1)
                       (perseverativeErrors (stats s))
                       (ruleChanges (stats s)) (streak (stats s) + 1) /\
    console s' = console s.
Proof.
  intros Ht Hf Hm s'. subst s'.
  rewrite (click_evaluated refCard target s Ht Hf).
  destruct (handleCardClick_evaluated refCard target s Ht Hf)
    as (Hr & Hp & _ & _ & Hst & _ & _ & _ & Hco).
  rewrite Hm in Hst. cbn [isPerseverative negb andb] in Hst.
  rewrite Nat.add_0_r in Hst.
  set (h := handleCardClick refCard s) in *.
  rewrite Hst. cbn [streak].
  destruct (streakDue (streak (stats s) + 1)).
  - destruct (changeRule_currentRule h) as [Hneq Hin].
    rewrite changeRule_previousRule, changeRule_stats_dom, changeRule_console.
    rewrite Hr in *. rewrite Hst, Hco. cbn [attempts correct perseverativeErrors ruleChanges].
    auto.
  - auto.
Qed.

(** An incorrect selection and its renders. *)
Lemma click_incorrect (refCard target : Card nat) (s : State) :
  targetCard s = Some target -> feedback s = None ->
  checkMatch target refCard (currentRule s) = false ->
  let s' := click refCard s in
  currentRule s' = currentRule s /\ previousRule s' = previousRule s /\
  stats s' = mkStats (attempts (stats s) + 1) (correct (stats s))
                     (perseverativeErrors (stats s) +
                      (if isPerseverative false (previousRule s) target refCard
                       then 1 else 0))
                     (ruleChanges (stats s)) 0 /\
  console s' = console s /\
  timers s' = timers s ++ [(now s + FEEDBACK_DELAY, NextRound)].
Proof.
  intros Ht Hf Hm s'. subst s'.
  rewrite (click_evaluated refCard target s Ht Hf).
  destruct (handleCardClick_evaluated refCard target s Ht Hf)
    as (Hr & Hp & _ & _ & Hst & Htm & _ & _ & Hco).
  rewrite Hm in Hst. rewrite Nat.add_0_r in Hst.
  rewrite Hst. cbn [streak]. rewrite streakDue_zero. auto.
Qed.

(** *** The counters *)

Lemma handleCardClick_counters (refCard : Card nat) (s : State) :
  countersLe (stats s) (stats (handleCardClick refCard s)).
Proof.
  destruct (targetCard s) as [target|] eqn:Ht.
  - destruct (feedback s) as [f|] eqn:Hf.
    + rewrite handleCardClick_ignored; [apply countersLe_refl | right; congruence].
    + destruct (handleCardClick_evaluated refCard target s Ht Hf)
        as (_ & _ & _ & _ & Hst & _).
      rewrite Hst. unfold countersLe.
      cbn [attempts correct perseverativeErrors ruleChanges]. repeat split; lia.
  - rewrite handleCardClick_ignored; [apply countersLe_refl | now left].
Qed.

Lemma changeRule_counters_dom (s : State) : countersLe (stats s) (stats (changeRule s)).
Proof.
  rewrite changeRule_stats_dom. unfold countersLe.
  cbn [attempts correct perseverativeErrors ruleChanges]. repeat split; lia.
Qed.

Lemma generateNewCard_counters (s : State) :
  countersLe (stats s) (stats (generateNewCard s)).
Proof.
  destruct (generateNewCard_frame_dom s) as (_ & _ & _ & -> & _). apply countersLe_refl.
Qed.

Lemma streakEffect_counters (s : State) :
  countersLe (stats s) (stats (streakEffect s)).
Proof.
  unfold streakEffect. destruct (streakDue _);
    [apply changeRule_counters_dom | apply countersLe_refl].
Qed.

Lemma commit_counters (dep : nat) (s : State) :
  countersLe (stats s) (stats (commit dep s)).
Proof.
  rewrite commit_eq. destruct (_ && _);
    [apply changeRule_counters_dom | apply countersLe_refl].
Qed.

Lemma click_counters (refCard : Card nat) (s : State) :
  countersLe (stats s) (stats (click refCard s)).
Proof.
  unfold click. eapply countersLe_trans;
    [apply handleCardClick_counters | apply commit_counters].
Qed.

Lemma runCallback_counters_dom (k : Callback) (s : State) :
  countersLe (stats s) (stats (runCallback k s)).
Proof.
  destruct k. cbn [runCallback].
  destruct (generateNewCard_frame_dom (setFeedback None s)) as (_ & _ & _ & -> & _).
  apply countersLe_refl.
Qed.

Lemma runTimers_counters_dom (fuel deadline : nat) :
  forall s, countersLe (stats s) (stats (runTimers fuel deadline s)).
Proof.
  induction fuel as [|fuel IH]; intros s; cbn [runTimers]; [apply countersLe_refl|].
  destruct (popEarliest (timers s)) as [[[due k] rest]|]; [|apply countersLe_refl].
  destruct (due <=? deadline); [|apply countersLe_refl].
  eapply countersLe_trans; [|apply IH].
  eapply countersLe_trans; [|apply commit_counters].
  eapply countersLe_trans; [|apply runCallback_counters_dom].
  apply countersLe_refl.
Qed.

Lemma wait_counters_dom (dt : nat) (s : State) :
  countersLe (stats s) (stats (wait dt s)).
Proof. unfold wait. fields. apply runTimers_counters_dom. Qed.

Lemma step_counters_dom (e : Event) (s : State) :
  countersLe (stats s) (stats (step e s)).
Proof. destruct e; [apply click_counters | apply wait_counters_dom]. Qed.

Lemma run_counters_dom (es : list Event) :
  forall s, countersLe (stats s) (stats (run es s)).
Proof.
  induction es as [|e es IH]; intros s; [apply countersLe_refl|].
  cbn [run fold_left]. eapply countersLe_trans; [apply step_counters_dom | apply IH].
Qed.

Lemma round_counters_dom (refCard : Card nat) (s : State) :
  countersLe (stats s) (stats (round refCard s)).
Proof.
  unfold round. eapply countersLe_trans; [apply click_counters | apply wait_counters_dom].
Qed.

Lemma rounds_counters_dom (cs : list (Card nat)) :
  forall s, countersLe (stats s) (stats (rounds cs s)).
Proof.
  induction cs as [|c cs IH]; intros s; [apply countersLe_refl|].
  cbn [rounds]. eapply countersLe_trans; [apply round_counters_dom | apply IH].
Qed.

(** *** The invariant *)

Lemma mount_wf_dom (t0 : nat) (g : MathRandom) : wf (mount (initialState t0 g)).
Proof.
  unfold mount. rewrite commit_unchanged by reflexivity.
  unfold wf, initialState, generateNewCard, nextRandom. fields.
  repeat split; [discriminate | unfold CARDS_TO_CHANGE_RULE; lia].
Qed.

Lemma click_wf (refCard : Card nat) (s : State) : wf s -> wf (click refCard s).
Proof.
  intros (Ht & Hs & Hf).
  destruct (targetCard s) as [target|] eqn:Etarget; [|congruence].
  destruct (feedback s) as [f|] eqn:Efb.
  - rewrite click_ignored by (right; congruence).
    unfold wf. rewrite Etarget, Efb. repeat split; auto.
  - rewrite (click_evaluated refCard target s Etarget Efb).
    destruct (handleCardClick_evaluated refCard target s Etarget Efb)
      as (_ & _ & Ht' & Hf' & Hst & Htm & Hnow & _).
    set (h := handleCardClick refCard s) in *.
    assert (Hlock : exists t0, timers h = [(t0 + FEEDBACK_DELAY, NextRound)] /\
                               t0 <= now h < t0 + FEEDBACK_DELAY).
    { exists (now s). rewrite Htm, Hf, Hnow. unfold FEEDBACK_DELAY. split; [reflexivity | lia]. }
    destruct (streakDue (streak (stats h))) eqn:Edue.
    + destruct (changeRule_frame_dom h) as (Ht2 & Hf2 & Htm2 & Hn2).
      unfold wf. rewrite Ht2, Hf2, Htm2, Hn2, changeRule_stats_dom, Ht', Hf'.
      cbn [streak]. repeat split; [discriminate | unfold CARDS_TO_CHANGE_RULE; lia | exact Hlock].
    + unfold wf. rewrite Ht', Hf'. repeat split; [discriminate | | exact Hlock].
      rewrite Hst in *. cbn [streak] in *.
      destruct (checkMatch target refCard (currentRule s));
        [|unfold CARDS_TO_CHANGE_RULE; lia].
      assert (streak (stats s) + 1 <> CARDS_TO_CHANGE_RULE).
      { intros E. rewrite E in Edue. now rewrite streakDue_threshold in Edue. }
      lia.
Qed.

Lemma wait_wf_dom (dt : nat) (s : State) : wf s -> wf (wait dt s).
Proof.
  intros (Ht & Hs & Hf).
  destruct (feedback s) as [f|] eqn:Efb.
  - destruct Hf as (t0 & Htm & Hnow).
    destruct (le_lt_dec (t0 + FEEDBACK_DELAY) (now s + dt)) as [Hdue | Hearly].
    + rewrite (wait_due dt _ s Htm Hdue).
      unfold wf, generateNewCard, nextRandom. fields.
      repeat split; [discriminate | exact Hs].
    + rewrite (wait_early_dom dt _ s Htm Hearly).
      unfold wf. fields. rewrite Efb. repeat split; auto.
      exists t0. split; [exact Htm | lia].
  - rewrite (wait_idle_dom dt s Hf). unfold wf. fields. rewrite Efb. auto.
Qed.

(** Every state of a session satisfies the invariant. *)
Lemma reachable_wf_dom (s : State) : reachable s -> wf s.
Proof.
  induction 1 as [t0 g | e s _ IH]; [apply mount_wf_dom|].
  destruct e; [now apply click_wf | now apply wait_wf_dom].
Qed.

(** A reachable state that shows a card and no feedback awaits a
    selection. *)
Lemma reachable_awaiting_dom (s : State) :
  reachable s -> feedback s = None -> exists target, awaiting s target.
Proof.
  intros Hr Hf. destruct (reachable_wf_dom s Hr) as (Ht & _ & Htm).
  rewrite Hf in Htm. destruct (targetCard s) as [target|] eqn:E; [|congruence].
  exists target. unfold awaiting. auto.
Qed.

(** *** Runs of rounds *)

Lemma rounds_app_dom (l1 l2 : list (Card nat)) :
  forall s, rounds (l1 ++ l2) s = rounds l2 (rounds l1 s).
Proof. induction l1 as [|c l1 IH]; intros s; [reflexivity | apply IH]. Qed.

Lemma allCorrect_app_dom (l1 l2 : list (Card nat)) :
  forall s, allCorrect (l1 ++ l2) s = allCorrect l1 s && allCorrect l2 (rounds l1 s).
Proof.
  induction l1 as [|c l1 IH]; intros s; [reflexivity|].
  cbn [app allCorrect rounds]. now rewrite IH, andb_assoc.
Qed.

Lemma correctIn_awaiting_dom (refCard target : Card nat) (s : State) :
  awaiting s target ->
  correctIn refCard s = checkMatch target refCard (currentRule s).
Proof. intros (Ht & Hf & _). unfold correctIn. now rewrite Ht, Hf. Qed.

(** Correct selections that change no rule: the rules and the console
    stay, the streak counts the selections, and it passes no multiple of
    the threshold. *)
Lemma rounds_no_switch_dom (cs : list (Card nat)) :
  forall s target,
    awaiting s target -> allCorrect cs s = true ->
    ruleChanges (stats (rounds cs s)) = ruleChanges (stats s) ->
    currentRule (rounds cs s) = currentRule s /\
    previousRule (rounds cs s) = previousRule s /\
    streak (stats (rounds cs s)) = streak (stats s) + length cs /\
    console (rounds cs s) = console s /\
    (exists target', awaiting (rounds cs s) target') /\
    (forall k, 1 <= k <= length cs -> streakDue (streak (stats s) + k) = false).
Proof.
  induction cs as [|c cs IH]; intros s target Haw Hall Hrc.
  - cbn [rounds length]. rewrite Nat.add_0_r. repeat split; eauto. intros k Hk. lia.
  - cbn [rounds allCorrect length] in *. apply andb_true_iff in Hall.
    destruct Hall as [Hc Hall]. rewrite (correctIn_awaiting_dom c target s Haw) in Hc.
    destruct (round_evaluated_dom c target s Haw)
      as (Hr & Hp & Hst & Hco & _ & target' & Haw' & _).
    pose proof (rounds_counters_dom cs (round c s)) as (_ & _ & _ & Hmono).
    destruct Haw as (Ht & Hf & Htm).
    pose proof (click_correct c target s Ht Hf Hc) as Hclick. cbn zeta in Hclick.
    destruct (streakDue (streak (stats s) + 1)) eqn:Edue.
    + destruct Hclick as (_ & _ & _ & Hcs & _).
      rewrite Hst, Hcs in Hmono. cbn [ruleChanges] in Hmono. lia.
    + destruct Hclick as (Hcr & Hcp & Hcs & Hcc).
      destruct (IH (round c s) target' Haw' Hall) as (H1 & H2 & H3 & H4 & H5 & H6).
      { rewrite Hrc, Hst, Hcs. reflexivity. }
      rewrite H1, H2, H3, H4, Hr, Hp, Hst, Hco, Hcr, Hcp, Hcs, Hcc. cbn [streak].
      repeat split; auto; try lia.
      intros k Hk. destruct (Nat.eq_dec k 1) as [->|Hk1]; [exact Edue|].
      specialize (H6 (k - 1) ltac:(lia)). rewrite Hst, Hcs in H6. cbn [streak] in H6.
      replace (streak (stats s) + k) with (streak (stats s) + 1 + (k - 1)) by lia.
      exact H6.
Qed.

(** *** The feedback window *)


End Game2DFacts.

(* ------------------------------------------------------------------ *)
(** ** The three.js component *)

Module Game3DFacts.
Import Game3D Game3DProps.

Ltac fields :=
  cbn [gameStateRef stats feedback targetCard referenceCards sceneReady
       clickableObjects timers now rand uuid console
       currentRule previousRule isAnimating
       attempts correct perseverativeErrors ruleChanges streak
       withRef setStats setFeedback setTargetCard withSceneReady withClickable
       withTimers withNow withRand withUuid consoleLog setTimeout] in *.

(** *** [changeRule] *)

Lemma changeRule_ref (s : State) :
  exists newRule,
    newRule <> currentRule (gameStateRef s) /\ In newRule rules /\
    gameStateRef (changeRule s) =
      mkRef newRule (Some (currentRule (gameStateRef s))) (isAnimating (gameStateRef s)) /\
    console (changeRule s) = console s ++ [LogRuleChanged newRule].
Proof.
  unfold changeRule. destruct (nextRandom (rand s)) as [u g]. fields.
  eexists. split; [|split; [|split; reflexivity]]; apply newRule_other.
Qed.

Lemma changeRule_stats_gl (s : State) :
  stats (changeRule s) =
  mkStats (attempts (stats s)) (correct (stats s)) (perseverativeErrors (stats s))
          (ruleChanges (stats s) + 1) 0.
Proof.
  unfold changeRule. destruct (nextRandom (rand s)) as [u g]. reflexivity.
Qed.

Lemma changeRule_frame_gl (s : State) :
  feedback (changeRule s) = feedback s /\
  targetCard (changeRule s) = targetCard s /\
  referenceCards (changeRule s) = referenceCards s /\
  sceneReady (changeRule s) = sceneReady s /\
  clickableObjects (changeRule s) = clickableObjects s /\
  timers (changeRule s) = timers s /\
  now (changeRule s) = now s.
Proof.
  unfold changeRule. destruct (nextRandom (rand s)) as [u g]. fields.
  repeat split.
Qed.

(** *** [generateNewCard] *)

Lemma generateNewCard_frame_gl (s : State) :
  let s' := snd (generateNewCard s) in
  gameStateRef s' = gameStateRef s /\ stats s' = stats s /\
  feedback s' = feedback s /\ targetCard s' = targetCard s /\
  referenceCards s' = referenceCards s /\ sceneReady s' = sceneReady s /\
  clickableObjects s' = clickableObjects s /\ timers s' = timers s /\
  now s' = now s /\ console s' = console s.
Proof. unfold generateNewCard, nextRandom, nextUuid. cbn. repeat split. Qed.

(** The generated card passes the schema, so [CardSchema.parse] returns
    it. *)
Lemma generateNewCard_schema (s : State) :
  cardSchemaOk (fst (generateNewCard s)) = true /\
  1 <= number (fst (generateNewCard s)) <= 4.
Proof.
  unfold generateNewCard, nextRandom, nextUuid, cardSchemaOk.
  cbn [fst number samples calls].
  match goal with
  | |- context [floorTimes ?u 4] => pose proof (generated_number u) as H
  end.
  split; [|exact H].
  apply andb_true_iff. split; apply Nat.leb_le; lia.
Qed.

Lemma generateNewCard_pair (s : State) :
  generateNewCard s = (fst (generateNewCard s), snd (generateNewCard s)).
Proof. apply surjective_pairing. Qed.

(** *** [handleCardSelection] *)

Lemma handleCardSelection_ignored (refCard : Card string) (s : State) :
  targetCard s = None \/ isAnimating (gameStateRef s) = true ->
  handleCardSelection refCard s = s.
Proof.
  unfold handleCardSelection. intros [H | H].
  - now rewrite H.
  - rewrite H. now destruct (targetCard s).
Qed.

(** The state after an evaluated selection, field by field. *)
Lemma handleCardSelection_evaluated (refCard target : Card string) (s : State) :
  targetCard s = Some target -> isAnimating (gameStateRef s) = false ->
  let isMatch := checkMatch target refCard (currentRule (gameStateRef s)) in
  let newStreak := if isMatch then streak (stats s) + 1 else 0 in
  let s' := handleCardSelection refCard s in
  gameStateRef s' =
    mkRef (currentRule (gameStateRef s)) (previousRule (gameStateRef s)) true /\
  targetCard s' = Some target /\
  feedback s' = Some (if isMatch then Correct else Incorrect) /\
  stats s' =
    mkStats (attempts (stats s) + 1)
            (correct (stats s) + (if isMatch then 1 else 0))
            (perseverativeErrors (stats s) +
             (if isPerseverative isMatch (previousRule (gameStateRef s)) target refCard
              then 1 else 0))
            (ruleChanges (stats s))
            newStreak /\
  timers s' =
    timers s ++
    (if streakDue newStreak then [(now s + CHANGE_RULE_DELAY, ChangeRule)] else []) ++
    [(now s + FEEDBACK_DELAY, NextRound)] /\
  now s' = now s /\ rand s' = rand s /\ uuid s' = uuid s /\
  console s' = console s ++ [LogProcessing] /\
  referenceCards s' = referenceCards s /\
  clickableObjects s' = clickableObjects s /\
  sceneReady s' = sceneReady s.
Proof.
  intros Ht Ha isMatch newStreak s'. subst s' newStreak isMatch.
  unfold handleCardSelection. rewrite Ht, Ha. fields.
  destruct (streakDue _); fields; rewrite ?app_nil_l, <- ?app_assoc;
    repeat split; exact Ht.
Qed.

(** *** Timers *)

Lemma runCallback_timers_gl (k : Callback) (s : State) :
  timers (runCallback k s) = timers s.
Proof.
  destruct k; cbn [runCallback].
  - apply changeRule_frame_gl.
  - unfold generateNewCard, nextRandom, nextUuid, sceneEffect. fields.
    destruct (sceneReady s); reflexivity.
Qed.

Lemma runTimers_empty (fuel deadline : nat) (s : State) :
  timers s = [] -> runTimers fuel deadline s = s.
Proof. intros H. destruct fuel; cbn [runTimers]; [|rewrite H]; reflexivity. Qed.

Lemma runTimers_fire (fuel deadline due : nat) (k : Callback)
      (rest : list (nat * Callback)) (s : State) :
  popEarliest (timers s) = Some ((due, k), rest) -> due <= deadline ->
  runTimers (S fuel) deadline s =
  runTimers fuel deadline
    (runCallback k (withNow (Nat.max (now s) due) (withTimers rest s))).
Proof.
  intros H Hle. cbn [runTimers]. rewrite H. apply Nat.leb_le in Hle. now rewrite Hle.
Qed.

Lemma runTimers_stop (fuel deadline due : nat) (k : Callback)
      (rest : list (nat * Callback)) (s : State) :
  popEarliest (timers s) = Some ((due, k), rest) -> deadline < due ->
  runTimers fuel deadline s = s.
Proof.
  intros H Hlt. destruct fuel; cbn [runTimers]; [reflexivity|].
  rewrite H. apply Nat.leb_gt in Hlt. now rewrite Hlt.
Qed.

(** The fuel of [wait] is enough: when [runTimers] stops, every timer
    that is still pending is due after the deadline. *)
Lemma runTimers_done_gl (fuel deadline : nat) :
  forall s, length (timers s) <= fuel ->
            forall x, In x (timers (runTimers fuel deadline s)) -> deadline < fst x.
Proof.
  induction fuel as [|fuel IH]; intros s Hlen x Hx.
  - cbn [runTimers] in Hx. destruct (timers s); [destruct Hx | cbn in Hlen; lia].
  - cbn [runTimers] in Hx.
    pose proof (popEarliest_spec _ (timers s)) as Hpop.
    destruct (popEarliest (timers s)) as [[[due k] rest]|].
    + destruct Hpop as (Hl & Hin & Hmin).
      destruct (due <=? deadline) eqn:E.
      * eapply IH; [|exact Hx]. rewrite runCallback_timers_gl. fields. lia.
      * apply Nat.leb_gt in E. specialize (Hmin x Hx). cbn [fst] in Hmin. lia.
    + rewrite Hpop in Hx. destruct Hx.
Qed.

Lemma wait_no_timer_due_gl (dt : nat) (s : State) :
  forall x, In x (timers (wait dt s)) -> now (wait dt s) < fst x.
Proof.
  intros x Hx. unfold wait in *. fields.
  now apply (runTimers_done_gl (length (timers s)) (now s + dt) s (le_n _)).
Qed.

Lemma popEarliest_pair (t0 : nat) :
  popEarliest [(t0 + CHANGE_RULE_DELAY, ChangeRule); (t0 + FEEDBACK_DELAY, NextRound)] =
  Some ((t0 + CHANGE_RULE_DELAY, ChangeRule), [(t0 + FEEDBACK_DELAY, NextRound)]).
Proof.
  cbn [popEarliest fst].
  replace (t0 + CHANGE_RULE_DELAY <=? t0 + FEEDBACK_DELAY) with true; [reflexivity|].
  symmetry. apply Nat.leb_le. unfold CHANGE_RULE_DELAY, FEEDBACK_DELAY. lia.
Qed.

Lemma wait_idle_gl (dt : nat) (s : State) :
  timers s = [] -> wait dt s = withNow (now s + dt) s.
Proof. intros H. unfold wait. rewrite H. reflexivity. Qed.

(** Before the first pending timer is due only the clock moves. *)
Lemma wait_early_gl (dt due : nat) (k : Callback) (rest : list (nat * Callback))
      (s : State) :
  popEarliest (timers s) = Some ((due, k), rest) -> now s + dt < due ->
  wait dt s = withNow (now s + dt) s.
Proof.
  intros H Hlt. unfold wait. now rewrite (runTimers_stop _ _ due k rest s H Hlt).
Qed.

(** The end of a window in which no rule change is pending. *)
Lemma wait_nextRound (dt due : nat) (s : State) :
  timers s = [(due, NextRound)] -> due <= now s + dt ->
  wait dt s =
  withNow (now s + dt)
    (runCallback NextRound (withNow (Nat.max (now s) due) (withTimers [] s))).
Proof.
  intros H Hle. unfold wait. rewrite H. cbn [length].
  rewrite (runTimers_fire 0 _ due NextRound [] s) by (rewrite ?H; auto).
  reflexivity.
Qed.

(** The rule change runs when its timer is due. *)
Lemma wait_changeRule (dt t0 : nat) (s : State) :
  timers s = [(t0 + CHANGE_RULE_DELAY, ChangeRule); (t0 + FEEDBACK_DELAY, NextRound)] ->
  t0 + CHANGE_RULE_DELAY <= now s + dt < t0 + FEEDBACK_DELAY ->
  wait dt s =
  withNow (now s + dt)
    (changeRule (withNow (Nat.max (now s) (t0 + CHANGE_RULE_DELAY))
                   (withTimers [(t0 + FEEDBACK_DELAY, NextRound)] s))).
Proof.
  intros H [Hle Hlt]. unfold wait. rewrite H. cbn [length].
  rewrite (runTimers_fire 1 (now s + dt) (t0 + CHANGE_RULE_DELAY) ChangeRule [(t0 + FEEDBACK_DELAY, NextRound)] s)
    by (rewrite ?H; auto using popEarliest_pair).
  cbn [runCallback]. set (s1 := changeRule _).
  rewrite (runTimers_stop 1 _ (t0 + FEEDBACK_DELAY) NextRound [] s1); [reflexivity| |].
  - subst s1. destruct (changeRule_frame_gl
      (withNow (Nat.max (now s) (t0 + CHANGE_RULE_DELAY))
         (withTimers [(t0 + FEEDBACK_DELAY, NextRound)] s))) as (_&_&_&_&_& -> &_).
    reflexivity.
  - exact Hlt.
Qed.

(** The end of a window in which the rule change is still pending: the
    rule changes first, then the next round starts. *)
Lemma wait_both (dt t0 : nat) (s : State) :
  timers s = [(t0 + CHANGE_RULE_DELAY, ChangeRule); (t0 + FEEDBACK_DELAY, NextRound)] ->
  t0 + FEEDBACK_DELAY <= now s + dt ->
  wait dt s =
  let s1 := changeRule (withNow (Nat.max (now s) (t0 + CHANGE_RULE_DELAY))
                          (withTimers [(t0 + FEEDBACK_DELAY, NextRound)] s)) in
  withNow (now s + dt)
    (runCallback NextRound
       (withNow (Nat.max (now s1) (t0 + FEEDBACK_DELAY)) (withTimers [] s1))).
Proof.
  intros H Hle. unfold wait. rewrite H. cbn [length].
  rewrite (runTimers_fire 1 (now s + dt) (t0 + CHANGE_RULE_DELAY) ChangeRule [(t0 + FEEDBACK_DELAY, NextRound)] s);
    [|rewrite H; apply popEarliest_pair
     |unfold CHANGE_RULE_DELAY, FEEDBACK_DELAY in *; lia].
  cbn [runCallback]. set (s1 := changeRule _). cbn zeta.
  rewrite (runTimers_fire 0 (now s + dt) (t0 + FEEDBACK_DELAY) NextRound [] s1); [reflexivity| |exact Hle].
  subst s1. destruct (changeRule_frame_gl
      (withNow (Nat.max (now s) (t0 + CHANGE_RULE_DELAY))
         (withTimers [(t0 + FEEDBACK_DELAY, NextRound)] s))) as (_&_&_&_&_& -> &_).
  reflexivity.
Qed.

(** *** The next round *)

Lemma sceneEffect_clickable (s : State) :
  clickableAreReferences s -> clickableAreReferences (sceneEffect s).
Proof.
  intros H. unfold sceneEffect.
  destruct (sceneReady s); [|exact H]. destruct (targetCard s); [|exact H].
  intros m Hm. fields. apply in_map_iff in Hm. destruct Hm as (card & <- & Hin).
  exists card. split; [exact Hin | reflexivity].
Qed.

Lemma sceneEffect_frame (s : State) :
  gameStateRef (sceneEffect s) = gameStateRef s /\ stats (sceneEffect s) = stats s /\
  feedback (sceneEffect s) = feedback s /\ targetCard (sceneEffect s) = targetCard s /\
  referenceCards (sceneEffect s) = referenceCards s /\
  timers (sceneEffect s) = timers s /\ now (sceneEffect s) = now s /\
  console (sceneEffect s) = console s.
Proof.
  unfold sceneEffect. destruct (sceneReady s); [|repeat split].
  destruct (targetCard s) eqn:E; fields; rewrite ?E; repeat split.
Qed.

(** The callback that ends the feedback window, field by field. *)
Lemma nextRound_fields (s : State) :
  let s' := runCallback NextRound s in
  gameStateRef s' =
    mkRef (currentRule (gameStateRef s)) (previousRule (gameStateRef s)) false /\
  stats s' = stats s /\ feedback s' = None /\
  (exists card, targetCard s' = Some card /\ 1 <= number card <= 4) /\
  referenceCards s' = referenceCards s /\ timers s' = timers s /\
  now s' = now s /\ console s' = console s /\
  (clickableAreReferences s -> clickableAreReferences s').
Proof.
  cbn [runCallback].
  rewrite (generateNewCard_pair (setFeedback None s)).
  destruct (generateNewCard_frame_gl (setFeedback None s))
    as (Hr & Hst & Hf & _ & Hrc & _ & Hcl & Htm & Hn & Hco).
  destruct (generateNewCard_schema (setFeedback None s)) as [_ Hnum].
  set (card := fst (generateNewCard (setFeedback None s))) in *.
  set (g := snd (generateNewCard (setFeedback None s))) in *.
  cbn zeta.
  set (s3 := withRef _ _).
  destruct (sceneEffect_frame s3) as (E1 & E2 & E3 & E4 & E5 & E6 & E7 & E8).
  rewrite E1, E2, E3, E4, E5, E6, E7, E8. subst s3. fields.
  rewrite Hr, Hst, Hf, Hrc, Htm, Hn, Hco. fields.
  repeat split; eauto.
  intros Hc. apply sceneEffect_clickable. intros m Hm. fields.
  rewrite Hcl in Hm. fields. rewrite Hrc. fields. now apply Hc.
Qed.

Lemma changeRule_moved (t : nat) (l : list (nat * Callback)) (s : State) :
  gameStateRef (changeRule (withNow t (withTimers l s))) = gameStateRef (changeRule s) /\
  stats (changeRule (withNow t (withTimers l s))) = stats (changeRule s) /\
  console (changeRule (withNow t (withTimers l s))) = console (changeRule s).
Proof. unfold changeRule, nextRandom. fields. repeat split. Qed.

(** *** Rounds *)

(** Moving the clock and replacing the timer queue leaves the rest. *)
Lemma moved_frame (t : nat) (l : list (nat * Callback)) (s : State) :
  let s' := withNow t (withTimers l s) in
  gameStateRef s' = gameStateRef s /\ stats s' = stats s /\
  feedback s' = feedback s /\ targetCard s' = targetCard s /\
  referenceCards s' = referenceCards s /\ sceneReady s' = sceneReady s /\
  clickableObjects s' = clickableObjects s /\ timers s' = l /\
  now s' = t /\ console s' = console s.
Proof. cbn. repeat split. Qed.

Lemma withNow_frame (t : nat) (s : State) :
  let s' := withNow t s in
  gameStateRef s' = gameStateRef s /\ stats s' = stats s /\
  feedback s' = feedback s /\ targetCard s' = targetCard s /\
  referenceCards s' = referenceCards s /\ sceneReady s' = sceneReady s /\
  clickableObjects s' = clickableObjects s /\ timers s' = timers s /\
  now s' = t /\ console s' = console s.
Proof. cbn. repeat split. Qed.

(** The end of a feedback window, from the state [m] in which its last
    timer is the only one left. *)
Lemma window_end_gl (t tm : nat) (m : State) :
  let s' := withNow t (runCallback NextRound (withNow tm (withTimers [] m))) in
  gameStateRef s' =
    mkRef (currentRule (gameStateRef m)) (previousRule (gameStateRef m)) false /\
  stats s' = stats m /\ console s' = console m /\ now s' = t /\
  referenceCards s' = referenceCards m /\ feedback s' = None /\
  (clickableAreReferences m -> clickableAreReferences s') /\
  exists target', awaiting s' target' /\ 1 <= number target' <= 4.
Proof.
  intros s'. subst s'.
  destruct (moved_frame tm [] m) as (P1 & P2 & _ & _ & P5 & _ & P7 & P8 & _ & P10).
  cbn zeta in *.
  generalize dependent (withNow tm (withTimers [] m)). intros p P1 P2 P5 P7 P8 P10.
  destruct (nextRound_fields p)
    as (E1 & E2 & E3 & (card & E4 & Hnum) & E5 & E6 & E7 & E8 & E9).
  cbn zeta in *.
  generalize dependent (runCallback NextRound p). intros r E1 E2 E3 E4 E5 E6 E7 E8 E9.
  destruct (withNow_frame t r) as (W1 & W2 & W3 & W4 & W5 & _ & W7 & W8 & W9 & W10).
  cbn zeta in *.
  generalize dependent (withNow t r). intros q W1 W2 W3 W4 W5 W7 W8 W9 W10.
  rewrite W1, W2, W10, W9, W5, W3, E1, E2, E8, E5, E3, P1, P2, P10, P5.
  repeat split.
  - intros Hm. assert (Hp : clickableAreReferences p).
    { intros x Hx. rewrite P7 in Hx. rewrite P5. now apply Hm. }
    specialize (E9 Hp). intros x Hx. rewrite W7 in Hx. rewrite W5. now apply E9.
  - exists card. unfold awaiting. rewrite W4, W1, W8, E4, E1, E6, P8.
    repeat split; apply Hnum.
Qed.

(** After the feedback window of an evaluated selection the session
    awaits the next selection; the rule has been changed in between if
    the selection made the streak a positive multiple of the threshold. *)
Lemma round_evaluated_gl (refCard target : Card string) (s : State) :
  awaiting s target ->
  let h := handleCardSelection refCard s in
  let m := if streakDue (streak (stats h)) then changeRule h else h in
  let s' := round refCard s in
  currentRule (gameStateRef s') = currentRule (gameStateRef m) /\
  previousRule (gameStateRef s') = previousRule (gameStateRef m) /\
  stats s' = stats m /\ console s' = console m /\
  now s' = now s + FEEDBACK_DELAY /\
  referenceCards s' = referenceCards s /\
  exists target', awaiting s' target' /\ 1 <= number target' <= 4.
Proof.
  intros (Ht & Ha & Htm) h m s'.
  destruct (handleCardSelection_evaluated refCard target s Ht Ha)
    as (_ & _ & _ & Hst & Htimers & Hnow & _ & _ & _ & Hrc & _).
  cbn zeta in Hst, Htimers.
  rewrite Htm in Htimers. rewrite app_nil_l in Htimers.
  assert (Hns : (if checkMatch target refCard (currentRule (gameStateRef s))
                 then streak (stats s) + 1 else 0) = streak (stats h))
    by (subst h; now rewrite Hst).
  rewrite Hns in Htimers. clear Hns Hst.
  subst s' m. unfold round. fold h in Htimers, Hnow, Hrc |- *.
  generalize dependent h. intros h Htimers Hnow Hrc.
  destruct (streakDue (streak (stats h))) eqn:Edue.
  - rewrite app_singleton_pair in Htimers.
    rewrite (wait_both FEEDBACK_DELAY (now s) h Htimers) by lia. cbn zeta.
    destruct (changeRule_moved (Nat.max (now h) (now s + CHANGE_RULE_DELAY))
                [(now s + FEEDBACK_DELAY, NextRound)] h) as (M1 & M2 & M3).
    destruct (changeRule_frame_gl
                (withNow (Nat.max (now h) (now s + CHANGE_RULE_DELAY))
                   (withTimers [(now s + FEEDBACK_DELAY, NextRound)] h)))
      as (_ & _ & F3 & _).
    destruct (moved_frame (Nat.max (now h) (now s + CHANGE_RULE_DELAY))
                [(now s + FEEDBACK_DELAY, NextRound)] h) as (_ & _ & _ & _ & Q5 & _).
    cbn zeta in Q5.
    generalize dependent (changeRule
      (withNow (Nat.max (now h) (now s + CHANGE_RULE_DELAY))
         (withTimers [(now s + FEEDBACK_DELAY, NextRound)] h))).
    intros c M1 M2 M3 F3.
    rewrite Hnow.
    match goal with
    | |- context [withNow ?t (runCallback NextRound (withNow ?tm (withTimers [] c)))] =>
        destruct (window_end_gl t tm c) as (E1 & E2 & E3 & E4 & E5 & _ & _ & Haw)
    end.
    cbn zeta in *. rewrite E1, E2, E3, E4, E5, F3, Q5, Hrc, <- M1, <- M2, <- M3.
    repeat split. exact Haw.
  - rewrite app_nil_l in Htimers.
    rewrite (wait_nextRound FEEDBACK_DELAY _ h Htimers) by lia.
    rewrite Hnow.
    match goal with
    | |- context [withNow ?t (runCallback NextRound (withNow ?tm (withTimers [] h)))] =>
        destruct (window_end_gl t tm h) as (E1 & E2 & E3 & E4 & E5 & _ & _ & Haw)
    end.
    cbn zeta in *. rewrite E1, E2, E3, E4, E5, Hrc.
    repeat split. exact Haw.
Qed.

(** A round, written out: the selection, the rule change if one is due,
    then the callback of the timer that ends the window. *)
Lemma round_shape_gl (refCard target : Card string) (s : State) :
  awaiting s target ->
  let h := handleCardSelection refCard s in
  exists t tm m,
    round refCard s =
    withNow t (runCallback NextRound (withNow tm (withTimers [] m))) /\
    if streakDue (streak (stats h))
    then exists tq l, m = changeRule (withNow tq (withTimers l h))
    else m = h.
Proof.
  intros (Ht & Ha & Htm) h.
  destruct (handleCardSelection_evaluated refCard target s Ht Ha)
    as (_ & _ & _ & Hst & Htimers & Hnow & _).
  cbn zeta in Hst, Htimers, Hnow.
  rewrite Htm in Htimers. rewrite app_nil_l in Htimers.
  assert (Hns : (if checkMatch target refCard (currentRule (gameStateRef s))
                 then streak (stats s) + 1 else 0) = streak (stats h))
    by (subst h; now rewrite Hst).
  rewrite Hns in Htimers. clear Hns Hst.
  unfold round. fold h in Htimers, Hnow |- *.
  generalize dependent h. intros h Htimers Hnow.
  destruct (streakDue (streak (stats h))) eqn:Edue.
  - rewrite app_singleton_pair in Htimers.
    rewrite (wait_both FEEDBACK_DELAY (now s) h Htimers) by lia. cbn zeta.
    do 3 eexists. split; [reflexivity|]. do 2 eexists. reflexivity.
  - rewrite app_nil_l in Htimers.
    rewrite (wait_nextRound FEEDBACK_DELAY _ h Htimers) by lia.
    do 3 eexists. split; reflexivity.
Qed.

(** A round with a correct selection: the streak grows by one, or, when
    that makes it a positive multiple of the threshold, the rule is
    switched once. *)
Lemma round_correct (refCard target : Card string) (s : State) :
  awaiting s target ->
  checkMatch target refCard (currentRule (gameStateRef s)) = true ->
  let s' := round refCard s in
  (exists target', awaiting s' target') /\
  if streakDue (streak (stats s) + 1) then
    currentRule (gameStateRef s') <> currentRule (gameStateRef s) /\
    In (currentRule (gameStateRef s')) rules /\
    previousRule (gameStateRef s') = Some (currentRule (gameStateRef s)) /\
    stats s' = mkStats (attempts (stats s) + 1) (correct (stats s) + 1)
                       (perseverativeErrors (stats s))
                       (ruleChanges (stats s) + 1) 0 /\
    console s' = console s ++
                 [LogProcessing; LogRuleChanged (currentRule (gameStateRef s'))]
  else
    currentRule (gameStateRef s') = currentRule (gameStateRef s) /\
    previousRule (gameStateRef s') = previousRule (gameStateRef s) /\
    stats s' = mkStats (attempts (stats s) + 1) (correct (stats s) + 1)
                       (perseverativeErrors (stats s))
                       (ruleChanges (stats s)) (streak (stats s) + 1) /\
    console s' = console s ++ [LogProcessing].
Proof.
  intros Haw Hm s'.
  destruct (round_evaluated_gl refCard target s Haw)
    as (Hr & Hp & Hst & Hco & _ & _ & target' & Haw' & _).
  fold s' in Hr, Hp, Hst, Hco, Haw'.
  destruct Haw as (Ht & Ha & Htm).
  destruct (handleCardSelection_evaluated refCard target s Ht Ha)
    as (Hhr & _ & _ & Hhs & _ & _ & _ & _ & Hhc & _).
  rewrite Hm in Hhs. cbn [isPerseverative negb andb] in Hhs.
  rewrite Nat.add_0_r in Hhs.
  set (h := handleCardSelection refCard s) in *.
  rewrite Hhs in Hr, Hp, Hst, Hco. cbn [streak] in Hr, Hp, Hst, Hco.
  split; [eauto|].
  destruct (streakDue (streak (stats s) + 1)).
  - destruct (changeRule_ref h) as (newRule & Hneq & Hin & Href & Hcon).
    rewrite Href in Hr, Hp. rewrite Hhr in Href, Hneq. fields.
    rewrite changeRule_stats_gl, Hhs in Hst. fields.
    rewrite Hcon, Hhc, <- app_assoc in Hco. cbn [app] in Hco.
    rewrite Hr, Hp, Hst, Hco, Hhr. fields. auto.
  - rewrite Hr, Hp, Hst, Hco, Hhr, Hhs, Hhc. fields. auto.
Qed.

(** A round with an incorrect selection. *)
Lemma round_incorrect (refCard target : Card string) (s : State) :
  awaiting s target ->
  checkMatch target refCard (currentRule (gameStateRef s)) = false ->
  let s' := round refCard s in
  (exists target', awaiting s' target') /\
  currentRule (gameStateRef s') = currentRule (gameStateRef s) /\
  previousRule (gameStateRef s') = previousRule (gameStateRef s) /\
  stats s' = mkStats (attempts (stats s) + 1) (correct (stats s))
                     (perseverativeErrors (stats s) +
                      (if isPerseverative false (previousRule (gameStateRef s))
                                          target refCard
                       then 1 else 0))
                     (ruleChanges (stats s)) 0 /\
  console s' = console s ++ [LogProcessing].
Proof.
  intros Haw Hm s'.
  destruct (round_evaluated_gl refCard target s Haw)
    as (Hr & Hp & Hst & Hco & _ & _ & target' & Haw' & _).
  fold s' in Hr, Hp, Hst, Hco, Haw'.
  destruct Haw as (Ht & Ha & Htm).
  destruct (handleCardSelection_evaluated refCard target s Ht Ha)
    as (Hhr & _ & _ & Hhs & _ & _ & _ & _ & Hhc & _).
  rewrite Hm in Hhs. rewrite Nat.add_0_r in Hhs.
  set (h := handleCardSelection refCard s) in *.
  rewrite Hhs in Hr, Hp, Hst, Hco. cbn [streak] in Hr, Hp, Hst, Hco.
  rewrite streakDue_zero in Hr, Hp, Hst, Hco.
  split; [eauto|].
  rewrite Hr, Hp, Hst, Hco, Hhr, Hhs, Hhc. fields. auto.
Qed.

(** *** The counters *)

Lemma handleCardSelection_counters (refCard : Card string) (s : State) :
  countersLe (stats s) (stats (handleCardSelection refCard s)).
Proof.
  destruct (targetCard s) as [target|] eqn:Ht.
  - destruct (isAnimating (gameStateRef s)) eqn:Ha.
    + rewrite handleCardSelection_ignored; [apply countersLe_refl | now right].
    + destruct (handleCardSelection_evaluated refCard target s Ht Ha)
        as (_ & _ & _ & Hst & _).
      rewrite Hst. unfold countersLe.
      cbn [attempts correct perseverativeErrors ruleChanges]. repeat split; lia.
  - rewrite handleCardSelection_ignored; [apply countersLe_refl | now left].
Qed.

Lemma changeRule_counters_gl (s : State) : countersLe (stats s) (stats (changeRule s)).
Proof.
  rewrite changeRule_stats_gl. unfold countersLe.
  cbn [attempts correct perseverativeErrors ruleChanges]. repeat split; lia.
Qed.

Lemma runCallback_counters_gl (k : Callback) (s : State) :
  countersLe (stats s) (stats (runCallback k s)).
Proof.
  destruct k.
  - apply changeRule_counters_gl.
  - destruct (nextRound_fields s) as (_ & -> & _). apply countersLe_refl.
Qed.

Lemma runTimers_counters_gl (fuel deadline : nat) :
  forall s, countersLe (stats s) (stats (runTimers fuel deadline s)).
Proof.
  induction fuel as [|fuel IH]; intros s; cbn [runTimers]; [apply countersLe_refl|].
  destruct (popEarliest (timers s)) as [[[due k] rest]|]; [|apply countersLe_refl].
  destruct (due <=? deadline); [|apply countersLe_refl].
  eapply countersLe_trans; [|apply IH].
  eapply countersLe_trans; [|apply runCallback_counters_gl].
  apply countersLe_refl.
Qed.

Lemma wait_counters_gl (dt : nat) (s : State) :
  countersLe (stats s) (stats (wait dt s)).
Proof.
  unfold wait.
  destruct (withNow_frame (now s + dt) (runTimers (length (timers s)) (now s + dt) s))
    as (_ & -> & _).
  apply runTimers_counters_gl.
Qed.

(** What a click on the canvas amounts to: nothing but console lines, or
    the selection of the card carried by the first mesh that was hit. *)
Lemma handleCanvasClick_cases (x y : nat) (intersects : list Mesh) (s : State) :
  sameSession (handleCanvasClick x y intersects s) s \/
  exists object rest card,
    intersects = object :: rest /\
    userData object = Some (mkUserData true card) /\
    handleCanvasClick x y intersects s =
    handleCardSelection card
      (consoleLog (LogTouched (userData object)) (consoleLog (LogClickDetected x y) s)).
Proof.
  unfold handleCanvasClick.
  destruct (sceneReady s); cbn [negb]; [|left; repeat split].
  destruct intersects as [|object rest]; [left; repeat split|].
  destruct (userData object) as [[isRef card]|] eqn:Eud; [|left; repeat split].
  cbn [isReference cardData]. destruct isRef; [|left; repeat split].
  right. exists object, rest, card. rewrite Eud. auto.
Qed.

Lemma consoleLog_stats (e : LogEntry) (s : State) : stats (consoleLog e s) = stats s.
Proof. reflexivity. Qed.

Lemma handleCanvasClick_counters (x y : nat) (intersects : list Mesh) (s : State) :
  countersLe (stats s) (stats (handleCanvasClick x y intersects s)).
Proof.
  destruct (handleCanvasClick_cases x y intersects s)
    as [(_ & -> & _) | (object & rest & card & _ & _ & ->)];
    [apply countersLe_refl|].
  eapply countersLe_trans; [|apply handleCardSelection_counters].
  rewrite !consoleLog_stats. apply countersLe_refl.
Qed.

Lemma step_counters_gl (e : Event) (s : State) :
  countersLe (stats s) (stats (step e s)).
Proof.
  destruct e; cbn [step];
    [apply handleCardSelection_counters | apply handleCanvasClick_counters
     | apply wait_counters_gl].
Qed.

Lemma run_counters_gl (es : list Event) :
  forall s, countersLe (stats s) (stats (run es s)).
Proof.
  induction es as [|e es IH]; intros s; [apply countersLe_refl|].
  cbn [run fold_left]. eapply countersLe_trans; [apply step_counters_gl | apply IH].
Qed.

Lemma round_counters_gl (refCard : Card string) (s : State) :
  countersLe (stats s) (stats (round refCard s)).
Proof.
  unfold round. eapply countersLe_trans;
    [apply handleCardSelection_counters | apply wait_counters_gl].
Qed.

Lemma rounds_counters_gl (cs : list (Card string)) :
  forall s, countersLe (stats s) (stats (rounds cs s)).
Proof.
  induction cs as [|c cs IH]; intros s; [apply countersLe_refl|].
  cbn [rounds]. eapply countersLe_trans; [apply round_counters_gl | apply IH].
Qed.

(** *** Runs of rounds *)

Lemma rounds_app_gl (l1 l2 : list (Card string)) :
  forall s, rounds (l1 ++ l2) s = rounds l2 (rounds l1 s).
Proof. induction l1 as [|c l1 IH]; intros s; [reflexivity | apply IH]. Qed.

Lemma allCorrect_app_gl (l1 l2 : list (Card string)) :
  forall s, allCorrect (l1 ++ l2) s = allCorrect l1 s && allCorrect l2 (rounds l1 s).
Proof.
  induction l1 as [|c l1 IH]; intros s; [reflexivity|].
  cbn [app allCorrect rounds]. now rewrite IH, andb_assoc.
Qed.

Lemma correctIn_awaiting_gl (refCard target : Card string) (s : State) :
  awaiting s target ->
  correctIn refCard s = checkMatch target refCard (currentRule (gameStateRef s)).
Proof. intros (Ht & Ha & _). unfold correctIn. now rewrite Ht, Ha. Qed.

(** Correct selections that change no rule: the rules stay, the streak
    counts the selections, and it passes no multiple of the threshold. *)
Lemma rounds_no_switch_gl (cs : list (Card string)) :
  forall s target,
    awaiting s target -> allCorrect cs s = true ->
    ruleChanges (stats (rounds cs s)) = ruleChanges (stats s) ->
    currentRule (gameStateRef (rounds cs s)) = currentRule (gameStateRef s) /\
    previousRule (gameStateRef (rounds cs s)) = previousRule (gameStateRef s) /\
    streak (stats (rounds cs s)) = streak (stats s) + length cs /\
    console (rounds cs s) = console s ++ repeat LogProcessing (length cs) /\
    (exists target', awaiting (rounds cs s) target') /\
    (forall k, 1 <= k <= length cs -> streakDue (streak (stats s) + k) = false).
Proof.
  induction cs as [|c cs IH]; intros s target Haw Hall Hrc.
  - cbn [rounds length repeat]. rewrite Nat.add_0_r, app_nil_r.
    repeat split; eauto. intros k Hk. lia.
  - cbn [rounds allCorrect length] in *. apply andb_true_iff in Hall.
    destruct Hall as [Hc Hall]. rewrite (correctIn_awaiting_gl c target s Haw) in Hc.
    pose proof (rounds_counters_gl cs (round c s)) as (_ & _ & _ & Hmono).
    pose proof (round_correct c target s Haw Hc) as [[target' Haw'] Hround].
    cbn zeta in Hround.
    destruct (streakDue (streak (stats s) + 1)) eqn:Edue.
    + destruct Hround as (_ & _ & _ & Hcs & _).
      rewrite Hcs in Hmono. cbn [ruleChanges] in Hmono. lia.
    + destruct Hround as (Hcr & Hcp & Hcs & Hcc).
      destruct (IH (round c s) target' Haw' Hall) as (H1 & H2 & H3 & H4 & H5 & H6).
      { rewrite Hrc, Hcs. reflexivity. }
      rewrite H1, H2, H3, H4, Hcr, Hcp, Hcs, Hcc. cbn [streak repeat].
      rewrite <- app_assoc. cbn [app].
      repeat split; auto; try lia.
      intros k Hk. destruct (Nat.eq_dec k 1) as [->|Hk1]; [exact Edue|].
      specialize (H6 (k - 1) ltac:(lia)). rewrite Hcs in H6. cbn [streak] in H6.
      replace (streak (stats s) + k) with (streak (stats s) + 1 + (k - 1)) by lia.
      exact H6.
Qed.

(** *** The invariant *)

Lemma clickable_ext (s s' : State) :
  clickableObjects s' = clickableObjects s -> referenceCards s' = referenceCards s ->
  clickableAreReferences s -> clickableAreReferences s'.
Proof.
  intros Hc Hr H m Hm. rewrite Hc in Hm. rewrite Hr. now apply H.
Qed.


Lemma wf_sameSession (a b : State) : sameSession a b -> wf b -> wf a.
Proof.
  intros (E1 & E2 & E3 & E4 & E5 & E6 & E7 & E8) (Ht & Hc & Hb & Hl).
  unfold wf, lockedSince, streakBound in *. rewrite E1, E2, E4, E6, E8.
  repeat split; [exact Ht | now apply (clickable_ext b a) | exact Hb | exact Hl].
Qed.

Lemma mount_wf_gl (t0 : nat) (g : MathRandom) (ids : UuidSource) :
  wf (mount (initialState t0 g ids)).
Proof.
  unfold mount.
  rewrite (generateNewCard_pair (initialState t0 g ids)).
  destruct (generateNewCard_frame_gl (initialState t0 g ids))
    as (Hr & Hst & _ & _ & Hrc & _ & Hcl & Htm & _).
  cbn zeta in *.
  generalize dependent (snd (generateNewCard (initialState t0 g ids))).
  intros s1 Hr Hst Hrc Hcl Htm.
  set (card := fst _).
  assert (Hx : clickableAreReferences
                 (withSceneReady true (setTargetCard (Some card) s1))).
  { intros m Hm. cbn in Hm. rewrite Hcl in Hm. destruct Hm. }
  apply sceneEffect_clickable in Hx.
  destruct (sceneEffect_frame (withSceneReady true (setTargetCard (Some card) s1)))
    as (E1 & E2 & _ & E4 & _ & E6 & _).
  generalize dependent (sceneEffect (withSceneReady true (setTargetCard (Some card) s1))).
  intros s2 Hx E1 E2 E4 E6. cbn in E1, E2, E4, E6.
  unfold wf, streakBound. rewrite E1, E2, E4, E6, Hr, Hst, Htm.
  repeat split; [discriminate | exact Hx | unfold CARDS_TO_CHANGE_RULE; cbn; lia].
Qed.

(** An evaluated selection opens the feedback window. *)
Lemma handleCardSelection_locks (refCard target : Card string) (s : State) :
  awaiting s target -> lockedSince (now s) (handleCardSelection refCard s).
Proof.
  intros (Ht & Ha & Htimers).
  destruct (handleCardSelection_evaluated refCard target s Ht Ha)
    as (Hr & _ & _ & _ & Htm & Hnow & _).
  cbn zeta in *. rewrite Htimers, app_nil_l in Htm.
  generalize dependent (handleCardSelection refCard s). intros h Hr Htm Hnow.
  unfold lockedSince. rewrite Hr, Hnow, Htm. cbn [isAnimating].
  split; [reflexivity|]. split; [unfold FEEDBACK_DELAY; lia|].
  destruct (streakDue _).
  - right. split; [reflexivity | unfold CHANGE_RULE_DELAY; lia].
  - now left.
Qed.

Lemma handleCardSelection_wf (refCard : Card string) (s : State) :
  wf s -> wf (handleCardSelection refCard s).
Proof.
  intros (Ht & Hc & Hb & Hl).
  destruct (targetCard s) as [target|] eqn:Etarget; [|congruence].
  destruct (isAnimating (gameStateRef s)) eqn:Ea.
  - rewrite handleCardSelection_ignored by now right.
    unfold wf. rewrite Etarget, Ea. auto.
  - pose proof (handleCardSelection_locks refCard target s
                  (conj Etarget (conj Ea Hl))) as Hlock.
    destruct (handleCardSelection_evaluated refCard target s Etarget Ea)
      as (Hr & Ht' & _ & Hst & Htm & _ & _ & _ & _ & Hrc & Hcl & _).
    cbn zeta in *. rewrite Hl, app_nil_l in Htm.
    unfold streakBound in Hb. rewrite Hl in Hb.
    generalize dependent (handleCardSelection refCard s).
    intros h Hlock Hr Ht' Hst Htm Hrc Hcl.
    unfold wf. rewrite Hr, Ht'. cbn [isAnimating].
    split; [discriminate|]. split; [now apply (clickable_ext s h)|].
    split; [|now exists (now s)].
    unfold streakBound. rewrite Htm, Hst. cbn [streak].
    destruct (checkMatch target refCard (currentRule (gameStateRef s))).
    + destruct (streakDue (streak (stats s) + 1)) eqn:Edue; cbn [app].
      * apply streakDue_true in Edue. destruct Edue as [_ Hmod].
        unfold CARDS_TO_CHANGE_RULE in *.
        destruct (Nat.eq_dec (streak (stats s) + 1) 5) as [E|E]; [exact E|].
        rewrite Nat.mod_small in Hmod by lia. lia.
      * assert (streak (stats s) + 1 <> CARDS_TO_CHANGE_RULE).
        { intros E. rewrite E in Edue. now rewrite streakDue_threshold in Edue. }
        lia.
    + rewrite streakDue_zero. cbn [app]. unfold CARDS_TO_CHANGE_RULE. lia.
Qed.


Lemma consoleLog_wf (e : LogEntry) (s : State) : wf s -> wf (consoleLog e s).
Proof. apply wf_sameSession. repeat split. Qed.

Lemma handleCanvasClick_wf (x y : nat) (intersects : list Mesh) (s : State) :
  wf s -> wf (handleCanvasClick x y intersects s).
Proof.
  intros Hwf.
  destruct (handleCanvasClick_cases x y intersects s)
    as [H | (object & rest & card & _ & _ & ->)].
  - now apply (wf_sameSession _ s).
  - apply handleCardSelection_wf. now do 2 apply consoleLog_wf.
Qed.

(** The state in which [changeRule] runs as a timer callback, and what it
    leaves. *)
Lemma changed_fields (tq : nat) (l : list (nat * Callback)) (s : State) :
  let c := changeRule (withNow tq (withTimers l s)) in
  isAnimating (gameStateRef c) = isAnimating (gameStateRef s) /\
  stats c = mkStats (attempts (stats s)) (correct (stats s))
                    (perseverativeErrors (stats s)) (ruleChanges (stats s) + 1) 0 /\
  timers c = l /\ targetCard c = targetCard s /\ feedback c = feedback s /\
  clickableObjects c = clickableObjects s /\
  referenceCards c = referenceCards s /\ now c = tq.
Proof. unfold changeRule, nextRandom. cbn. repeat split. Qed.

Lemma window_end_wf (t tm : nat) (m : State) :
  clickableAreReferences m -> streak (stats m) < CARDS_TO_CHANGE_RULE ->
  wf (withNow t (runCallback NextRound (withNow tm (withTimers [] m)))).
Proof.
  intros Hc Hs.
  destruct (window_end_gl t tm m) as (E1 & E2 & _ & _ & _ & _ & E7 & target' & Haw & _).
  cbn zeta in *.
  generalize dependent (withNow t (runCallback NextRound (withNow tm (withTimers [] m)))).
  intros s' E1 E2 E7 (Ht & Ha & Htm).
  unfold wf, streakBound. rewrite Ht, Ha, Htm, E2. repeat split; auto. discriminate.
Qed.

(** While the window lasts, time changes nothing that a selection counts,
    and the session stays locked. *)
Lemma wait_locked (dt t0 : nat) (s : State) :
  lockedSince t0 s -> now s + dt < t0 + FEEDBACK_DELAY ->
  lockedSince t0 (wait dt s) /\
  attempts (stats (wait dt s)) = attempts (stats s) /\
  correct (stats (wait dt s)) = correct (stats s) /\
  perseverativeErrors (stats (wait dt s)) = perseverativeErrors (stats s) /\
  targetCard (wait dt s) = targetCard s /\
  feedback (wait dt s) = feedback s /\
  clickableObjects (wait dt s) = clickableObjects s /\
  referenceCards (wait dt s) = referenceCards s /\
  now (wait dt s) = now s + dt /\
  (streakBound s -> streakBound (wait dt s)).
Proof.
  intros (Ha & Hnow & [Htm | (Htm & Hn2)]) Hlt.
  - rewrite (wait_early_gl dt (t0 + FEEDBACK_DELAY) NextRound [] s)
      by (rewrite ?Htm; auto; lia).
    unfold lockedSince, streakBound. cbn. rewrite Ha, Htm. repeat split; auto; lia.
  - destruct (le_lt_dec (t0 + CHANGE_RULE_DELAY) (now s + dt)) as [Hdue | Hearly].
    + rewrite (wait_changeRule dt t0 s Htm (conj Hdue Hlt)).
      destruct (changed_fields (Nat.max (now s) (t0 + CHANGE_RULE_DELAY))
                  [(t0 + FEEDBACK_DELAY, NextRound)] s)
        as (C1 & C2 & C3 & C4 & C5 & C6 & C7 & C8).
      cbn zeta in *.
      generalize dependent (changeRule
        (withNow (Nat.max (now s) (t0 + CHANGE_RULE_DELAY))
           (withTimers [(t0 + FEEDBACK_DELAY, NextRound)] s))).
      intros c C1 C2 C3 C4 C5 C6 C7 C8.
      unfold lockedSince, streakBound. cbn. rewrite C1, C2, C3, C4, C5, C6, C7, Ha. cbn.
      repeat split; auto; try lia.
      intros _. unfold CARDS_TO_CHANGE_RULE; lia.
    + rewrite (wait_early_gl dt (t0 + CHANGE_RULE_DELAY) ChangeRule
                 [(t0 + FEEDBACK_DELAY, NextRound)] s)
        by (rewrite ?Htm; auto using popEarliest_pair).
      unfold lockedSince, streakBound. cbn. rewrite Ha, Htm. repeat split; auto; try lia.
Qed.

(** When the window ends the session is unlocked. *)
Lemma wait_unlocks (dt t0 : nat) (s : State) :
  lockedSince t0 s -> t0 + FEEDBACK_DELAY <= now s + dt ->
  isAnimating (gameStateRef (wait dt s)) = false /\
  feedback (wait dt s) = None /\ timers (wait dt s) = [] /\
  (clickableAreReferences s -> clickableAreReferences (wait dt s)) /\
  (streakBound s -> streak (stats (wait dt s)) < CARDS_TO_CHANGE_RULE) /\
  exists target', targetCard (wait dt s) = Some target' /\ 1 <= number target' <= 4.
Proof.
  intros (Ha & Hnow & [Htm | (Htm & Hn2)]) Hdue.
  - rewrite (wait_nextRound dt _ s Htm Hdue).
    destruct (window_end_gl (now s + dt) (Nat.max (now s) (t0 + FEEDBACK_DELAY)) s)
      as (E1 & E2 & _ & _ & _ & E6 & E7 & target' & (Ht & _ & Htm') & Hnum).
    cbn zeta in *.
    generalize dependent (withNow (now s + dt)
      (runCallback NextRound
         (withNow (Nat.max (now s) (t0 + FEEDBACK_DELAY)) (withTimers [] s)))).
    intros s' E1 E2 E6 E7 Ht Htm'.
    rewrite E1, E2. cbn [isAnimating]. repeat split; eauto.
    unfold streakBound. now rewrite Htm.
  - rewrite (wait_both dt t0 s Htm Hdue). cbn zeta.
    destruct (changed_fields (Nat.max (now s) (t0 + CHANGE_RULE_DELAY))
                [(t0 + FEEDBACK_DELAY, NextRound)] s)
      as (_ & C2 & _ & _ & _ & C6 & C7 & _).
    cbn zeta in *.
    generalize dependent (changeRule
      (withNow (Nat.max (now s) (t0 + CHANGE_RULE_DELAY))
         (withTimers [(t0 + FEEDBACK_DELAY, NextRound)] s))).
    intros c C2 C6 C7.
    destruct (window_end_gl (now s + dt) (Nat.max (now c) (t0 + FEEDBACK_DELAY)) c)
      as (E1 & E2 & _ & _ & _ & E6 & E7 & target' & (Ht & _ & Htm') & Hnum).
    cbn zeta in *.
    generalize dependent (withNow (now s + dt)
      (runCallback NextRound
         (withNow (Nat.max (now c) (t0 + FEEDBACK_DELAY)) (withTimers [] c)))).
    intros s' E1 E2 E6 E7 Ht Htm'.
    rewrite E1, E2, C2. cbn [isAnimating streak]. repeat split; eauto.
    + intros Hc. apply E7. now apply (clickable_ext s c).
    + intros _. unfold CARDS_TO_CHANGE_RULE. lia.
Qed.

Lemma wait_wf_gl (dt : nat) (s : State) : wf s -> wf (wait dt s).
Proof.
  intros (Ht & Hc & Hb & Hl).
  destruct (isAnimating (gameStateRef s)) eqn:Ea.
  - destruct Hl as (t0 & Hlock).
    destruct (le_lt_dec (t0 + FEEDBACK_DELAY) (now s + dt)) as [Hdue | Hearly].
    + destruct (wait_unlocks dt t0 s Hlock Hdue)
        as (Ha' & _ & Htm' & Hc' & Hs' & target' & Ht' & _).
      unfold wf, streakBound. rewrite Ha', Htm', Ht'.
      repeat split; auto. discriminate.
    + destruct (wait_locked dt t0 s Hlock Hearly)
        as (Hl' & _ & _ & _ & Ht' & _ & Hc' & Hr' & _ & Hb').
      pose proof Hl' as (Ha' & _).
      unfold wf. rewrite Ht', Ha'. repeat split; auto.
      * now apply (clickable_ext s (wait dt s)).
      * now exists t0.
  - rewrite (wait_idle_gl dt s Hl).
    unfold wf, streakBound in *. cbn. rewrite Ea. auto.
Qed.

(** Every state of a session satisfies the invariant. *)
Lemma reachable_wf_gl (s : State) : reachable s -> wf s.
Proof.
  induction 1 as [t0 g ids | e s _ IH]; [apply mount_wf_gl|].
  destruct e; cbn [step];
    [now apply handleCardSelection_wf | now apply handleCanvasClick_wf
     | now apply wait_wf_gl].
Qed.

(** A reachable state in which no selection is being processed awaits a
    selection. *)
Lemma reachable_awaiting_gl (s : State) :
  reachable s -> isAnimating (gameStateRef s) = false ->
  exists target, awaiting s target.
Proof.
  intros Hr Ha. destruct (reachable_wf_gl s Hr) as (Ht & _ & _ & Hl).
  rewrite Ha in Hl. destruct (targetCard s) as [target|] eqn:E; [|congruence].
  exists target. unfold awaiting. tauto.
Qed.

(** *** The feedback window *)


End Game3DFacts.

(* ------------------------------------------------------------------ *)
(** ** The properties of the specification *)

Lemma last_of_five (A : Type) (cs : list A) :
  length cs = CARDS_TO_CHANGE_RULE ->
  exists l4 c, cs = l4 ++ [c] /\ firstn 4 cs = l4 /\ length l4 = 4.
Proof.
  unfold CARDS_TO_CHANGE_RULE. intros Hlen.
  destruct cs as [|c1 [|c2 [|c3 [|c4 [|c5 [|c6 cs]]]]]]; try discriminate.
  exists [c1; c2; c3; c4], c5. repeat split.
Qed.

(** A round of the DOM component with a correct selection. *)
Lemma round2D_correct (refCard target : Card nat) (s : Game2D.State) :
  Game2DProps.awaiting s target ->
  checkMatch target refCard (Game2D.currentRule s) = true ->
  let s' := Game2D.round refCard s in
  if streakDue (streak (Game2D.stats s) + 1) then
    Game2D.currentRule s' <> Game2D.currentRule s /\
    In (Game2D.currentRule s') rules /\
    Game2D.previousRule s' = Some (Game2D.currentRule s) /\
    Game2D.stats s' =
      mkStats (attempts (Game2D.stats s) + 1) (correct (Game2D.stats s) + 1)
              (perseverativeErrors (Game2D.stats s))
              (ruleChanges (Game2D.stats s) + 1) 0 /\
    Game2D.console s' =
      Game2D.console s ++ [Game2D.LogRuleChanged (Game2D.currentRule s')]
  else
    Game2D.currentRule s' = Game2D.currentRule s /\
    Game2D.previousRule s' = Game2D.previousRule s /\
    Game2D.stats s' =
      mkStats (attempts (Game2D.stats s) + 1) (correct (Game2D.stats s) + 1)
              (perseverativeErrors (Game2D.stats s))
              (ruleChanges (Game2D.stats s)) (streak (Game2D.stats s) + 1) /\
    Game2D.console s' = Game2D.console s.
Proof.
  intros Haw Hm s'.
  destruct (Game2DFacts.round_evaluated_dom refCard target s Haw)
    as (Hr & Hp & Hst & Hco & _).
  fold s' in Hr, Hp, Hst, Hco.
  destruct Haw as (Ht & Hf & _).
  pose proof (Game2DFacts.click_correct refCard target s Ht Hf Hm) as Hclick.
  cbn zeta in Hclick.
  rewrite Hr, Hp, Hst, Hco. exact Hclick.
Qed.

(** C1.  Five consecutive correct selections during which the rule does
    not change end in exactly one rule switch: after the fifth round the
    previous rule is the rule that was current during the five selections,
    the current rule is another one of the four, the streak is 0, the rule
    changes have increased by exactly one, and the console has received
    exactly one rule-change line.  In the DOM component the switch happens
    in the renders that follow the fifth selection, in the three.js
    component in the timer callback that runs 100 ms after it; in both,
    before the next selection can be evaluated. *)
Theorem C1_switch_after_five_correct :
  (forall (s : Game2D.State) (target : Card nat) (cs : list (Card nat)),
      Game2DProps.awaiting s target ->
      length cs = CARDS_TO_CHANGE_RULE ->
      Game2DProps.allCorrect cs s = true ->
      ruleChanges (Game2D.stats (Game2D.rounds (firstn 4 cs) s)) =
        ruleChanges (Game2D.stats s) ->
      let s' := Game2D.rounds cs s in
      Game2D.previousRule s' = Some (Game2D.currentRule s) /\
      Game2D.currentRule s' <> Game2D.currentRule s /\
      In (Game2D.currentRule s') rules /\
      streak (Game2D.stats s') = 0 /\
      ruleChanges (Game2D.stats s') = ruleChanges (Game2D.stats s) + 1 /\
      Game2D.console s' =
        Game2D.console s ++ [Game2D.LogRuleChanged (Game2D.currentRule s')]) /\
  (forall (s : Game3D.State) (target : Card string) (cs : list (Card string)),
      Game3DProps.awaiting s target ->
      length cs = CARDS_TO_CHANGE_RULE ->
      Game3DProps.allCorrect cs s = true ->
      ruleChanges (Game3D.stats (Game3D.rounds (firstn 4 cs) s)) =
        ruleChanges (Game3D.stats s) ->
      let s' := Game3D.rounds cs s in
      Game3D.previousRule (Game3D.gameStateRef s') =
        Some (Game3D.currentRule (Game3D.gameStateRef s)) /\
      Game3D.currentRule (Game3D.gameStateRef s') <>
        Game3D.currentRule (Game3D.gameStateRef s) /\
      In (Game3D.currentRule (Game3D.gameStateRef s')) rules /\
      streak (Game3D.stats s') = 0 /\
      ruleChanges (Game3D.stats s') = ruleChanges (Game3D.stats s) + 1 /\
      Game3D.console s' =
        Game3D.console s ++ repeat Game3D.LogProcessing 5 ++
        [Game3D.LogRuleChanged (Game3D.currentRule (Game3D.gameStateRef s'))]).
Proof.
  split.
  - intros s target cs Haw Hlen Hall Hrc s'.
    destruct (last_of_five _ cs Hlen) as (l4 & c5 & Hcs & Hf4 & Hl4).
    subst s'. rewrite Hf4 in Hrc. subst cs.
    rewrite Game2DFacts.allCorrect_app_dom in Hall. apply andb_true_iff in Hall.
    destruct Hall as [Hall4 Hall5].
    destruct (Game2DFacts.rounds_no_switch_dom l4 s target Haw Hall4 Hrc)
      as (H1 & H2 & H3 & H4 & (t4 & Haw4) & H6).
    rewrite Hl4 in H3, H6.
    pose proof (mod_threshold_run (streak (Game2D.stats s)) H6) as Hdue.
    rewrite Game2DFacts.rounds_app_dom. cbn [Game2D.rounds].
    cbn [Game2DProps.allCorrect] in Hall5. rewrite andb_true_r in Hall5.
    rewrite (Game2DFacts.correctIn_awaiting_dom c5 t4 _ Haw4) in Hall5.
    pose proof (round2D_correct c5 t4 _ Haw4 Hall5) as Hround. cbn zeta in Hround.
    rewrite H3 in Hround.
    replace (streak (Game2D.stats s) + 4 + 1)
      with (streak (Game2D.stats s) + CARDS_TO_CHANGE_RULE) in Hround
      by (unfold CARDS_TO_CHANGE_RULE; lia).
    rewrite Hdue in Hround. destruct Hround as (R1 & R2 & R3 & R4 & R5).
    rewrite R3, R4, R5, H1, H4 in *. cbn [streak ruleChanges]. rewrite Hrc.
    repeat split; auto.
  - intros s target cs Haw Hlen Hall Hrc s'.
    destruct (last_of_five _ cs Hlen) as (l4 & c5 & Hcs & Hf4 & Hl4).
    subst s'. rewrite Hf4 in Hrc. subst cs.
    rewrite Game3DFacts.allCorrect_app_gl in Hall. apply andb_true_iff in Hall.
    destruct Hall as [Hall4 Hall5].
    destruct (Game3DFacts.rounds_no_switch_gl l4 s target Haw Hall4 Hrc)
      as (H1 & H2 & H3 & H4 & (t4 & Haw4) & H6).
    rewrite Hl4 in H3, H4, H6.
    pose proof (mod_threshold_run (streak (Game3D.stats s)) H6) as Hdue.
    rewrite Game3DFacts.rounds_app_gl. cbn [Game3D.rounds].
    cbn [Game3DProps.allCorrect] in Hall5. rewrite andb_true_r in Hall5.
    rewrite (Game3DFacts.correctIn_awaiting_gl c5 t4 _ Haw4) in Hall5.
    pose proof (Game3DFacts.round_correct c5 t4 _ Haw4 Hall5) as [_ Hround].
    cbn zeta in Hround. rewrite H3 in Hround.
    replace (streak (Game3D.stats s) + 4 + 1)
      with (streak (Game3D.stats s) + CARDS_TO_CHANGE_RULE) in Hround
      by (unfold CARDS_TO_CHANGE_RULE; lia).
    rewrite Hdue in Hround. destruct Hround as (R1 & R2 & R3 & R4 & R5).
    rewrite R3, R4, R5, H1, H4 in *. cbn [streak ruleChanges]. rewrite Hrc.
    repeat split; auto.
    rewrite <- !app_assoc. reflexivity.
Qed.

(** Five correct selections by colour from the start of a session of
    each component: the rule switches once. *)
Lemma C1_witness :
  (let s := Game2D.mount (Game2D.initialState 0 zeroRandom) in
   let target := mkCard 0 red circle 1 small in
   let cs := repeat (mkCard 1 red circle 1 small) 5 in
   Game2DProps.awaiting s target /\
   length cs = CARDS_TO_CHANGE_RULE /\
   Game2DProps.allCorrect cs s = true /\
   ruleChanges (Game2D.stats (Game2D.rounds (firstn 4 cs) s)) =
     ruleChanges (Game2D.stats s) /\
   Game2D.previousRule (Game2D.rounds cs s) = Some (Game2D.currentRule s) /\
   Game2D.currentRule (Game2D.rounds cs s) <> Game2D.currentRule s /\
   In (Game2D.currentRule (Game2D.rounds cs s)) rules /\
   streak (Game2D.stats (Game2D.rounds cs s)) = 0 /\
   ruleChanges (Game2D.stats (Game2D.rounds cs s)) = ruleChanges (Game2D.stats s) + 1 /\
   Game2D.console (Game2D.rounds cs s) =
     Game2D.console s ++
     [Game2D.LogRuleChanged (Game2D.currentRule (Game2D.rounds cs s))]) /\
  (let s := Game3D.mount (Game3D.initialState 0 zeroRandom countingUuid) in
   let target := mkCard "uuuuu"%string red circle 1 small in
   let cs := repeat (mkCard "u"%string red circle 1 small) 5 in
   Game3DProps.awaiting s target /\
   length cs = CARDS_TO_CHANGE_RULE /\
   Game3DProps.allCorrect cs s = true /\
   ruleChanges (Game3D.stats (Game3D.rounds (firstn 4 cs) s)) =
     ruleChanges (Game3D.stats s) /\
   Game3D.previousRule (Game3D.gameStateRef (Game3D.rounds cs s)) =
     Some (Game3D.currentRule (Game3D.gameStateRef s)) /\
   Game3D.currentRule (Game3D.gameStateRef (Game3D.rounds cs s)) <>
     Game3D.currentRule (Game3D.gameStateRef s) /\
   In (Game3D.currentRule (Game3D.gameStateRef (Game3D.rounds cs s))) rules /\
   streak (Game3D.stats (Game3D.rounds cs s)) = 0 /\
   ruleChanges (Game3D.stats (Game3D.rounds cs s)) =
     ruleChanges (Game3D.stats s) + 1 /\
   Game3D.console (Game3D.rounds cs s) =
     Game3D.console s ++ repeat Game3D.LogProcessing 5 ++
     [Game3D.LogRuleChanged
        (Game3D.currentRule (Game3D.gameStateRef (Game3D.rounds cs s)))]).
Proof.
  cbv zeta. split.
  - assert (H1 : Game2DProps.awaiting (Game2D.mount (Game2D.initialState 0 zeroRandom))
                   (mkCard 0 red circle 1 small)) by (repeat split).
    assert (H2 : length (repeat (mkCard 1 red circle 1 small) 5) = CARDS_TO_CHANGE_RULE)
      by reflexivity.
    assert (H3 : Game2DProps.allCorrect (repeat (mkCard 1 red circle 1 small) 5)
                   (Game2D.mount (Game2D.initialState 0 zeroRandom)) = true)
      by (vm_compute; reflexivity).
    assert (H4 : ruleChanges (Game2D.stats
                   (Game2D.rounds (firstn 4 (repeat (mkCard 1 red circle 1 small) 5))
                      (Game2D.mount (Game2D.initialState 0 zeroRandom)))) =
                 ruleChanges (Game2D.stats
                   (Game2D.mount (Game2D.initialState 0 zeroRandom))))
      by (vm_compute; reflexivity).
    split; [exact H1|]. split; [exact H2|]. split; [exact H3|]. split; [exact H4|].
    exact (proj1 C1_switch_after_five_correct _ _ _ H1 H2 H3 H4).
  - assert (H1 : Game3DProps.awaiting
                   (Game3D.mount (Game3D.initialState 0 zeroRandom countingUuid))
                   (mkCard "uuuuu"%string red circle 1 small)) by (repeat split).
    assert (H2 : length (repeat (mkCard "u"%string red circle 1 small) 5) =
                 CARDS_TO_CHANGE_RULE) by reflexivity.
    assert (H3 : Game3DProps.allCorrect (repeat (mkCard "u"%string red circle 1 small) 5)
                   (Game3D.mount (Game3D.initialState 0 zeroRandom countingUuid)) = true)
      by (vm_compute; reflexivity).
    assert (H4 : ruleChanges (Game3D.stats
                   (Game3D.rounds
                      (firstn 4 (repeat (mkCard "u"%string red circle 1 small) 5))
                      (Game3D.mount (Game3D.initialState 0 zeroRandom countingUuid)))) =
                 ruleChanges (Game3D.stats
                   (Game3D.mount (Game3D.initialState 0 zeroRandom countingUuid))))
      by (vm_compute; reflexivity).
    split; [exact H1|]. split; [exact H2|]. split; [exact H3|]. split; [exact H4|].
    exact (proj2 C1_switch_after_five_correct _ _ _ H1 H2 H3 H4).
Defined.

(** C2.  The rule engine: for all cards [a] and [b] and every rule,
    [checkMatch a b rule] is true exactly when the two cards have the same
    value of the attribute that the rule names, and false exactly when they
    differ; it is a total function of its three arguments.  The two
    components share the definition. *)
Theorem C2_checkMatch_is_attribute_equality :
  forall (I J : Type) (a : Card I) (b : Card J),
    (forall rule, checkMatch a b rule = true <-> attr a rule = attr b rule) /\
    (forall rule, checkMatch a b rule = false <-> attr a rule <> attr b rule) /\
    (checkMatch a b ByColor = true <-> color a = color b) /\
    (checkMatch a b ByShape = true <-> shape a = shape b) /\
    (checkMatch a b ByNumber = true <-> number a = number b) /\
    (checkMatch a b BySize = true <-> size a = size b).
Proof.
  intros I J a b.
  assert (Ht : forall rule, checkMatch a b rule = true <-> attr a rule = attr b rule).
  { intros rule. unfold checkMatch, strictEq.
    destruct (Attr_eq_dec (attr a rule) (attr b rule)); split; congruence. }
  split; [exact Ht|]. split.
  - intros rule. rewrite <- Ht. destruct (checkMatch a b rule); split; congruence.
  - repeat split; intros H.
    all: try (apply Ht in H; cbn [attr] in H; congruence).
    all: apply Ht; cbn [attr]; congruence.
Qed.

(** C3.  An evaluated selection that is incorrect under the current rule
    sets the streak to 0 and switches no rule, whatever the streak was: the
    current rule, the previous rule and the number of rule changes are
    unchanged, no rule-change line is logged, and the three.js component
    registers no [changeRule] timer.  This holds right after the selection
    and at the end of its round. *)
Theorem C3_incorrect_resets_streak_without_switch :
  (forall (s : Game2D.State) (target refCard : Card nat),
      Game2D.targetCard s = Some target -> Game2D.feedback s = None ->
      checkMatch target refCard (Game2D.currentRule s) = false ->
      let s' := Game2D.click refCard s in
      streak (Game2D.stats s') = 0 /\
      Game2D.currentRule s' = Game2D.currentRule s /\
      Game2D.previousRule s' = Game2D.previousRule s /\
      ruleChanges (Game2D.stats s') = ruleChanges (Game2D.stats s) /\
      Game2D.console s' = Game2D.console s /\
      (Game2D.timers s = [] ->
       let r := Game2D.round refCard s in
       streak (Game2D.stats r) = 0 /\
       Game2D.currentRule r = Game2D.currentRule s /\
       Game2D.previousRule r = Game2D.previousRule s /\
       ruleChanges (Game2D.stats r) = ruleChanges (Game2D.stats s) /\
       Game2D.console r = Game2D.console s)) /\
  (forall (s : Game3D.State) (target refCard : Card string),
      Game3D.targetCard s = Some target ->
      Game3D.isAnimating (Game3D.gameStateRef s) = false ->
      checkMatch target refCard (Game3D.currentRule (Game3D.gameStateRef s)) = false ->
      let s' := Game3D.handleCardSelection refCard s in
      streak (Game3D.stats s') = 0 /\
      Game3D.currentRule (Game3D.gameStateRef s') =
        Game3D.currentRule (Game3D.gameStateRef s) /\
      Game3D.previousRule (Game3D.gameStateRef s') =
        Game3D.previousRule (Game3D.gameStateRef s) /\
      ruleChanges (Game3D.stats s') = ruleChanges (Game3D.stats s) /\
      Game3D.timers s' =
        Game3D.timers s ++ [(Game3D.now s + FEEDBACK_DELAY, Game3D.NextRound)] /\
      (Game3D.timers s = [] ->
       let r := Game3D.round refCard s in
       streak (Game3D.stats r) = 0 /\
       Game3D.currentRule (Game3D.gameStateRef r) =
         Game3D.currentRule (Game3D.gameStateRef s) /\
       Game3D.previousRule (Game3D.gameStateRef r) =
         Game3D.previousRule (Game3D.gameStateRef s) /\
       ruleChanges (Game3D.stats r) = ruleChanges (Game3D.stats s) /\
       Game3D.console r = Game3D.console s ++ [Game3D.LogProcessing])).
Proof.
  split.
  - intros s target refCard Ht Hf Hm s'.
    destruct (Game2DFacts.click_incorrect refCard target s Ht Hf Hm)
      as (Hr & Hp & Hst & Hco & _).
    fold s' in Hr, Hp, Hst, Hco.
    rewrite Hr, Hp, Hst, Hco. cbn [streak ruleChanges].
    do 5 (split; [reflexivity|]). intros Htm.
    set (r := Game2D.round refCard s).
    destruct (Game2DFacts.round_evaluated_dom refCard target s (conj Ht (conj Hf Htm)))
      as (Rr & Rp & Rst & Rco & _).
    fold s' r in Rr, Rp, Rst, Rco.
    rewrite Rr, Rp, Rst, Rco, Hr, Hp, Hst, Hco. repeat split.
  - intros s target refCard Ht Ha Hm s'.
    destruct (Game3DFacts.handleCardSelection_evaluated refCard target s Ht Ha)
      as (Hr & _ & _ & Hst & Htm & _).
    cbn zeta in Hr, Hst, Htm. fold s' in Hr, Hst, Htm.
    rewrite Hm in Hst, Htm. rewrite streakDue_zero in Htm. cbn [app] in Htm.
    rewrite Hr, Hst, Htm. cbn [streak ruleChanges Game3D.currentRule Game3D.previousRule].
    do 5 (split; [reflexivity|]). intros Htm0.
    set (r := Game3D.round refCard s).
    destruct (Game3DFacts.round_incorrect refCard target s (conj Ht (conj Ha Htm0)) Hm)
      as (_ & Rr & Rp & Rst & Rco).
    fold r in Rr, Rp, Rst, Rco.
    rewrite Rr, Rp, Rst, Rco. repeat split.
Qed.

(** A wrong selection after three correct ones, in the DOM component. *)
Lemma C3_witness :
  let s := Game2D.rounds (repeat (mkCard 1 red circle 1 small) 3)
             (Game2D.mount (Game2D.initialState 0 zeroRandom)) in
  let target := mkCard 3000 red circle 1 small in
  let refCard := mkCard 3 blue star 3 large in
  Game2D.targetCard s = Some target /\ Game2D.feedback s = None /\
  checkMatch target refCard (Game2D.currentRule s) = false /\
  streak (Game2D.stats s) = 3 /\
  streak (Game2D.stats (Game2D.click refCard s)) = 0 /\
  Game2D.currentRule (Game2D.click refCard s) = Game2D.currentRule s.
Proof.
  cbv zeta.
  set (s := Game2D.rounds (repeat (mkCard 1 red circle 1 small) 3)
              (Game2D.mount (Game2D.initialState 0 zeroRandom))).
  assert (H1 : Game2D.targetCard s = Some (mkCard 3000 red circle 1 small))
    by (vm_compute; reflexivity).
  assert (H2 : Game2D.feedback s = None) by (vm_compute; reflexivity).
  assert (H3 : checkMatch (mkCard 3000 red circle 1 small) (mkCard 3 blue star 3 large)
                 (Game2D.currentRule s) = false) by (vm_compute; reflexivity).
  assert (H4 : streak (Game2D.stats s) = 3) by (vm_compute; reflexivity).
  destruct (proj1 C3_incorrect_resets_streak_without_switch s _ _ H1 H2 H3)
    as (P1 & P2 & _).
  split; [exact H1|]. split; [exact H2|]. split; [exact H3|]. split; [exact H4|].
  split; [exact P1 | exact P2].
Defined.

Lemma isPerseverative2D_true (target refCard : Card nat) (current : Rule)
      (previous : option Rule) :
  Game2D.isPerseverative (checkMatch target refCard current) previous target refCard = true
  <-> perseverates target refCard current previous.
Proof.
  unfold Game2D.isPerseverative, perseverates.
  destruct (checkMatch target refCard current); cbn [negb andb].
  - split; [discriminate | intros [H _]; discriminate].
  - destruct previous as [p|].
    + split.
      * intros H. split; [reflexivity|]. now exists p.
      * intros (_ & q & Hq & Hm). now inversion Hq; subst.
    + split; [discriminate | intros (_ & q & Hq & _); discriminate].
Qed.

Lemma isPerseverative3D_true (target refCard : Card string) (current : Rule)
      (previous : option Rule) :
  Game3D.isPerseverative (checkMatch target refCard current) previous target refCard = true
  <-> perseverates target refCard current previous.
Proof.
  unfold Game3D.isPerseverative, perseverates.
  destruct (checkMatch target refCard current); cbn [negb andb].
  - split; [discriminate | intros [H _]; discriminate].
  - destruct previous as [p|].
    + split.
      * intros H. split; [reflexivity|]. now exists p.
      * intros (_ & q & Hq & Hm). now inversion Hq; subst.
    + split; [discriminate | intros (_ & q & Hq & _); discriminate].
Qed.

(** The perseverative errors after a round of the DOM component. *)
Lemma round2D_perseverativeErrors (refCard target : Card nat) (s : Game2D.State) :
  Game2DProps.awaiting s target ->
  perseverativeErrors (Game2D.stats (Game2D.round refCard s)) =
  perseverativeErrors (Game2D.stats s) +
  (if Game2D.isPerseverative (checkMatch target refCard (Game2D.currentRule s))
                             (Game2D.previousRule s) target refCard
   then 1 else 0).
Proof.
  intros Haw.
  destruct (Game2DFacts.round_evaluated_dom refCard target s Haw) as (_ & _ & Hst & _).
  cbn zeta in Hst. rewrite Hst. destruct Haw as (Ht & Hf & _).
  rewrite (Game2DFacts.click_evaluated refCard target s Ht Hf). cbn zeta.
  destruct (Game2DFacts.handleCardClick_evaluated refCard target s Ht Hf)
    as (_ & _ & _ & _ & Hh & _).
  cbn zeta in Hh.
  generalize dependent (Game2D.handleCardClick refCard s). intros h Hh.
  destruct (streakDue (streak (Game2D.stats h)));
    rewrite ?Game2DFacts.changeRule_stats_dom, Hh; reflexivity.
Qed.

(** The perseverative errors after a round of the three.js component. *)
Lemma round3D_perseverativeErrors (refCard target : Card string) (s : Game3D.State) :
  Game3DProps.awaiting s target ->
  perseverativeErrors (Game3D.stats (Game3D.round refCard s)) =
  perseverativeErrors (Game3D.stats s) +
  (if Game3D.isPerseverative
        (checkMatch target refCard (Game3D.currentRule (Game3D.gameStateRef s)))
        (Game3D.previousRule (Game3D.gameStateRef s)) target refCard
   then 1 else 0).
Proof.
  intros Haw.
  destruct (Game3DFacts.round_evaluated_gl refCard target s Haw) as (_ & _ & Hst & _).
  cbn zeta in Hst. rewrite Hst. clear Hst. destruct Haw as (Ht & Ha & _).
  destruct (Game3DFacts.handleCardSelection_evaluated refCard target s Ht Ha)
    as (_ & _ & _ & Hh & _).
  cbn zeta in Hh.
  generalize dependent (Game3D.handleCardSelection refCard s). intros h Hh.
  destruct (streakDue (streak (Game3D.stats h)));
    rewrite ?Game3DFacts.changeRule_stats_gl, Hh; reflexivity.
Qed.

Lemma counted_iff (b : bool) (before after : nat) (P : Prop) :
  (b = true <-> P) -> after = before + (if b then 1 else 0) ->
  (after = before + 1 <-> P) /\ (after = before <-> ~ P).
Proof.
  intros [H1 H2] ->. destruct b.
  - split; split.
    + intros _. now apply H1.
    + reflexivity.
    + lia.
    + intros Hn. destruct (Hn (H1 eq_refl)).
  - split; split.
    + lia.
    + intros HP. apply H2 in HP. discriminate.
    + intros _ HP. apply H2 in HP. discriminate.
    + lia.
Qed.

Lemma perseverates_previous {I J : Type} (target : Card I) (refCard : Card J)
      (current : Rule) :
  ~ perseverates target refCard current None.
Proof. intros (_ & q & Hq & _). discriminate. Qed.

(** C4.  In every evaluated round the perseverative errors grow by one
    if the selection is wrong under the current rule and right under the
    previous rule, and stay as they are otherwise; in particular they stay
    while there is no previous rule. *)
Theorem C4_perseverative_errors :
  (forall (s : Game2D.State) (target refCard : Card nat),
      Game2DProps.awaiting s target ->
      let before := perseverativeErrors (Game2D.stats s) in
      let after := perseverativeErrors (Game2D.stats (Game2D.round refCard s)) in
      let p := perseverates target refCard (Game2D.currentRule s) (Game2D.previousRule s) in
      (after = before + 1 <-> p) /\ (after = before <-> ~ p) /\
      (Game2D.previousRule s = None -> after = before)) /\
  (forall (s : Game3D.State) (target refCard : Card string),
      Game3DProps.awaiting s target ->
      let before := perseverativeErrors (Game3D.stats s) in
      let after := perseverativeErrors (Game3D.stats (Game3D.round refCard s)) in
      let p := perseverates target refCard
                 (Game3D.currentRule (Game3D.gameStateRef s))
                 (Game3D.previousRule (Game3D.gameStateRef s)) in
      (after = before + 1 <-> p) /\ (after = before <-> ~ p) /\
      (Game3D.previousRule (Game3D.gameStateRef s) = None -> after = before)).
Proof.
  split.
  - intros s target refCard Haw before after p.
    destruct (counted_iff _ before after p
                (isPerseverative2D_true target refCard (Game2D.currentRule s)
                   (Game2D.previousRule s))
                (round2D_perseverativeErrors refCard target s Haw)) as [H1 H2].
    split; [exact H1|]. split; [exact H2|].
    intros Hnone. apply H2. subst p. rewrite Hnone. apply perseverates_previous.
  - intros s target refCard Haw before after p.
    destruct (counted_iff _ before after p
                (isPerseverative3D_true target refCard
                   (Game3D.currentRule (Game3D.gameStateRef s))
                   (Game3D.previousRule (Game3D.gameStateRef s)))
                (round3D_perseverativeErrors refCard target s Haw)) as [H1 H2].
    split; [exact H1|]. split; [exact H2|].
    intros Hnone. apply H2. subst p. rewrite Hnone. apply perseverates_previous.
Qed.

(** A perseverative error in the DOM component: after the first switch
    (from colour to number) the subject keeps sorting by colour. *)
Lemma C4_witness :
  let refCard := mkCard 2 green triangle 2 medium in
  let s := Game2D.rounds (repeat refCard 5)
             (Game2D.mount (Game2D.initialState 0 halfRandom)) in
  let target := mkCard 5000 green triangle 3 medium in
  Game2DProps.awaiting s target /\
  Game2D.currentRule s = ByNumber /\ Game2D.previousRule s = Some ByColor /\
  perseverativeErrors (Game2D.stats (Game2D.round refCard s)) =
  perseverativeErrors (Game2D.stats s) + 1.
Proof.
  cbv zeta.
  set (refCard := mkCard 2 green triangle 2 medium).
  set (s := Game2D.rounds (repeat refCard 5)
              (Game2D.mount (Game2D.initialState 0 halfRandom))).
  assert (Haw : Game2DProps.awaiting s (mkCard 5000 green triangle 3 medium))
    by (repeat split; vm_compute; reflexivity).
  assert (Hc : Game2D.currentRule s = ByNumber) by (vm_compute; reflexivity).
  assert (Hp : Game2D.previousRule s = Some ByColor) by (vm_compute; reflexivity).
  split; [exact Haw|]. split; [exact Hc|]. split; [exact Hp|].
  destruct (proj1 C4_perseverative_errors s _ refCard Haw) as ([_ H] & _).
  apply H. rewrite Hc, Hp. split; [reflexivity|].
  exists ByColor. split; reflexivity.
Defined.

(** An evaluated selection of the DOM component opens the feedback
    window. *)
Lemma click2D_locks (refCard target : Card nat) (s : Game2D.State) :
  Game2DProps.awaiting s target ->
  let c := Game2D.click refCard s in
  Game2D.feedback c <> None /\
  Game2D.timers c = [(Game2D.now s + FEEDBACK_DELAY, Game2D.NextRound)] /\
  Game2D.now c = Game2D.now s /\
  Game2D.targetCard c = Some target /\
  attempts (Game2D.stats c) = attempts (Game2D.stats s) + 1.
Proof.
  intros (Ht & Hf & Htm) c. subst c.
  rewrite (Game2DFacts.click_evaluated refCard target s Ht Hf). cbn zeta.
  destruct (Game2DFacts.handleCardClick_evaluated refCard target s Ht Hf)
    as (_ & _ & Ht' & Hf' & Hst & Htm' & Hnow & _).
  cbn zeta in *. rewrite Htm, app_nil_l in Htm'.
  generalize dependent (Game2D.handleCardClick refCard s).
  intros h Ht' Hf' Hst Htm' Hnow.
  destruct (streakDue (streak (Game2D.stats h))).
  - destruct (Game2DFacts.changeRule_frame_dom h) as (E1 & E2 & E3 & E4).
    rewrite E1, E2, E3, E4, Game2DFacts.changeRule_stats_dom, Ht', Hf', Htm', Hnow, Hst.
    cbn [attempts]. repeat split. discriminate.
  - rewrite Ht', Hf', Htm', Hnow, Hst. cbn [attempts]. repeat split. discriminate.
Qed.



(** C6.  The counters [attempts], [correct], [perseverativeErrors] and
    [ruleChanges] never decrease: not in the evaluation of a selection, not
    in a rule change, not at the start of a round, and so not in any
    sequence of events of a session, in either component. *)
Theorem C6_counters_never_decrease :
  (forall refCard s,
      countersLe (Game2D.stats s) (Game2D.stats (Game2D.handleCardClick refCard s))) /\
  (forall s, countersLe (Game2D.stats s) (Game2D.stats (Game2D.changeRule s))) /\
  (forall s, countersLe (Game2D.stats s) (Game2D.stats (Game2D.generateNewCard s))) /\
  (forall k s, countersLe (Game2D.stats s) (Game2D.stats (Game2D.runCallback k s))) /\
  (forall es s, countersLe (Game2D.stats s) (Game2D.stats (Game2D.run es s))) /\
  (forall refCard s,
      countersLe (Game3D.stats s) (Game3D.stats (Game3D.handleCardSelection refCard s))) /\
  (forall s, countersLe (Game3D.stats s) (Game3D.stats (Game3D.changeRule s))) /\
  (forall s,
      countersLe (Game3D.stats s) (Game3D.stats (snd (Game3D.generateNewCard s)))) /\
  (forall k s, countersLe (Game3D.stats s) (Game3D.stats (Game3D.runCallback k s))) /\
  (forall es s, countersLe (Game3D.stats s) (Game3D.stats (Game3D.run es s))).
Proof.
  split; [exact Game2DFacts.handleCardClick_counters|].
  split; [exact Game2DFacts.changeRule_counters_dom|].
  split; [exact Game2DFacts.generateNewCard_counters|].
  split; [exact Game2DFacts.runCallback_counters_dom|].
  split; [exact Game2DFacts.run_counters_dom|].
  split; [exact Game3DFacts.handleCardSelection_counters|].
  split; [exact Game3DFacts.changeRule_counters_gl|].
  split.
  { intros s. destruct (Game3DFacts.generateNewCard_frame_gl s) as (_ & Hst & _).
    cbn zeta in Hst. rewrite Hst. apply countersLe_refl. }
  split; [exact Game3DFacts.runCallback_counters_gl|].
  exact Game3DFacts.run_counters_gl.
Qed.

(** C7.  The reference cards and the one-match-per-rule invariant.  A
    target card with one to four symbols matches exactly one reference
    card by colour, exactly one by shape and exactly one by number.  By
    size a small or a large target matches exactly one, and a medium target
    matches exactly two: the second card (green, triangle, 2, medium) and
    the fourth (yellow, square, 4, medium).  This holds for the reference
    cards of both components, whatever the identifiers of the second. *)
Theorem C7_reference_cards_one_match_but_size :
  forall (I : Type) (target : Card I),
    1 <= number target <= 4 ->
    (length (matching Game2D.referenceCards target ByColor) = 1 /\
     length (matching Game2D.referenceCards target ByShape) = 1 /\
     length (matching Game2D.referenceCards target ByNumber) = 1 /\
     (size target = medium ->
      matching Game2D.referenceCards target BySize =
      [mkCard 2 green triangle 2 medium; mkCard 4 yellow square 4 medium]) /\
     (size target <> medium ->
      length (matching Game2D.referenceCards target BySize) = 1)) /\
    (forall i1 i2 i3 i4 : string,
        let refs := Game3D.makeReferenceCards i1 i2 i3 i4 in
        length (matching refs target ByColor) = 1 /\
        length (matching refs target ByShape) = 1 /\
        length (matching refs target ByNumber) = 1 /\
        (size target = medium ->
         matching refs target BySize =
         [mkCard i2 green triangle 2 medium; mkCard i4 yellow square 4 medium]) /\
        (size target <> medium -> length (matching refs target BySize) = 1)).
Proof.
  intros I [i c sh n z] Hn. cbn [number size] in *.
  assert (Hcases : n = 1 \/ n = 2 \/ n = 3 \/ n = 4) by lia.
  split; [|intros i1 i2 i3 i4; cbv zeta].
  all: repeat split.
  all: try (destruct c; reflexivity).
  all: try (destruct sh; reflexivity).
  all: try (destruct Hcases as [-> | [-> | [-> | ->]]]; reflexivity).
  all: try (intros ->; reflexivity).
  all: intros Hz; destruct z; try reflexivity; congruence.
Qed.

(** A medium target card: two reference cards match it by size. *)
Lemma C7_witness :
  let target := mkCard 7 blue circle 3 medium in
  1 <= number target <= 4 /\
  length (matching Game2D.referenceCards target ByColor) = 1 /\
  length (matching Game2D.referenceCards target BySize) = 2.
Proof.
  cbv zeta.
  assert (Hn : 1 <= number (mkCard 7 blue circle 3 medium) <= 4) by (cbn; lia).
  destruct (C7_reference_cards_one_match_but_size nat (mkCard 7 blue circle 3 medium) Hn)
    as [(Hc & _ & _ & Hm & _) _].
  split; [exact Hn|]. split; [exact Hc|].
  rewrite (Hm eq_refl). reflexivity.
Defined.



(** C9, as the specification states it, fails: a session takes no
    configuration, so a configured threshold of 3 and delay of 200 ms (both
    admissible) are not what the session uses.  After three consecutive
    correct selections, where the configured threshold asks for a switch,
    the rule has not changed; and an evaluated selection schedules the end
    of the lockout 1000 ms later, not 200 ms. *)
Lemma C9_counterexample :
  let cfg := mkConfig 3 200 in
  let c := mkCard 1 red circle 1 small in
  let s0 := Game2D.mount (Game2D.initialState 0 zeroRandom) in
  let s3 := Game2D.rounds [c; c; c] s0 in
  0 < cardsPerRuleChange cfg /\
  Game2DProps.allCorrect [c; c; c] s0 = true /\
  Game2D.stats s3 = mkStats 3 3 0 0 3 /\
  configuredSwitchDue cfg (streak (Game2D.stats s3)) = true /\
  streakDue (streak (Game2D.stats s3)) = false /\
  Game2D.currentRule s3 = Game2D.currentRule s0 /\
  Game2D.previousRule s3 = None /\
  Game2D.timers (Game2D.handleCardClick c s0) =
    [(Game2D.now s0 + 1000, Game2D.NextRound)] /\
  Game2D.now s0 + 1000 <> Game2D.now s0 + feedbackDelayMs cfg.
Proof.
  cbv zeta. split; [cbn; lia|].
  do 7 (split; [vm_compute; reflexivity|]).
  cbn. discriminate.
Qed.

Lemma streakDue_default (n : nat) : streakDue n = configuredSwitchDue defaultConfig n.
Proof. reflexivity. Qed.

(** C9, amended.  The threshold and the feedback delay are the constants
    5 and 1000 ms of the code, the defaults of the configuration; a session
    is not given other values.  Every rule switch is decided by a streak
    that is a positive multiple of 5: the DOM component changes the rule in
    the renders after a selection exactly when the new streak is one, the
    three.js component registers the [changeRule] timer exactly then.
    Every evaluated selection registers the timer that ends the lockout
    1000 ms later, and the lockout lasts exactly that long. *)
Theorem C9_threshold_and_delay_are_constants :
  (forall n, streakDue n = configuredSwitchDue defaultConfig n) /\
  (forall (s : Game2D.State) (target refCard : Card nat),
      Game2D.targetCard s = Some target -> Game2D.feedback s = None ->
      let h := Game2D.handleCardClick refCard s in
      Game2D.timers h =
        Game2D.timers s ++
        [(Game2D.now s + feedbackDelayMs defaultConfig, Game2D.NextRound)] /\
      Game2D.click refCard s =
        if configuredSwitchDue defaultConfig (streak (Game2D.stats h))
        then Game2D.changeRule h else h) /\
  (forall (s : Game2D.State) (target refCard : Card nat) (dt : nat),
      Game2DProps.awaiting s target ->
      let w := Game2D.wait dt (Game2D.click refCard s) in
      (dt < feedbackDelayMs defaultConfig -> Game2D.feedback w <> None) /\
      (feedbackDelayMs defaultConfig <= dt -> Game2D.feedback w = None)) /\
  (forall (s : Game3D.State) (target refCard : Card string),
      Game3D.targetCard s = Some target ->
      Game3D.isAnimating (Game3D.gameStateRef s) = false ->
      let h := Game3D.handleCardSelection refCard s in
      Game3D.timers h =
        Game3D.timers s ++
        (if configuredSwitchDue defaultConfig (streak (Game3D.stats h))
         then [(Game3D.now s + CHANGE_RULE_DELAY, Game3D.ChangeRule)] else []) ++
        [(Game3D.now s + feedbackDelayMs defaultConfig, Game3D.NextRound)]) /\
  (forall (s : Game3D.State) (target refCard : Card string) (dt : nat),
      Game3DProps.awaiting s target ->
      let w := Game3D.wait dt (Game3D.handleCardSelection refCard s) in
      (dt < feedbackDelayMs defaultConfig ->
       Game3D.isAnimating (Game3D.gameStateRef w) = true) /\
      (feedbackDelayMs defaultConfig <= dt ->
       Game3D.isAnimating (Game3D.gameStateRef w) = false)).
Proof.
  change (feedbackDelayMs defaultConfig) with FEEDBACK_DELAY.
  split; [exact streakDue_default|].
  split.
  { intros s target refCard Ht Hf h. subst h.
    destruct (Game2DFacts.handleCardClick_evaluated refCard target s Ht Hf)
      as (_ & _ & _ & _ & _ & Htm & _).
    split; [exact Htm|].
    rewrite <- streakDue_default.
    apply (Game2DFacts.click_evaluated refCard target s Ht Hf). }
  split.
  { intros s target refCard dt Haw w. subst w.
    destruct (click2D_locks refCard target s Haw) as (Hf & Htm & Hnow & _).
    cbn zeta in *.
    generalize dependent (Game2D.click refCard s). intros c Hf Htm Hnow.
    split; intros Hdt.
    - rewrite (Game2DFacts.wait_early_dom dt _ c Htm) by (rewrite Hnow; lia). exact Hf.
    - rewrite (Game2DFacts.wait_due dt _ c Htm) by (rewrite Hnow; lia).
      reflexivity. }
  split.
  { intros s target refCard Ht Ha h. subst h.
    destruct (Game3DFacts.handleCardSelection_evaluated refCard target s Ht Ha)
      as (_ & _ & _ & Hst & Htm & _).
    cbn zeta in Hst, Htm. rewrite Htm, Hst. cbn [streak]. reflexivity. }
  intros s target refCard dt Haw w. subst w.
  pose proof (Game3DFacts.handleCardSelection_locks refCard target s Haw) as Hlock.
  destruct Haw as (Ht & Ha & Htm).
  destruct (Game3DFacts.handleCardSelection_evaluated refCard target s Ht Ha)
    as (_ & _ & _ & _ & _ & Hnow & _).
  cbn zeta in Hnow.
  generalize dependent (Game3D.handleCardSelection refCard s). intros h Hlock Hnow.
  split; intros Hdt.
  - destruct (Game3DFacts.wait_locked dt (Game3D.now s) h Hlock) as ((Ha' & _) & _);
      [rewrite Hnow; lia | exact Ha'].
  - destruct (Game3DFacts.wait_unlocks dt (Game3D.now s) h Hlock) as (Ha' & _);
      [rewrite Hnow; lia | exact Ha'].
Qed.

(** The lockout of the first selection of a session of the DOM component:
    still on after 999 ms. *)
Lemma C9_witness :
  let s := Game2D.mount (Game2D.initialState 0 zeroRandom) in
  let target := mkCard 0 red circle 1 small in
  let refCard := mkCard 1 red circle 1 small in
  Game2DProps.awaiting s target /\ 999 < feedbackDelayMs defaultConfig /\
  Game2D.feedback (Game2D.wait 999 (Game2D.click refCard s)) <> None.
Proof.
  cbv zeta.
  assert (Haw : Game2DProps.awaiting (Game2D.mount (Game2D.initialState 0 zeroRandom))
                  (mkCard 0 red circle 1 small)) by (repeat split).
  assert (Hlt : 999 < feedbackDelayMs defaultConfig) by (cbn; lia).
  split; [exact Haw|]. split; [exact Hlt|].
  destruct C9_threshold_and_delay_are_constants as (_ & _ & H & _).
  exact (proj1 (H _ _ (mkCard 1 red circle 1 small) 999 Haw) Hlt).
Defined.

Lemma checkMatch_sameFace {I J I' J' : Type} (a : Card I) (b : Card J)
      (a' : Card I') (b' : Card J') (rule : Rule) :
  sameFace a a' -> sameFace b b' -> checkMatch a b rule = checkMatch a' b' rule.
Proof. intros Ha Hb. unfold checkMatch. now rewrite (Ha rule), (Hb rule). Qed.

(** From states that agree on rules and statistics the two handlers set
    the same feedback and produce the same statistics. *)
Lemma handlers_agree (s2 : Game2D.State) (s3 : Game3D.State)
      (target2 ref2 : Card nat) (target3 ref3 : Card string) :
  Game2D.targetCard s2 = Some target2 -> Game2D.feedback s2 = None ->
  Game3D.targetCard s3 = Some target3 ->
  Game3D.isAnimating (Game3D.gameStateRef s3) = false ->
  sameFace target2 target3 -> sameFace ref2 ref3 ->
  Game2D.currentRule s2 = Game3D.currentRule (Game3D.gameStateRef s3) ->
  Game2D.previousRule s2 = Game3D.previousRule (Game3D.gameStateRef s3) ->
  Game2D.stats s2 = Game3D.stats s3 ->
  Game2D.feedback (Game2D.handleCardClick ref2 s2) =
    Game3D.feedback (Game3D.handleCardSelection ref3 s3) /\
  Game2D.stats (Game2D.handleCardClick ref2 s2) =
    Game3D.stats (Game3D.handleCardSelection ref3 s3).
Proof.
  intros Ht2 Hf2 Ht3 Ha3 Htarget Href Hcur Hprev Hstats.
  destruct (Game2DFacts.handleCardClick_evaluated ref2 target2 s2 Ht2 Hf2)
    as (_ & _ & _ & Hfb2 & Hst2 & _).
  destruct (Game3DFacts.handleCardSelection_evaluated ref3 target3 s3 Ht3 Ha3)
    as (_ & _ & Hfb3 & Hst3 & _).
  cbn zeta in Hfb2, Hst2, Hfb3, Hst3.
  assert (Hm : checkMatch target2 ref2 (Game2D.currentRule s2) =
               checkMatch target3 ref3 (Game3D.currentRule (Game3D.gameStateRef s3)))
    by (rewrite Hcur; now apply checkMatch_sameFace).
  assert (Hp : Game2D.isPerseverative (checkMatch target2 ref2 (Game2D.currentRule s2))
                 (Game2D.previousRule s2) target2 ref2 =
               Game3D.isPerseverative
                 (checkMatch target3 ref3 (Game3D.currentRule (Game3D.gameStateRef s3)))
                 (Game3D.previousRule (Game3D.gameStateRef s3)) target3 ref3).
  { unfold Game2D.isPerseverative, Game3D.isPerseverative. rewrite Hm, Hprev.
    destruct (Game3D.previousRule (Game3D.gameStateRef s3)) as [p|]; [|reflexivity].
    now rewrite (checkMatch_sameFace target2 ref2 target3 ref3 p Htarget Href). }
  split; [now rewrite Hfb2, Hfb3, Hm | now rewrite Hst2, Hst3, Hp, Hm, Hstats].
Qed.

(** C10.  The two components evaluate a selection in the same way.  From
    states that await a selection and agree on the rules and the
    statistics, for target cards and reference cards that show the same
    faces, [handleCardClick] and [handleCardSelection] set the same
    feedback and produce the same statistics; and the rule change is
    triggered under the same condition, that the new streak is a positive
    multiple of 5: the DOM component runs [changeRule] in the renders that
    follow exactly then, and the three.js component registers the
    [changeRule] timer exactly then. *)
Theorem C10_components_evaluate_alike :
  forall (s2 : Game2D.State) (s3 : Game3D.State)
         (target2 ref2 : Card nat) (target3 ref3 : Card string),
    Game2D.targetCard s2 = Some target2 -> Game2D.feedback s2 = None ->
    Game3D.targetCard s3 = Some target3 ->
    Game3D.isAnimating (Game3D.gameStateRef s3) = false ->
    sameFace target2 target3 -> sameFace ref2 ref3 ->
    Game2D.currentRule s2 = Game3D.currentRule (Game3D.gameStateRef s3) ->
    Game2D.previousRule s2 = Game3D.previousRule (Game3D.gameStateRef s3) ->
    Game2D.stats s2 = Game3D.stats s3 ->
    let h2 := Game2D.handleCardClick ref2 s2 in
    let h3 := Game3D.handleCardSelection ref3 s3 in
    Game2D.feedback h2 = Game3D.feedback h3 /\
    Game2D.stats h2 = Game3D.stats h3 /\
    Game2D.click ref2 s2 =
      (if streakDue (streak (Game2D.stats h2)) then Game2D.changeRule h2 else h2) /\
    Game3D.timers h3 =
      Game3D.timers s3 ++
      (if streakDue (streak (Game3D.stats h3))
       then [(Game3D.now s3 + CHANGE_RULE_DELAY, Game3D.ChangeRule)] else []) ++
      [(Game3D.now s3 + FEEDBACK_DELAY, Game3D.NextRound)] /\
    (streakDue (streak (Game2D.stats h2)) = true <->
     0 < streak (Game2D.stats h2) /\ streak (Game2D.stats h2) mod 5 = 0).
Proof.
  intros s2 s3 target2 ref2 target3 ref3 Ht2 Hf2 Ht3 Ha3 Htarget Href Hcur Hprev Hstats
         h2 h3.
  destruct (handlers_agree s2 s3 target2 ref2 target3 ref3
              Ht2 Hf2 Ht3 Ha3 Htarget Href Hcur Hprev Hstats) as [Hfb Hst].
  split; [exact Hfb|]. split; [exact Hst|].
  split; [exact (Game2DFacts.click_evaluated ref2 target2 s2 Ht2 Hf2)|].
  split; [|apply streakDue_true].
  destruct (Game3DFacts.handleCardSelection_evaluated ref3 target3 s3 Ht3 Ha3)
    as (_ & _ & _ & Hst3 & Htm3 & _).
  cbn zeta in Hst3, Htm3. subst h3. rewrite Htm3, Hst3. cbn [streak]. reflexivity.
Qed.

(** The first selection of two sessions that start alike. *)
Lemma C10_witness :
  let s2 := Game2D.mount (Game2D.initialState 0 zeroRandom) in
  let s3 := Game3D.mount (Game3D.initialState 0 zeroRandom countingUuid) in
  let ref2 := mkCard 1 red circle 1 small in
  let ref3 := mkCard "u"%string red circle 1 small in
  Game2D.stats s2 = Game3D.stats s3 /\
  Game2D.feedback (Game2D.handleCardClick ref2 s2) =
  Game3D.feedback (Game3D.handleCardSelection ref3 s3) /\
  Game2D.stats (Game2D.handleCardClick ref2 s2) =
  Game3D.stats (Game3D.handleCardSelection ref3 s3).
Proof.
  cbv zeta.
  split; [reflexivity|].
  destruct (C10_components_evaluate_alike
              (Game2D.mount (Game2D.initialState 0 zeroRandom))
              (Game3D.mount (Game3D.initialState 0 zeroRandom countingUuid))
              (mkCard 0 red circle 1 small) (mkCard 1 red circle 1 small)
              (mkCard "uuuuu"%string red circle 1 small)
              (mkCard "u"%string red circle 1 small)
              eq_refl eq_refl eq_refl eq_refl
              (fun rule => eq_refl) (fun rule => eq_refl) eq_refl eq_refl eq_refl)
    as (H1 & H2 & _).
  split; [exact H1 | exact H2].
Defined.

(* ------------------------------------------------------------------ *)
(** ** Sessions as sequences of atomic actions *)

Lemma streakDue_ge (n : nat) : streakDue n = true -> CARDS_TO_CHANGE_RULE <= n.
Proof.
  intros H. apply streakDue_true in H. destruct H as [Hpos Hmod].
  unfold CARDS_TO_CHANGE_RULE in *.
  destruct (le_lt_dec 5 n) as [Hle | Hlt]; [exact Hle|].
  rewrite Nat.mod_small in Hmod by exact Hlt. lia.
Qed.

Module Game2DStepFacts.
Import Game2D Game2DProps Game2DSteps.

Lemma actions_one_dom (s s' : State) : action s s' -> actions s s'.
Proof. intros H. eapply acts_more; [exact H | apply acts_none]. Qed.

Lemma actions_trans (a b c : State) : actions a b -> actions b c -> actions a c.
Proof.
  induction 1 as [s | s s1 s2 Hact _ IH]; intros Hbc; [exact Hbc|].
  eapply acts_more; [exact Hact | now apply IH].
Qed.

(** What holds before an action and is kept by every action holds after
    several. *)
Lemma actions_keep_dom (P : State -> Prop) :
  (forall s s', P s -> action s s' -> P s') ->
  forall s s', actions s s' -> P s -> P s'.
Proof.
  intros Hkeep s s' Hacts. induction Hacts as [s | s s1 s2 Hact _ IH]; intros HP.
  - exact HP.
  - apply IH. now apply (Hkeep s).
Qed.

(** Every event of a session is a sequence of atomic actions. *)
Lemma step_actions_dom (e : Event) (s : State) : wf s -> actions s (step e s).
Proof.
  intros (Ht & Hs & Hf). destruct e as [refCard | dt]; cbn [step].
  - destruct (targetCard s) as [target|] eqn:Etarget; [|congruence].
    destruct (feedback s) as [f|] eqn:Efb.
    + rewrite Game2DFacts.click_ignored by (right; congruence). apply acts_none.
    + rewrite (Game2DFacts.click_evaluated refCard target s Etarget Efb). cbn zeta.
      pose proof (act_click refCard target s Etarget Efb) as Hclick.
      generalize dependent (handleCardClick refCard s). intros h Hclick.
      destruct (streakDue (streak (stats h))) eqn:Edue.
      * eapply acts_more; [exact Hclick|]. apply actions_one_dom. now apply act_changeRule.
      * now apply actions_one_dom.
  - destruct (feedback s) as [f|] eqn:Efb.
    + destruct Hf as (t0 & Htm & Hnow).
      destruct (le_lt_dec (t0 + FEEDBACK_DELAY) (now s + dt)) as [Hdue | Hearly].
      * rewrite (Game2DFacts.wait_due dt _ s Htm Hdue).
        eapply acts_more; [apply act_nextRound|]. apply actions_one_dom. apply act_clock.
      * rewrite (Game2DFacts.wait_early_dom dt _ s Htm Hearly).
        apply actions_one_dom. apply act_clock.
    + rewrite (Game2DFacts.wait_idle_dom dt s Hf). apply actions_one_dom. apply act_clock.
Qed.

(** Induction over the states of a session, action by action. *)
Lemma reachable_keep_dom (P : State -> Prop) :
  (forall t0 g, P (mount (initialState t0 g))) ->
  (forall s s', P s -> action s s' -> P s') ->
  forall s, reachable s -> P s.
Proof.
  intros Hinit Hkeep s Hr. induction Hr as [t0 g | e s Hr IH]; [apply Hinit|].
  apply (actions_keep_dom P Hkeep s (step e s)); [|exact IH].
  apply step_actions_dom. now apply Game2DFacts.reachable_wf_dom.
Qed.

Lemma mount_eq (t0 : nat) (g : MathRandom) :
  mount (initialState t0 g) = generateNewCard (initialState t0 g).
Proof. unfold mount. now rewrite Game2DFacts.commit_unchanged. Qed.

(** The state after each action, as far as the invariants read it. *)
Lemma action_cases_dom (s s' : State) :
  action s s' ->
  (exists refCard target,
      targetCard s = Some target /\ feedback s = None /\
      s' = handleCardClick refCard s) \/
  (streakDue (streak (stats s)) = true /\ s' = changeRule s) \/
  (currentRule s' = currentRule s /\ previousRule s' = previousRule s /\
   stats s' = stats s /\ console s' = console s /\
   (targetCard s' = targetCard s \/ targetValid s')).
Proof.
  intros [refCard target s0 Ht Hf | s0 Hdue | t s0 | tm s0].
  - left. now exists refCard, target.
  - right. left. now split.
  - right. right. repeat split. now left.
  - right. right.
    destruct (Game2DFacts.generateNewCard_frame_dom
                (setFeedback None (withNow tm (withTimers [] s0))))
      as (E1 & E2 & _ & E4 & _ & _ & E7).
    destruct (Game2DFacts.generateNewCard_target
                (setFeedback None (withNow tm (withTimers [] s0))))
      as (card & Hcard & _ & Hnum).
    rewrite E1, E2, E4, E7. repeat split. right. now exists card.
Qed.

Lemma statsInv_kept_dom (s s' : State) :
  statsInv (stats s) -> action s s' -> statsInv (stats s').
Proof.
  intros [H1 H2] Hact.
  destruct (action_cases_dom s s' Hact)
    as [(refCard & target & Ht & Hf & ->) | [(Hdue & ->) | (_ & _ & -> & _)]].
  - destruct (Game2DFacts.handleCardClick_evaluated refCard target s Ht Hf)
      as (_ & _ & _ & _ & Hst & _).
    cbn zeta in Hst. rewrite Hst. unfold statsInv, Game2D.isPerseverative.
    cbn [attempts correct perseverativeErrors ruleChanges streak].
    destruct (checkMatch target refCard (currentRule s)); cbn [negb andb].
    + split; lia.
    + destruct (previousRule s) as [p|];
        [destruct (checkMatch target refCard p)|]; split; lia.
  - rewrite Game2DFacts.changeRule_stats_dom. apply streakDue_ge in Hdue.
    unfold statsInv. cbn [attempts correct perseverativeErrors ruleChanges streak].
    split; lia.
  - now split.
Qed.

Lemma rulesInv_kept_dom (s s' : State) :
  rulesInv (currentRule s) (previousRule s) (stats s) -> action s s' ->
  rulesInv (currentRule s') (previousRule s') (stats s').
Proof.
  intros [H1 H2] Hact.
  destruct (action_cases_dom s s' Hact)
    as [(refCard & target & Ht & Hf & ->) | [(Hdue & ->) | (-> & -> & -> & _)]].
  - destruct (Game2DFacts.handleCardClick_evaluated refCard target s Ht Hf)
      as (Hr & Hp & _ & _ & Hst & _).
    cbn zeta in Hst. rewrite Hr, Hp, Hst. unfold rulesInv. cbn [ruleChanges].
    now split.
  - destruct (Game2DFacts.changeRule_currentRule s) as [Hneq _].
    rewrite Game2DFacts.changeRule_previousRule, Game2DFacts.changeRule_stats_dom.
    unfold rulesInv. cbn [ruleChanges]. split.
    + intros E. inversion E. congruence.
    + split; [discriminate | lia].
  - now split.
Qed.

Lemma console_kept_dom (s s' : State) :
  (length (console s) = ruleChanges (stats s) /\
   last (loggedRules (console s)) ByColor = currentRule s) ->
  action s s' ->
  length (console s') = ruleChanges (stats s') /\
  last (loggedRules (console s')) ByColor = currentRule s'.
Proof.
  intros [H1 H2] Hact.
  destruct (action_cases_dom s s' Hact)
    as [(refCard & target & Ht & Hf & ->) | [(Hdue & ->) | (-> & _ & -> & -> & _)]].
  - destruct (Game2DFacts.handleCardClick_evaluated refCard target s Ht Hf)
      as (Hr & _ & _ & _ & Hst & _ & _ & _ & Hco).
    cbn zeta in Hst, Hco. rewrite Hr, Hst, Hco. cbn [ruleChanges]. now split.
  - rewrite Game2DFacts.changeRule_console, Game2DFacts.changeRule_stats_dom.
    cbn [ruleChanges]. unfold loggedRules.
    rewrite length_app, map_app. cbn [map length]. rewrite last_last.
    split; [lia | reflexivity].
  - now split.
Qed.

Lemma targetValid_kept_dom (s s' : State) : targetValid s -> action s s' -> targetValid s'.
Proof.
  intros (t & Ht & Hnum) Hact.
  destruct (action_cases_dom s s' Hact)
    as [(refCard & target & Ht' & Hf & ->) | [(Hdue & ->) | (_ & _ & _ & _ & [E | H])]].
  - destruct (Game2DFacts.handleCardClick_evaluated refCard target s Ht' Hf)
      as (_ & _ & Ht2 & _).
    exists target. split; [exact Ht2|]. congruence.
  - destruct (Game2DFacts.changeRule_frame_dom s) as (E & _).
    exists t. now rewrite E.
  - exists t. now rewrite E.
  - exact H.
Qed.

End Game2DStepFacts.

Module Game3DStepFacts.
Import Game3D Game3DProps Game3DSteps.

Lemma actions_one_gl (s s' : State) : action s s' -> actions s s'.
Proof. intros H. eapply acts_more; [exact H | apply acts_none]. Qed.

Lemma actions_keep_gl (P : State -> Prop) :
  (forall s s', P s -> action s s' -> P s') ->
  forall s s', actions s s' -> P s -> P s'.
Proof.
  intros Hkeep s s' Hacts. induction Hacts as [s | s s1 s2 Hact _ IH]; intros HP.
  - exact HP.
  - apply IH. now apply (Hkeep s).
Qed.

Lemma actions_then (s a b : State) : actions s a -> action a b -> actions s b.
Proof.
  induction 1 as [s | s s1 s2 Hact _ IH]; intros Hab.
  - now apply actions_one_gl.
  - eapply acts_more; [exact Hact | now apply IH].
Qed.

(** A selection made right after the console lines of a click. *)
Lemma select_after_logs (refCard : Card string) (s : State) :
  actions s (handleCardSelection refCard s).
Proof.
  destruct (targetCard s) as [target|] eqn:Ht.
  - destruct (isAnimating (gameStateRef s)) eqn:Ha.
    + rewrite Game3DFacts.handleCardSelection_ignored by now right. apply acts_none.
    + apply actions_one_gl. now apply (act_select refCard target).
  - rewrite Game3DFacts.handleCardSelection_ignored by now left. apply acts_none.
Qed.

(** Every event of a session is a sequence of atomic actions. *)
Lemma step_actions_gl (e : Event) (s : State) : wf s -> actions s (step e s).
Proof.
  intros (Ht & Hc & Hb & Hl). destruct e as [refCard | x y hits | dt]; cbn [step].
  - apply select_after_logs.
  - unfold handleCanvasClick. destruct (sceneReady s); cbn [negb]; [|apply acts_none].
    eapply acts_more; [apply (act_log (LogClickDetected x y)); reflexivity|].
    generalize (consoleLog (LogClickDetected x y) s). intros s1.
    destruct hits as [|object rest].
    + apply actions_one_gl. now apply act_log.
    + eapply acts_more; [apply (act_log (LogTouched (userData object))); reflexivity|].
      generalize (consoleLog (LogTouched (userData object)) s1). intros s2.
      destruct (userData object) as [ud|]; [|apply acts_none].
      destruct (isReference ud); [apply select_after_logs | apply acts_none].
  - destruct (isAnimating (gameStateRef s)) eqn:Ea.
    + destruct Hl as (t0 & _ & Hnow & [Htm | (Htm & Hn2)]).
      * destruct (le_lt_dec (t0 + FEEDBACK_DELAY) (now s + dt)) as [Hdue | Hearly].
        -- rewrite (Game3DFacts.wait_nextRound dt _ s Htm Hdue).
           eapply acts_more; [apply act_nextRound|]. apply actions_one_gl. apply act_clock.
        -- rewrite (Game3DFacts.wait_early_gl dt (t0 + FEEDBACK_DELAY) NextRound [] s)
             by (rewrite ?Htm; auto).
           apply actions_one_gl. apply act_clock.
      * assert (Hdue5 : streakDue (streak (stats s)) = true).
        { unfold streakBound in Hb. rewrite Htm in Hb. rewrite Hb.
          apply streakDue_threshold. }
        destruct (le_lt_dec (t0 + FEEDBACK_DELAY) (now s + dt)) as [Hdue | Hearly].
        -- rewrite (Game3DFacts.wait_both dt t0 s Htm Hdue). cbn zeta.
           eapply actions_then; [|apply act_clock].
           eapply actions_then; [|apply act_nextRound].
           apply actions_one_gl. now apply act_changeRule.
        -- destruct (le_lt_dec (t0 + CHANGE_RULE_DELAY) (now s + dt)) as [Hmid | Hfirst].
           ++ rewrite (Game3DFacts.wait_changeRule dt t0 s Htm (conj Hmid Hearly)).
              eapply actions_then; [|apply act_clock].
              apply actions_one_gl. now apply act_changeRule.
           ++ rewrite (Game3DFacts.wait_early_gl dt (t0 + CHANGE_RULE_DELAY) ChangeRule
                         [(t0 + FEEDBACK_DELAY, NextRound)] s)
                by (rewrite ?Htm; auto using Game3DFacts.popEarliest_pair).
              apply actions_one_gl. apply act_clock.
    + rewrite (Game3DFacts.wait_idle_gl dt s Hl). apply actions_one_gl. apply act_clock.
Qed.

(** Induction over the states of a session, action by action. *)
Lemma reachable_keep_gl (P : State -> Prop) :
  (forall t0 g ids, P (mount (initialState t0 g ids))) ->
  (forall s s', P s -> action s s' -> P s') ->
  forall s, reachable s -> P s.
Proof.
  intros Hinit Hkeep s Hr. induction Hr as [t0 g ids | e s Hr IH]; [apply Hinit|].
  apply (actions_keep_gl P Hkeep s (step e s)); [|exact IH].
  apply step_actions_gl. now apply Game3DFacts.reachable_wf_gl.
Qed.

(** The state that [changeRule] leaves when it runs as a timer callback. *)
Lemma changeRule_timer (tq : nat) (l : list (nat * Callback)) (s : State) :
  let c := changeRule (withNow tq (withTimers l s)) in
  exists newRule,
    newRule <> currentRule (gameStateRef s) /\ In newRule rules /\
    gameStateRef c =
      mkRef newRule (Some (currentRule (gameStateRef s))) (isAnimating (gameStateRef s)) /\
    stats c = mkStats (attempts (stats s)) (correct (stats s))
                      (perseverativeErrors (stats s)) (ruleChanges (stats s) + 1) 0 /\
    console c = console s ++ [LogRuleChanged newRule] /\
    targetCard c = targetCard s /\ sceneReady c = sceneReady s /\
    referenceCards c = referenceCards s /\ clickableObjects c = clickableObjects s.
Proof.
  unfold changeRule, nextRandom. cbn.
  eexists. split; [|split]; [apply newRule_other | apply newRule_other |].
  repeat split.
Qed.

(** The state that the callback ending the feedback window leaves. *)
Lemma nextRound_timer (tm : nat) (s : State) :
  let s' := runCallback NextRound (withNow tm (withTimers [] s)) in
  gameStateRef s' =
    mkRef (currentRule (gameStateRef s)) (previousRule (gameStateRef s)) false /\
  stats s' = stats s /\ console s' = console s /\
  referenceCards s' = referenceCards s /\ sceneReady s' = sceneReady s /\
  targetValid s' /\
  (sceneReady s = true ->
   clickableObjects s' = map referenceMesh (referenceCards s)).
Proof.
  unfold runCallback, generateNewCard, sceneEffect, nextRandom, nextUuid, targetValid.
  cbn. destruct (sceneReady s) eqn:E; cbn; rewrite ?E; repeat split.
  all: try (eexists; split; [reflexivity|]; cbn [number]; apply generated_number).
  all: intros; discriminate.
Qed.

(** The five atomic actions, with the state each one leaves. *)
Lemma action_cases_gl (s s' : State) :
  action s s' ->
  (exists e, isClickLine e = true /\ s' = consoleLog e s) \/
  (exists refCard target,
      targetCard s = Some target /\ isAnimating (gameStateRef s) = false /\
      s' = handleCardSelection refCard s) \/
  (exists t, s' = withNow t s) \/
  (exists tq l, streakDue (streak (stats s)) = true /\
                s' = changeRule (withNow tq (withTimers l s))) \/
  (exists tm, s' = runCallback NextRound (withNow tm (withTimers [] s))).
Proof.
  intros [e s0 He | refCard target s0 Ht Ha | t s0 | tq l s0 Hdue | tm s0].
  - left. now exists e.
  - right. left. now exists refCard, target.
  - right. right. left. now exists t.
  - right. right. right. left. now exists tq, l.
  - right. right. right. right. now exists tm.
Qed.

Ltac by_action Hact :=
  let e := fresh "e" in
  let He := fresh "He" in
  let refCard := fresh "refCard" in
  let target := fresh "target" in
  let Ht := fresh "Ht" in
  let Ha := fresh "Ha" in
  let t := fresh "t" in
  let tq := fresh "tq" in
  let l := fresh "l" in
  let Hdue := fresh "Hdue" in
  let tm := fresh "tm" in
  destruct (action_cases_gl _ _ Hact)
    as [(e & He & ->)
       | [(refCard & target & Ht & Ha & ->)
         | [(t & ->) | [(tq & l & Hdue & ->) | (tm & ->)]]]].

Lemma statsInv_kept_gl (s s' : State) :
  statsInv (stats s) -> action s s' -> statsInv (stats s').
Proof.
  intros [H1 H2] Hact. by_action Hact.
  - now split.
  - destruct (Game3DFacts.handleCardSelection_evaluated refCard target s Ht Ha)
      as (_ & _ & _ & Hst & _).
    cbn zeta in Hst. rewrite Hst. unfold statsInv, Game3D.isPerseverative.
    cbn [attempts correct perseverativeErrors ruleChanges streak].
    destruct (checkMatch target refCard (currentRule (gameStateRef s))); cbn [negb andb].
    + split; lia.
    + destruct (previousRule (gameStateRef s)) as [p|];
        [destruct (checkMatch target refCard p)|]; split; lia.
  - now split.
  - destruct (changeRule_timer tq l s) as (r & _ & _ & _ & Hst & _).
    cbn zeta in Hst. rewrite Hst. apply streakDue_ge in Hdue.
    unfold statsInv. cbn [attempts correct perseverativeErrors ruleChanges streak].
    split; lia.
  - destruct (nextRound_timer tm s) as (_ & Hst & _). cbn zeta in Hst.
    rewrite Hst. now split.
Qed.

Lemma rulesInv_kept_gl (s s' : State) :
  rulesInv (currentRule (gameStateRef s)) (previousRule (gameStateRef s)) (stats s) ->
  action s s' ->
  rulesInv (currentRule (gameStateRef s')) (previousRule (gameStateRef s')) (stats s').
Proof.
  intros [H1 H2] Hact. by_action Hact.
  - now split.
  - destruct (Game3DFacts.handleCardSelection_evaluated refCard target s Ht Ha)
      as (Hr & _ & _ & Hst & _).
    cbn zeta in Hst. rewrite Hr, Hst. unfold rulesInv.
    cbn [ruleChanges currentRule previousRule]. now split.
  - now split.
  - destruct (changeRule_timer tq l s) as (r & Hneq & _ & Hr & Hst & _).
    cbn zeta in Hr, Hst. rewrite Hr, Hst. unfold rulesInv.
    cbn [ruleChanges currentRule previousRule]. split.
    + intros E. inversion E. congruence.
    + split; [discriminate | lia].
  - destruct (nextRound_timer tm s) as (Hr & Hst & _). cbn zeta in Hr, Hst.
    rewrite Hr, Hst. cbn [currentRule previousRule]. now split.
Qed.

Lemma loggedRules_app (l1 l2 : list LogEntry) :
  loggedRules (l1 ++ l2) = loggedRules l1 ++ loggedRules l2.
Proof. apply flat_map_app. Qed.

Lemma processedLines_app (l1 l2 : list LogEntry) :
  processedLines (l1 ++ l2) = processedLines l1 + processedLines l2.
Proof. unfold processedLines. now rewrite filter_app, length_app. Qed.

Lemma console_kept_gl (s s' : State) :
  (length (loggedRules (console s)) = ruleChanges (stats s) /\
   last (loggedRules (console s)) ByColor = currentRule (gameStateRef s) /\
   processedLines (console s) = attempts (stats s)) ->
  action s s' ->
  length (loggedRules (console s')) = ruleChanges (stats s') /\
  last (loggedRules (console s')) ByColor = currentRule (gameStateRef s') /\
  processedLines (console s') = attempts (stats s').
Proof.
  intros (H1 & H2 & H3) Hact. by_action Hact.
  - cbn [console consoleLog stats gameStateRef].
    rewrite loggedRules_app, processedLines_app.
    destruct e; try discriminate; cbn; rewrite app_nil_r, Nat.add_0_r; auto.
  - destruct (Game3DFacts.handleCardSelection_evaluated refCard target s Ht Ha)
      as (Hr & _ & _ & Hst & _ & _ & _ & _ & Hco & _).
    cbn zeta in Hst, Hco. rewrite Hr, Hst, Hco, loggedRules_app, processedLines_app.
    cbn. rewrite app_nil_r. repeat split; auto; lia.
  - auto.
  - destruct (changeRule_timer tq l s) as (r & _ & _ & Hr & Hst & Hco & _).
    cbn zeta in Hr, Hst, Hco. rewrite Hr, Hst, Hco, loggedRules_app, processedLines_app.
    cbn [loggedRules flat_map app processedLines filter length ruleChanges attempts
         currentRule]. rewrite length_app, last_last. cbn [length].
    repeat split; lia.
  - destruct (nextRound_timer tm s) as (Hr & Hst & Hco & _). cbn zeta in Hr, Hst, Hco.
    rewrite Hr, Hst, Hco. cbn [currentRule]. auto.
Qed.

Lemma targetValid_kept_gl (s s' : State) : targetValid s -> action s s' -> targetValid s'.
Proof.
  intros (u & Hu & Hnum) Hact. by_action Hact; clear Hact.
  - exists u. split; [exact Hu | exact Hnum].
  - destruct (Game3DFacts.handleCardSelection_evaluated refCard target s Ht Ha)
      as (_ & Ht2 & _).
    exists target. split; [exact Ht2 | congruence].
  - exists u. split; [exact Hu | exact Hnum].
  - destruct (changeRule_timer tq l s) as (r & _ & _ & _ & _ & _ & E & _).
    cbn zeta in E. exists u. rewrite E. split; [exact Hu | exact Hnum].
  - apply (nextRound_timer tm s).
Qed.

Lemma sceneValid_kept (s s' : State) : sceneValid s -> action s s' -> sceneValid s'.
Proof.
  intros (Hready & Hrefs & Hclick) Hact. by_action Hact; clear Hact.
  - split; [exact Hready|]. split; [exact Hrefs | exact Hclick].
  - destruct (Game3DFacts.handleCardSelection_evaluated refCard target s Ht Ha)
      as (_ & _ & _ & _ & _ & _ & _ & _ & _ & E1 & E2 & E3).
    unfold sceneValid. rewrite E1, E2, E3.
    split; [exact Hready|]. split; [exact Hrefs | exact Hclick].
  - split; [exact Hready|]. split; [exact Hrefs | exact Hclick].
  - destruct (changeRule_timer tq l s) as (r & _ & _ & _ & _ & _ & _ & E1 & E2 & E3).
    cbn zeta in E1, E2, E3. unfold sceneValid. rewrite E1, E2, E3.
    split; [exact Hready|]. split; [exact Hrefs | exact Hclick].
  - destruct (nextRound_timer tm s) as (_ & _ & _ & E1 & E2 & _ & E3).
    cbn zeta in E1, E2, E3. unfold sceneValid. rewrite E1, E2, (E3 Hready).
    split; [exact Hready|]. split; [exact Hrefs | reflexivity].
Qed.

End Game3DStepFacts.

(* ------------------------------------------------------------------ *)
(** ** Further properties of the two components *)

Lemma reachable_click_dom (refCard : Card nat) (s : Game2D.State) :
  Game2D.reachable s -> Game2D.reachable (Game2D.click refCard s).
Proof. exact (Game2D.reach_step (Game2D.Click refCard) s). Qed.

Lemma reachable_wait_dom (dt : nat) (s : Game2D.State) :
  Game2D.reachable s -> Game2D.reachable (Game2D.wait dt s).
Proof. exact (Game2D.reach_step (Game2D.Wait dt) s). Qed.

Lemma reachable_rounds_dom (cs : list (Card nat)) :
  forall s, Game2D.reachable s -> Game2D.reachable (Game2D.rounds cs s).
Proof.
  induction cs as [|c cs IH]; intros s Hr; [exact Hr|].
  cbn [Game2D.rounds]. apply IH. unfold Game2D.round.
  now apply reachable_wait_dom, reachable_click_dom.
Qed.

Lemma reachable_select_gl (refCard : Card string) (s : Game3D.State) :
  Game3D.reachable s -> Game3D.reachable (Game3D.handleCardSelection refCard s).
Proof. exact (Game3D.reach_step (Game3D.Select refCard) s). Qed.

Lemma reachable_wait_gl (dt : nat) (s : Game3D.State) :
  Game3D.reachable s -> Game3D.reachable (Game3D.wait dt s).
Proof. exact (Game3D.reach_step (Game3D.Wait dt) s). Qed.

Lemma reachable_rounds_gl (cs : list (Card string)) :
  forall s, Game3D.reachable s -> Game3D.reachable (Game3D.rounds cs s).
Proof.
  induction cs as [|c cs IH]; intros s Hr; [exact Hr|].
  cbn [Game3D.rounds]. apply IH. unfold Game3D.round.
  now apply reachable_wait_gl, reachable_select_gl.
Qed.

(** X1.  The statistics of the DOM component, in every state of a
    session: the correct answers and the perseverative errors together are
    at most the attempts; every rule change has used up five correct
    answers that the streak no longer counts; the streak shown between
    events is below five; and at most one timer is pending. *)
Theorem X1_dom_statistics_invariant :
  forall s : Game2D.State,
    Game2D.reachable s ->
    correct (Game2D.stats s) + perseverativeErrors (Game2D.stats s)
      <= attempts (Game2D.stats s) /\
    CARDS_TO_CHANGE_RULE * ruleChanges (Game2D.stats s) + streak (Game2D.stats s)
      <= correct (Game2D.stats s) /\
    streak (Game2D.stats s) < CARDS_TO_CHANGE_RULE /\
    length (Game2D.timers s) <= 1.
Proof.
  intros s Hr.
  assert (Hinv : statsInv (Game2D.stats s)).
  { revert s Hr. apply Game2DStepFacts.reachable_keep_dom.
    - intros t0 g. rewrite Game2DStepFacts.mount_eq.
      destruct (Game2DFacts.generateNewCard_frame_dom (Game2D.initialState t0 g))
        as (_ & _ & _ & -> & _).
      split; cbn; lia.
    - intros a b. apply Game2DStepFacts.statsInv_kept_dom. }
  destruct Hinv as [H1 H2].
  destruct (Game2DFacts.reachable_wf_dom s Hr) as (_ & Hs & Hf).
  split; [exact H1|]. split; [exact H2|]. split; [exact Hs|].
  destruct (Game2D.feedback s).
  - destruct Hf as (t0 & -> & _). cbn. lia.
  - rewrite Hf. cbn. lia.
Qed.

(** The statistics after a selection in a fresh session. *)
Lemma X1_witness :
  let s := Game2D.click (mkCard 3 blue star 3 large)
             (Game2D.mount (Game2D.initialState 0 zeroRandom)) in
  Game2D.reachable s /\
  correct (Game2D.stats s) + perseverativeErrors (Game2D.stats s)
    <= attempts (Game2D.stats s) /\
  length (Game2D.timers s) <= 1.
Proof.
  cbv zeta.
  assert (Hr : Game2D.reachable
                 (Game2D.click (mkCard 3 blue star 3 large)
                    (Game2D.mount (Game2D.initialState 0 zeroRandom))))
    by (apply reachable_click_dom, Game2D.reach_mount).
  destruct (X1_dom_statistics_invariant _ Hr) as (H1 & _ & _ & H4).
  split; [exact Hr|]. split; [exact H1 | exact H4].
Defined.

(** X2.  The statistics of the three.js component, in every state of a
    session: the same bounds on the counters; the streak reaches five only
    while the rule change it caused is pending; at most two timers are
    pending; and whenever no selection is being processed no timer is
    pending and the streak is below five, so the delayed rule change has
    always run before the next selection can be evaluated. *)
Theorem X2_gl_statistics_invariant :
  forall s : Game3D.State,
    Game3D.reachable s ->
    correct (Game3D.stats s) + perseverativeErrors (Game3D.stats s)
      <= attempts (Game3D.stats s) /\
    CARDS_TO_CHANGE_RULE * ruleChanges (Game3D.stats s) + streak (Game3D.stats s)
      <= correct (Game3D.stats s) /\
    streak (Game3D.stats s) <= CARDS_TO_CHANGE_RULE /\
    (streak (Game3D.stats s) = CARDS_TO_CHANGE_RULE <->
     exists due, In (due, Game3D.ChangeRule) (Game3D.timers s)) /\
    length (Game3D.timers s) <= 2 /\
    (Game3D.isAnimating (Game3D.gameStateRef s) = false ->
     Game3D.timers s = [] /\ streak (Game3D.stats s) < CARDS_TO_CHANGE_RULE).
Proof.
  intros s Hr.
  assert (Hinv : statsInv (Game3D.stats s)).
  { revert s Hr. apply Game3DStepFacts.reachable_keep_gl.
    - intros t0 g ids. unfold Game3D.mount.
      rewrite (Game3DFacts.generateNewCard_pair (Game3D.initialState t0 g ids)).
      destruct (Game3DFacts.generateNewCard_frame_gl (Game3D.initialState t0 g ids))
        as (_ & Hst & _).
      cbn zeta in Hst.
      destruct (Game3DFacts.sceneEffect_frame
                  (Game3D.withSceneReady true
                     (Game3D.setTargetCard
                        (Some (fst (Game3D.generateNewCard (Game3D.initialState t0 g ids))))
                        (snd (Game3D.generateNewCard (Game3D.initialState t0 g ids))))))
        as (_ & E & _).
      rewrite E. cbn [Game3D.stats Game3D.withSceneReady Game3D.setTargetCard].
      rewrite Hst. split; cbn; lia.
    - intros a b. apply Game3DStepFacts.statsInv_kept_gl. }
  destruct Hinv as [H1 H2].
  destruct (Game3DFacts.reachable_wf_gl s Hr) as (_ & _ & Hb & Hl).
  unfold Game3DProps.streakBound in Hb.
  split; [exact H1|]. split; [exact H2|].
  destruct (Game3D.isAnimating (Game3D.gameStateRef s)).
  - destruct Hl as (t0 & _ & _ & [Htm | (Htm & _)]); rewrite Htm in *.
    + split; [lia|]. split; [|split; [cbn; lia | discriminate]].
      split; [lia|]. intros (due & [E | []]). discriminate.
    + split; [lia|]. split; [|split; [cbn; lia | discriminate]].
      split; [|exact (fun _ => Hb)]. intros _. eexists. left. reflexivity.
  - rewrite Hl in *. split; [lia|]. split; [|split; [cbn; lia | auto]].
    split; [lia|]. intros (due & []).
Qed.

(** The statistics right after the fifth correct selection of a session,
    while the rule change is pending. *)
Lemma X2_witness :
  let c := mkCard "u"%string red circle 1 small in
  let s := Game3D.handleCardSelection c
             (Game3D.rounds [c; c; c; c]
                (Game3D.mount (Game3D.initialState 0 zeroRandom countingUuid))) in
  Game3D.reachable s /\
  streak (Game3D.stats s) = CARDS_TO_CHANGE_RULE /\
  exists due, In (due, Game3D.ChangeRule) (Game3D.timers s).
Proof.
  cbv zeta.
  set (c := mkCard "u"%string red circle 1 small).
  assert (Hr : Game3D.reachable
                 (Game3D.handleCardSelection c
                    (Game3D.rounds [c; c; c; c]
                       (Game3D.mount (Game3D.initialState 0 zeroRandom countingUuid))))).
  { apply reachable_select_gl, reachable_rounds_gl, Game3D.reach_mount. }
  destruct (X2_gl_statistics_invariant _ Hr) as (_ & _ & _ & H4 & _).
  assert (H5 : streak (Game3D.stats
                 (Game3D.handleCardSelection c
                    (Game3D.rounds [c; c; c; c]
                       (Game3D.mount (Game3D.initialState 0 zeroRandom countingUuid)))))
               = CARDS_TO_CHANGE_RULE) by (vm_compute; reflexivity).
  split; [exact Hr|]. split; [exact H5|]. apply H4. exact H5.
Defined.

(** Before the first rule change no error is perseverative. *)
Lemma firstRule_kept_dom (s s' : Game2D.State) :
  rulesInv (Game2D.currentRule s) (Game2D.previousRule s) (Game2D.stats s) /\
  (ruleChanges (Game2D.stats s) = 0 -> perseverativeErrors (Game2D.stats s) = 0) ->
  Game2DSteps.action s s' ->
  rulesInv (Game2D.currentRule s') (Game2D.previousRule s') (Game2D.stats s') /\
  (ruleChanges (Game2D.stats s') = 0 -> perseverativeErrors (Game2D.stats s') = 0).
Proof.
  intros [Hinv H0] Hact.
  split; [exact (Game2DStepFacts.rulesInv_kept_dom s s' Hinv Hact)|].
  destruct Hinv as [_ Hnone].
  destruct (Game2DStepFacts.action_cases_dom s s' Hact)
    as [(refCard & target & Ht & Hf & ->) | [(Hdue & ->) | (_ & _ & -> & _)]].
  - destruct (Game2DFacts.handleCardClick_evaluated refCard target s Ht Hf)
      as (_ & _ & _ & _ & Hst & _).
    cbn zeta in Hst. rewrite Hst. cbn [ruleChanges perseverativeErrors].
    intros Hz. rewrite (proj2 Hnone Hz), (H0 Hz).
    unfold Game2D.isPerseverative. now rewrite andb_false_r.
  - rewrite Game2DFacts.changeRule_stats_dom. cbn [ruleChanges]. lia.
  - exact H0.
Qed.

Lemma firstRule_kept_gl (s s' : Game3D.State) :
  rulesInv (Game3D.currentRule (Game3D.gameStateRef s))
           (Game3D.previousRule (Game3D.gameStateRef s)) (Game3D.stats s) /\
  (ruleChanges (Game3D.stats s) = 0 -> perseverativeErrors (Game3D.stats s) = 0) ->
  Game3DSteps.action s s' ->
  rulesInv (Game3D.currentRule (Game3D.gameStateRef s'))
           (Game3D.previousRule (Game3D.gameStateRef s')) (Game3D.stats s') /\
  (ruleChanges (Game3D.stats s') = 0 -> perseverativeErrors (Game3D.stats s') = 0).
Proof.
  intros [Hinv H0] Hact.
  split; [exact (Game3DStepFacts.rulesInv_kept_gl s s' Hinv Hact)|].
  destruct Hinv as [_ Hnone].
  destruct (Game3DStepFacts.action_cases_gl _ _ Hact)
    as [(e & He & ->)
       | [(refCard & target & Ht & Ha & ->)
         | [(t & ->) | [(tq & l & Hdue & ->) | (tm & ->)]]]]; clear Hact.
  - exact H0.
  - destruct (Game3DFacts.handleCardSelection_evaluated refCard target s Ht Ha)
      as (_ & _ & _ & Hst & _).
    cbn zeta in Hst. rewrite Hst. cbn [ruleChanges perseverativeErrors].
    intros Hz. rewrite (proj2 Hnone Hz), (H0 Hz).
    unfold Game3D.isPerseverative. now rewrite andb_false_r.
  - exact H0.
  - destruct (Game3DStepFacts.changeRule_timer tq l s) as (r & _ & _ & _ & Hst & _).
    cbn zeta in Hst. rewrite Hst. cbn [ruleChanges]. lia.
  - destruct (Game3DStepFacts.nextRound_timer tm s) as (_ & Hst & _).
    cbn zeta in Hst. rewrite Hst. exact H0.
Qed.

(** X3.  The two rules of a session, in every state of either component:
    the previous rule is never the current rule, there is a previous rule
    exactly when at least one rule change has been counted, and as long
    as none has been counted no perseverative error has been counted
    either. *)
Theorem X3_previous_rule_differs :
  (forall s : Game2D.State,
      Game2D.reachable s ->
      Game2D.previousRule s <> Some (Game2D.currentRule s) /\
      (Game2D.previousRule s = None <-> ruleChanges (Game2D.stats s) = 0) /\
      (ruleChanges (Game2D.stats s) = 0 -> perseverativeErrors (Game2D.stats s) = 0)) /\
  (forall s : Game3D.State,
      Game3D.reachable s ->
      Game3D.previousRule (Game3D.gameStateRef s) <>
        Some (Game3D.currentRule (Game3D.gameStateRef s)) /\
      (Game3D.previousRule (Game3D.gameStateRef s) = None <->
       ruleChanges (Game3D.stats s) = 0) /\
      (ruleChanges (Game3D.stats s) = 0 -> perseverativeErrors (Game3D.stats s) = 0)).
Proof.
  split.
  - intros s Hr.
    enough (H : rulesInv (Game2D.currentRule s) (Game2D.previousRule s) (Game2D.stats s) /\
                (ruleChanges (Game2D.stats s) = 0 ->
                 perseverativeErrors (Game2D.stats s) = 0))
      by (destruct H as [[H1 H2] H3]; auto).
    revert s Hr. apply Game2DStepFacts.reachable_keep_dom.
    + intros t0 g. rewrite Game2DStepFacts.mount_eq.
      destruct (Game2DFacts.generateNewCard_frame_dom (Game2D.initialState t0 g))
        as (-> & -> & _ & -> & _).
      split; [|reflexivity]. split; [discriminate | split; reflexivity].
    + exact firstRule_kept_dom.
  - intros s Hr.
    enough (H : rulesInv (Game3D.currentRule (Game3D.gameStateRef s))
                         (Game3D.previousRule (Game3D.gameStateRef s)) (Game3D.stats s) /\
                (ruleChanges (Game3D.stats s) = 0 ->
                 perseverativeErrors (Game3D.stats s) = 0))
      by (destruct H as [[H1 H2] H3]; auto).
    revert s Hr. apply Game3DStepFacts.reachable_keep_gl.
    + intros t0 g ids. split; [|reflexivity].
      split; [discriminate | split; reflexivity].
    + exact firstRule_kept_gl.
Qed.

(** The rules after the first switch of a session of each component. *)
Lemma X3_witness :
  (let s := Game2D.rounds (repeat (mkCard 1 red circle 1 small) 5)
              (Game2D.mount (Game2D.initialState 0 zeroRandom)) in
   Game2D.reachable s /\
   Game2D.previousRule s <> Some (Game2D.currentRule s) /\
   (Game2D.previousRule s = None <-> ruleChanges (Game2D.stats s) = 0)) /\
  (let s := Game3D.mount (Game3D.initialState 0 zeroRandom countingUuid) in
   Game3D.reachable s /\
   Game3D.previousRule (Game3D.gameStateRef s) <>
     Some (Game3D.currentRule (Game3D.gameStateRef s))).
Proof.
  cbv zeta.
  assert (Hr : Game2D.reachable
                 (Game2D.rounds (repeat (mkCard 1 red circle 1 small) 5)
                    (Game2D.mount (Game2D.initialState 0 zeroRandom))))
    by apply reachable_rounds_dom, Game2D.reach_mount.
  split.
  - destruct (proj1 X3_previous_rule_differs _ Hr) as (H1 & H2 & _).
    split; [exact Hr|]. split; [exact H1 | exact H2].
  - split; [apply Game3D.reach_mount|].
    exact (proj1 (proj2 X3_previous_rule_differs _
                    (Game3D.reach_mount 0 zeroRandom countingUuid))).
Defined.

(** X4.  The console is a record of the hidden rule.  In every state of a
    session the number of rule-change lines is the number of rule changes
    counted, and the rule named by the last of them (colour, the starting
    rule, if there is none) is the current rule; in the three.js component
    the number of lines written when a selection is processed is the
    number of attempts. *)
Theorem X4_console_records_the_rule :
  (forall s : Game2D.State,
      Game2D.reachable s ->
      length (Game2D.console s) = ruleChanges (Game2D.stats s) /\
      last (Game2DSteps.loggedRules (Game2D.console s)) ByColor = Game2D.currentRule s) /\
  (forall s : Game3D.State,
      Game3D.reachable s ->
      length (Game3DSteps.loggedRules (Game3D.console s)) = ruleChanges (Game3D.stats s) /\
      last (Game3DSteps.loggedRules (Game3D.console s)) ByColor =
        Game3D.currentRule (Game3D.gameStateRef s) /\
      Game3DSteps.processedLines (Game3D.console s) = attempts (Game3D.stats s)).
Proof.
  split.
  - apply (Game2DStepFacts.reachable_keep_dom
             (fun s => length (Game2D.console s) = ruleChanges (Game2D.stats s) /\
                       last (Game2DSteps.loggedRules (Game2D.console s)) ByColor =
                       Game2D.currentRule s)).
    + intros t0 g. rewrite Game2DStepFacts.mount_eq.
      destruct (Game2DFacts.generateNewCard_frame_dom (Game2D.initialState t0 g))
        as (-> & _ & _ & -> & _ & _ & ->).
      split; reflexivity.
    + intros a b. apply Game2DStepFacts.console_kept_dom.
  - apply (Game3DStepFacts.reachable_keep_gl
             (fun s =>
                length (Game3DSteps.loggedRules (Game3D.console s)) =
                  ruleChanges (Game3D.stats s) /\
                last (Game3DSteps.loggedRules (Game3D.console s)) ByColor =
                  Game3D.currentRule (Game3D.gameStateRef s) /\
                Game3DSteps.processedLines (Game3D.console s) = attempts (Game3D.stats s))).
    + intros t0 g ids. repeat split.
    + intros a b. apply Game3DStepFacts.console_kept_gl.
Qed.

(** The console after the first switch of a session of the DOM
    component. *)
Lemma X4_witness :
  let s := Game2D.rounds (repeat (mkCard 1 red circle 1 small) 5)
             (Game2D.mount (Game2D.initialState 0 zeroRandom)) in
  Game2D.reachable s /\
  length (Game2D.console s) = ruleChanges (Game2D.stats s) /\
  last (Game2DSteps.loggedRules (Game2D.console s)) ByColor = Game2D.currentRule s.
Proof.
  cbv zeta.
  assert (Hr : Game2D.reachable
                 (Game2D.rounds (repeat (mkCard 1 red circle 1 small) 5)
                    (Game2D.mount (Game2D.initialState 0 zeroRandom))))
    by apply reachable_rounds_dom, Game2D.reach_mount.
  split; [exact Hr|]. exact (proj1 X4_console_records_the_rule _ Hr).
Defined.

(** Whatever the target card and the rule, one of the four reference
    faces matches. *)
Lemma reference_match_exists {I J : Type} (i1 i2 i3 i4 : J) (target : Card I) (r : Rule) :
  1 <= number target <= 4 ->
  exists k refCard,
    nth_error [ mkCard i1 red circle 1 small; mkCard i2 green triangle 2 medium;
                mkCard i3 blue star 3 large; mkCard i4 yellow square 4 medium ] k
      = Some refCard /\
    checkMatch target refCard r = true.
Proof.
  destruct target as [i c sh n z]. cbn [number]. intros Hn.
  destruct r.
  - destruct c; [exists 0 | exists 2 | exists 1 | exists 3];
      eexists; (split; [reflexivity|reflexivity]).
  - destruct sh; [exists 0 | exists 3 | exists 1 | exists 2];
      eexists; (split; [reflexivity|reflexivity]).
  - assert (Hc : n = 1 \/ n = 2 \/ n = 3 \/ n = 4) by lia.
    destruct Hc as [-> | [-> | [-> | ->]]];
      [exists 0 | exists 1 | exists 2 | exists 3];
      eexists; (split; [reflexivity|reflexivity]).
  - destruct z; [exists 0 | exists 1 | exists 2];
      eexists; (split; [reflexivity|reflexivity]).
Qed.

Lemma reachable_targetValid_dom (s : Game2D.State) :
  Game2D.reachable s -> Game2DSteps.targetValid s.
Proof.
  revert s. apply Game2DStepFacts.reachable_keep_dom.
  - intros t0 g. rewrite Game2DStepFacts.mount_eq.
    destruct (Game2DFacts.generateNewCard_target (Game2D.initialState t0 g))
      as (card & Hc & _ & Hn).
    exists card. split; [exact Hc | exact Hn].
  - intros a b. apply Game2DStepFacts.targetValid_kept_dom.
Qed.

Lemma mount_fields_gl (t0 : nat) (g : MathRandom) (ids : UuidSource) :
  let s := Game3D.mount (Game3D.initialState t0 g ids) in
  Game3DSteps.targetValid s /\ Game3DSteps.sceneValid s.
Proof.
  cbv zeta. split.
  - eexists. split; [reflexivity|]. cbn [number]. apply generated_number.
  - split; [reflexivity|]. split; [|reflexivity].
    eexists _, _, _, _. reflexivity.
Qed.

Lemma reachable_targetValid_gl (s : Game3D.State) :
  Game3D.reachable s -> Game3DSteps.targetValid s.
Proof.
  revert s. apply Game3DStepFacts.reachable_keep_gl.
  - intros t0 g ids. apply mount_fields_gl.
  - intros a b. apply Game3DStepFacts.targetValid_kept_gl.
Qed.

Lemma reachable_sceneValid (s : Game3D.State) :
  Game3D.reachable s -> Game3DSteps.sceneValid s.
Proof.
  revert s. apply Game3DStepFacts.reachable_keep_gl.
  - intros t0 g ids. apply mount_fields_gl.
  - intros a b. apply Game3DStepFacts.sceneValid_kept.
Qed.

(** A click on a reference mesh of a ready scene is the selection of its
    card, after two console lines. *)
Lemma handleCanvasClick_reference (x y : nat) (refCard : Card string)
      (rest : list Game3D.Mesh) (s : Game3D.State) :
  Game3D.sceneReady s = true ->
  Game3D.handleCanvasClick x y (Game3DSteps.referenceMesh refCard :: rest) s =
  Game3D.handleCardSelection refCard
    (Game3D.consoleLog (Game3D.LogTouched (Some (Game3D.mkUserData true refCard)))
       (Game3D.consoleLog (Game3D.LogClickDetected x y) s)).
Proof.
  intros Hs. unfold Game3D.handleCanvasClick. rewrite Hs. reflexivity.
Qed.

(** X5.  Every trial can be answered correctly.  In every state of a
    session that accepts a selection, a target card with one to four
    symbols is shown and one of the four reference cards matches it
    under the hidden rule, whatever that rule is: in the DOM component a
    click on its button shows the correct feedback and counts one more
    correct answer, and in the three.js component so does a click whose
    ray cast hits its mesh first. *)
Theorem X5_a_correct_answer_exists :
  (forall s : Game2D.State,
      Game2D.reachable s -> Game2D.feedback s = None ->
      exists i target,
        i < length Game2D.referenceCards /\
        Game2D.targetCard s = Some target /\ 1 <= number target <= 4 /\
        Game2D.feedback (Game2D.clickButton i s) = Some Correct /\
        correct (Game2D.stats (Game2D.clickButton i s)) = correct (Game2D.stats s) + 1) /\
  (forall s : Game3D.State,
      Game3D.reachable s -> Game3D.isAnimating (Game3D.gameStateRef s) = false ->
      exists refCard target,
        In refCard (Game3D.referenceCards s) /\
        In (Game3DSteps.referenceMesh refCard) (Game3D.clickableObjects s) /\
        Game3D.targetCard s = Some target /\ 1 <= number target <= 4 /\
        forall (x y : nat) (rest : list Game3D.Mesh),
          let s' := Game3D.handleCanvasClick x y
                      (Game3DSteps.referenceMesh refCard :: rest) s in
          Game3D.feedback s' = Some Correct /\
          correct (Game3D.stats s') = correct (Game3D.stats s) + 1).
Proof.
  split.
  - intros s Hr Hf.
    destruct (reachable_targetValid_dom s Hr) as (target & Ht & Hn).
    destruct (reference_match_exists 1 2 3 4 target (Game2D.currentRule s) Hn)
      as (k & refCard & Hk & Hm).
    fold Game2D.referenceCards in Hk.
    exists k, target.
    split; [apply nth_error_Some; rewrite Hk; discriminate|].
    split; [exact Ht|]. split; [exact Hn|].
    assert (Hb : Game2D.clickButton k s = Game2D.click refCard s)
      by (unfold Game2D.clickButton; rewrite Hk, Hf; reflexivity).
    rewrite Hb. split.
    + rewrite (Game2DFacts.click_evaluated refCard target s Ht Hf).
      destruct (Game2DFacts.handleCardClick_evaluated refCard target s Ht Hf)
        as (_ & _ & _ & Hfb & _).
      rewrite Hm in Hfb.
      destruct (streakDue (streak (Game2D.stats (Game2D.handleCardClick refCard s))));
        [|exact Hfb].
      destruct (Game2DFacts.changeRule_frame_dom (Game2D.handleCardClick refCard s))
        as (_ & -> & _). exact Hfb.
    + pose proof (Game2DFacts.click_correct refCard target s Ht Hf Hm) as Hc.
      cbv zeta in Hc.
      destruct (streakDue (streak (Game2D.stats s) + 1)).
      * destruct Hc as (_ & _ & _ & -> & _). reflexivity.
      * destruct Hc as (_ & _ & -> & _). reflexivity.
  - intros s Hr Ha.
    destruct (reachable_targetValid_gl s Hr) as (target & Ht & Hn).
    destruct (reachable_sceneValid s Hr) as (Hready & (i1 & i2 & i3 & i4 & Hrefs) & Hcl).
    destruct (reference_match_exists i1 i2 i3 i4 target
                (Game3D.currentRule (Game3D.gameStateRef s)) Hn)
      as (k & refCard & Hk & Hm).
    fold (Game3D.makeReferenceCards i1 i2 i3 i4) in Hk. rewrite <- Hrefs in Hk.
    assert (Hin : In refCard (Game3D.referenceCards s))
      by (apply nth_error_In with (n := k); exact Hk).
    exists refCard, target.
    split; [exact Hin|].
    split; [rewrite Hcl; apply in_map; exact Hin|].
    split; [exact Ht|]. split; [exact Hn|].
    intros x y rest. cbv zeta.
    rewrite (handleCanvasClick_reference x y refCard rest s Hready).
    destruct (Game3DFacts.handleCardSelection_evaluated refCard target
                (Game3D.consoleLog
                   (Game3D.LogTouched (Some (Game3D.mkUserData true refCard)))
                   (Game3D.consoleLog (Game3D.LogClickDetected x y) s)) Ht Ha)
      as (_ & _ & Hfb & Hst & _).
    cbn [Game3D.gameStateRef Game3D.consoleLog Game3D.stats] in Hfb, Hst.
    rewrite Hm in Hfb, Hst. rewrite Hst. split; [exact Hfb | reflexivity].
Qed.

(** The first trial of a session of each component. *)
Lemma X5_witness :
  (let s := Game2D.mount (Game2D.initialState 0 zeroRandom) in
   Game2D.reachable s /\ Game2D.feedback s = None /\
   exists i target,
     i < length Game2D.referenceCards /\
     Game2D.targetCard s = Some target /\ 1 <= number target <= 4 /\
     Game2D.feedback (Game2D.clickButton i s) = Some Correct /\
     correct (Game2D.stats (Game2D.clickButton i s)) = correct (Game2D.stats s) + 1) /\
  (let s := Game3D.mount (Game3D.initialState 0 zeroRandom countingUuid) in
   Game3D.reachable s /\ Game3D.isAnimating (Game3D.gameStateRef s) = false /\
   exists refCard target,
     In refCard (Game3D.referenceCards s) /\
     In (Game3DSteps.referenceMesh refCard) (Game3D.clickableObjects s) /\
     Game3D.targetCard s = Some target /\ 1 <= number target <= 4 /\
     forall (x y : nat) (rest : list Game3D.Mesh),
       let s' := Game3D.handleCanvasClick x y
                   (Game3DSteps.referenceMesh refCard :: rest) s in
       Game3D.feedback s' = Some Correct /\
       correct (Game3D.stats s') = correct (Game3D.stats s) + 1).
Proof.
  split.
  - split; [apply Game2D.reach_mount|]. split; [reflexivity|].
    apply (proj1 X5_a_correct_answer_exists);
      [apply Game2D.reach_mount | reflexivity].
  - split; [apply Game3D.reach_mount|]. split; [reflexivity|].
    apply (proj2 X5_a_correct_answer_exists);
      [apply Game3D.reach_mount | reflexivity].
Defined.

(** X10.  The scene of the three.js component, in every state of a
    session: the scene has been created, the reference cards are the four
    fixed faces (only their identifiers vary from session to session), and
    the clickable objects are exactly their four meshes, in order, each
    flagged as a reference and carrying its card.  The reference cards
    never change during a session. *)
Theorem X10_scene_holds_the_reference_cards :
  forall s : Game3D.State,
    Game3D.reachable s ->
    Game3D.sceneReady s = true /\
    (exists i1 i2 i3 i4,
        Game3D.referenceCards s = Game3D.makeReferenceCards i1 i2 i3 i4) /\
    Game3D.clickableObjects s =
      map (fun card => Game3D.mkMesh (Some (Game3D.mkUserData true card)))
          (Game3D.referenceCards s) /\
    length (Game3D.clickableObjects s) = 4 /\
    forall es : list Game3D.Event,
      Game3D.referenceCards (Game3D.run es s) = Game3D.referenceCards s.
Proof.
  intros s Hr.
  destruct (reachable_sceneValid s Hr) as (Hready & (i1 & i2 & i3 & i4 & Hrefs) & Hcl).
  split; [exact Hready|].
  split; [exists i1, i2, i3, i4; exact Hrefs|].
  split; [exact Hcl|].
  split; [rewrite Hcl, length_map, Hrefs; reflexivity|].
  intros es. revert s Hr Hready i1 i2 i3 i4 Hrefs Hcl.
  induction es as [|e es IH]; intros s Hr Hready i1 i2 i3 i4 Hrefs Hcl; [reflexivity|].
  cbn [Game3D.run fold_left]. fold (Game3D.run es (Game3D.step e s)).
  assert (Hr' : Game3D.reachable (Game3D.step e s)) by (apply Game3D.reach_step; exact Hr).
  destruct (reachable_sceneValid _ Hr') as (Hready' & (j1 & j2 & j3 & j4 & Hrefs') & Hcl').
  rewrite (IH (Game3D.step e s) Hr' Hready' j1 j2 j3 j4 Hrefs' Hcl').
  clear IH.
  assert (Hw : Game3DProps.wf s) by (apply Game3DFacts.reachable_wf_gl; exact Hr).
  pose proof (Game3DStepFacts.step_actions_gl e s Hw) as Hacts.
  revert Hacts. generalize (Game3D.step e s). intros s' Hacts.
  clear - Hacts.
  induction Hacts as [s|s s1 s2 Hact _ IH]; [reflexivity|].
  rewrite IH. clear IH.
  destruct Hact.
  - reflexivity.
  - unfold Game3D.handleCardSelection. rewrite H, H0.
    destruct (streakDue _); reflexivity.
  - reflexivity.
  - destruct (Game3DFacts.changeRule_frame_gl
                (Game3D.withNow tq (Game3D.withTimers l s))) as (_ & _ & -> & _).
    reflexivity.
  - destruct (Game3DFacts.nextRound_fields
                (Game3D.withNow tm (Game3D.withTimers [] s)))
      as (_ & _ & _ & _ & H & _).
    exact H.
Qed.

(** The scene after the first selection of a session. *)
Lemma X10_witness :
  let s := Game3D.handleCardSelection (mkCard "u"%string red circle 1 small)
             (Game3D.mount (Game3D.initialState 0 zeroRandom countingUuid)) in
  Game3D.reachable s /\
  Game3D.sceneReady s = true /\
  length (Game3D.clickableObjects s) = 4.
Proof.
  cbv zeta.
  assert (Hr : Game3D.reachable
                 (Game3D.handleCardSelection (mkCard "u"%string red circle 1 small)
                    (Game3D.mount (Game3D.initialState 0 zeroRandom countingUuid))))
    by (apply reachable_select_gl, Game3D.reach_mount).
  destruct (X10_scene_holds_the_reference_cards _ Hr) as (H1 & _ & _ & H4 & _).
  split; [exact Hr|]. split; [exact H1 | exact H4].
Defined.

(** *** What [Math.random] can make the two random functions return *)

Lemma draw_color (c : Color) :
  randomElement red colors (fraction (colorIndex c) 4) = c.
Proof. destruct c; reflexivity. Qed.

Lemma draw_shape (sh : Shape) :
  randomElement circle shapes (fraction (shapeIndex sh) 4) = sh.
Proof. destruct sh; reflexivity. Qed.

Lemma draw_size (z : Size) :
  randomElement small sizes (fraction (sizeIndex z) 3) = z.
Proof. destruct z; reflexivity. Qed.

Lemma draw_number (n : nat) :
  1 <= n <= 4 -> floorTimes (fraction (n - 1) 4) 4 + 1 = n.
Proof.
  intros Hn. assert (Hc : n = 1 \/ n = 2 \/ n = 3 \/ n = 4) by lia.
  destruct Hc as [-> | [-> | [-> | ->]]]; reflexivity.
Qed.

Lemma draw_rule (current r : Rule) :
  r <> current ->
  randomElement current (filter (fun x => ruleNeq x current) rules)
                (fraction (otherRuleIndex current r) 3) = r.
Proof. destruct current, r; intros H; try reflexivity; now elim H. Qed.

(** X6.  The cards that [generateNewCard] can produce.  In the DOM
    component they are exactly the cards whose identifier is the current
    time and whose number is between one and four, with any colour, shape
    and size; in the three.js component exactly the cards with the next
    identifier of [uuidv4] whose number is within the bounds that
    [CardSchema] sets, so that this check of [CardSchema.parse] never
    fails and no face is left out.  Each call takes four values of
    [Math.random] (and one identifier) and changes nothing else of the
    session. *)
Theorem X6_generateNewCard_produces_every_valid_card :
  (forall (s : Game2D.State) (card : Card nat),
      (exists g, Game2D.targetCard (Game2D.generateNewCard (Game2D.withRand g s)) = Some card)
      <-> id card = Game2D.now s /\ 1 <= number card <= 4) /\
  (forall (s : Game3D.State) (card : Card string),
      (exists g, fst (Game3D.generateNewCard (Game3D.withRand g s)) = card)
      <-> id card = fst (nextUuid (Game3D.uuid s)) /\ Game3D.cardSchemaOk card = true) /\
  (forall s : Game2D.State,
      calls (Game2D.rand (Game2D.generateNewCard s)) = calls (Game2D.rand s) + 4 /\
      samples (Game2D.rand (Game2D.generateNewCard s)) = samples (Game2D.rand s) /\
      Game2D.generateNewCard s =
        Game2D.setTargetCard (Game2D.targetCard (Game2D.generateNewCard s))
          (Game2D.withRand (Game2D.rand (Game2D.generateNewCard s)) s)) /\
  (forall s : Game3D.State,
      calls (Game3D.rand (snd (Game3D.generateNewCard s))) = calls (Game3D.rand s) + 4 /\
      samples (Game3D.rand (snd (Game3D.generateNewCard s))) = samples (Game3D.rand s) /\
      Game3D.uuid (snd (Game3D.generateNewCard s)) = snd (nextUuid (Game3D.uuid s)) /\
      snd (Game3D.generateNewCard s) =
        Game3D.withRand (Game3D.rand (snd (Game3D.generateNewCard s)))
          (Game3D.withUuid (Game3D.uuid (snd (Game3D.generateNewCard s))) s)).
Proof.
  split; [|split; [|split]].
  - intros s card. split.
    + intros [g Hg].
      destruct (Game2DFacts.generateNewCard_target (Game2D.withRand g s))
        as (card' & Hc & Hid & Hn).
      rewrite Hg in Hc. injection Hc as <-. split; [exact Hid | exact Hn].
    + intros [Hid Hn]. destruct card as [i c sh n z]. cbn [id number] in Hid, Hn.
      exists (drawsOfFace c sh n z).
      unfold Game2D.generateNewCard, nextRandom, drawsOfFace, scripted.
      cbn [Game2D.rand Game2D.withRand Game2D.now samples calls nth
           Game2D.setTargetCard Game2D.targetCard].
      rewrite draw_color, draw_shape, draw_size, (draw_number n Hn), Hid.
      reflexivity.
  - intros s card. split.
    + intros [g <-]. split; [reflexivity|].
      apply Game3DFacts.generateNewCard_schema.
    + intros [Hid Hok]. destruct card as [i c sh n z]. cbn [id] in Hid.
      assert (Hn : 1 <= n <= 4).
      { unfold Game3D.cardSchemaOk in Hok. cbn [number] in Hok.
        apply andb_true_iff in Hok. destruct Hok as [H1 H2].
        apply Nat.leb_le in H1. apply Nat.leb_le in H2. lia. }
      exists (drawsOfFace c sh n z).
      unfold Game3D.generateNewCard, nextRandom, drawsOfFace, scripted.
      cbn [Game3D.rand Game3D.withRand Game3D.uuid samples calls nth fst].
      rewrite draw_color, draw_shape, draw_size, (draw_number n Hn), Hid.
      reflexivity.
  - intros s. unfold Game2D.generateNewCard, nextRandom.
    cbn [Game2D.rand Game2D.setTargetCard Game2D.withRand Game2D.targetCard
         samples calls].
    split; [lia|]. split; reflexivity.
  - intros s. unfold Game3D.generateNewCard, nextRandom, nextUuid.
    cbn [Game3D.rand Game3D.withRand Game3D.withUuid Game3D.uuid samples calls snd].
    split; [lia|]. repeat split.
Qed.

(** X7.  The rules that [changeRule] can switch to are exactly the three
    rules other than the current one: the new rule is never the current
    rule, and each of the others is chosen for some value of
    [Math.random].  A call takes one value of [Math.random], records the
    old rule as the previous rule, counts the change and empties the
    streak. *)
Theorem X7_changeRule_reaches_exactly_the_other_rules :
  (forall (s : Game2D.State) (r : Rule),
      (exists g, Game2D.currentRule (Game2D.changeRule (Game2D.withRand g s)) = r)
      <-> r <> Game2D.currentRule s) /\
  (forall (s : Game3D.State) (r : Rule),
      (exists g, Game3D.currentRule
                   (Game3D.gameStateRef (Game3D.changeRule (Game3D.withRand g s))) = r)
      <-> r <> Game3D.currentRule (Game3D.gameStateRef s)) /\
  (forall s : Game2D.State,
      Game2D.previousRule (Game2D.changeRule s) = Some (Game2D.currentRule s) /\
      ruleChanges (Game2D.stats (Game2D.changeRule s)) = ruleChanges (Game2D.stats s) + 1 /\
      streak (Game2D.stats (Game2D.changeRule s)) = 0 /\
      calls (Game2D.rand (Game2D.changeRule s)) = calls (Game2D.rand s) + 1) /\
  (forall s : Game3D.State,
      Game3D.previousRule (Game3D.gameStateRef (Game3D.changeRule s)) =
        Some (Game3D.currentRule (Game3D.gameStateRef s)) /\
      Game3D.isAnimating (Game3D.gameStateRef (Game3D.changeRule s)) =
        Game3D.isAnimating (Game3D.gameStateRef s) /\
      ruleChanges (Game3D.stats (Game3D.changeRule s)) = ruleChanges (Game3D.stats s) + 1 /\
      streak (Game3D.stats (Game3D.changeRule s)) = 0 /\
      calls (Game3D.rand (Game3D.changeRule s)) = calls (Game3D.rand s) + 1).
Proof.
  split; [|split; [|split]].
  - intros s r. split.
    + intros [g <-].
      exact (proj1 (Game2DFacts.changeRule_currentRule (Game2D.withRand g s))).
    + intros Hr. exists (scripted [fraction (otherRuleIndex (Game2D.currentRule s) r) 3]).
      unfold Game2D.changeRule, nextRandom, scripted.
      cbn [Game2D.rand Game2D.withRand Game2D.currentRule samples calls nth
           Game2D.consoleLog Game2D.setStats Game2D.setCurrentRule].
      apply draw_rule. exact Hr.
  - intros s r. split.
    + intros [g <-].
      destruct (Game3DFacts.changeRule_ref (Game3D.withRand g s))
        as (newRule & Hne & _ & -> & _).
      exact Hne.
    + intros Hr.
      exists (scripted
                [fraction (otherRuleIndex (Game3D.currentRule (Game3D.gameStateRef s)) r) 3]).
      unfold Game3D.changeRule, nextRandom, scripted.
      cbn [Game3D.rand Game3D.withRand Game3D.gameStateRef Game3D.currentRule
           samples calls nth Game3D.consoleLog Game3D.setStats Game3D.withRef].
      apply draw_rule. exact Hr.
  - intros s. unfold Game2D.changeRule, nextRandom.
    cbn [Game2D.rand Game2D.withRand Game2D.currentRule Game2D.previousRule
         Game2D.stats samples calls ruleChanges streak
         Game2D.consoleLog Game2D.setStats Game2D.setCurrentRule Game2D.setPreviousRule].
    repeat split. lia.
  - intros s. unfold Game3D.changeRule, nextRandom.
    cbn [Game3D.rand Game3D.withRand Game3D.gameStateRef Game3D.currentRule
         Game3D.previousRule Game3D.isAnimating Game3D.stats samples calls
         ruleChanges streak Game3D.consoleLog Game3D.setStats Game3D.withRef].
    repeat split. lia.
Qed.

(** X8.  The effect that watches the streak, over the renders that an
    event causes in the DOM component ([dep] is the streak rendered
    before the event, [s] the state that the event's updates leave).  It
    runs [changeRule] once if the streak has changed to a positive
    multiple of five and does nothing otherwise; the streak that
    [changeRule] empties does not make it run again, and one more render
    would change nothing; afterwards the streak is never a positive
    multiple of five that differs from [dep]. *)
Theorem X8_streak_effect_runs_changeRule_at_most_once :
  forall (dep : nat) (s : Game2D.State),
    let s' := Game2D.commit dep s in
    (s' = Game2D.changeRule s <->
     streakDue (streak (Game2D.stats s)) = true /\ streak (Game2D.stats s) <> dep) /\
    (s' = s <->
     streakDue (streak (Game2D.stats s)) = false \/ streak (Game2D.stats s) = dep) /\
    Game2D.useStreakEffect
      (streak (Game2D.stats (Game2D.useStreakEffect dep s))) s' = s' /\
    (streakDue (streak (Game2D.stats s')) = true -> streak (Game2D.stats s') = dep).
Proof.
  intros dep s. cbv zeta.
  assert (Hne : Game2D.changeRule s <> s).
  { intros E. apply (f_equal (fun x => ruleChanges (Game2D.stats x))) in E.
    rewrite Game2DFacts.changeRule_stats_dom in E. cbn [ruleChanges] in E. lia. }
  split; [|split; [|split]].
  - rewrite Game2DFacts.commit_eq.
    destruct (streakDue (streak (Game2D.stats s))) eqn:Edue; cbn [andb].
    + destruct (streak (Game2D.stats s) =? dep) eqn:Edep; cbn [negb].
      * apply Nat.eqb_eq in Edep. split; [intros E; now elim Hne | intros [_ H]; now elim H].
      * apply Nat.eqb_neq in Edep. split; [now split | reflexivity].
    + split; [intros E; now elim Hne | intros [H _]; discriminate].
  - rewrite Game2DFacts.commit_eq.
    destruct (streakDue (streak (Game2D.stats s))) eqn:Edue; cbn [andb].
    + destruct (streak (Game2D.stats s) =? dep) eqn:Edep; cbn [negb].
      * apply Nat.eqb_eq in Edep. split; [now right | reflexivity].
      * apply Nat.eqb_neq in Edep.
        split; [intros E; now elim Hne | intros [H | H]; [discriminate | now elim Edep]].
    + split; [now left | reflexivity].
  - apply Game2DFacts.commit_settled.
  - rewrite Game2DFacts.commit_eq.
    destruct (streakDue (streak (Game2D.stats s))) eqn:Edue; cbn [andb].
    + destruct (streak (Game2D.stats s) =? dep) eqn:Edep; cbn [negb].
      * apply Nat.eqb_eq in Edep. intros _. exact Edep.
      * rewrite Game2DFacts.changeRule_stats_dom. cbn [streak].
        rewrite streakDue_zero. discriminate.
    + rewrite Edue. discriminate.
Qed.

(** In the three.js component the feedback is shown exactly while
    selections are locked. *)
Lemma reachable_overlay_gl (s : Game3D.State) :
  Game3D.reachable s ->
  (Game3D.feedback s = None <-> Game3D.isAnimating (Game3D.gameStateRef s) = false).
Proof.
  revert s. apply Game3DStepFacts.reachable_keep_gl.
  - intros t0 g ids. split; reflexivity.
  - intros s s' IH Hact.
    destruct (Game3DStepFacts.action_cases_gl _ _ Hact)
      as [(e & He & ->)
         | [(refCard & target & Ht & Ha & ->)
           | [(t & ->) | [(tq & l & Hdue & ->) | (tm & ->)]]]]; clear Hact.
    + exact IH.
    + destruct (Game3DFacts.handleCardSelection_evaluated refCard target s Ht Ha)
        as (Hr & _ & Hf & _).
      cbv zeta in Hr, Hf. rewrite Hr, Hf. cbn [Game3D.isAnimating].
      split; discriminate.
    + exact IH.
    + destruct (Game3DFacts.changeRule_frame_gl
                  (Game3D.withNow tq (Game3D.withTimers l s))) as (Hf & _).
      destruct (Game3DStepFacts.changeRule_timer tq l s) as (r & _ & _ & Hr & _).
      cbv zeta in Hr. rewrite Hf, Hr. cbn [Game3D.isAnimating]. exact IH.
    + destruct (Game3DFacts.nextRound_fields (Game3D.withNow tm (Game3D.withTimers [] s)))
        as (Hr & _ & Hf & _).
      cbv zeta in Hr, Hf. rewrite Hr, Hf. split; reflexivity.
Qed.

(** X11.  A session is never stuck.  From every state of a session, once
    the feedback delay has passed without a selection the component
    awaits a selection again: a target card is shown, no feedback is
    shown, no timer is pending, and (three.js component) selections are
    not locked.  In the three.js component the feedback is shown exactly
    while selections are locked, in every state. *)
Theorem X11_the_lockout_always_ends :
  (forall (s : Game2D.State) (dt : nat),
      Game2D.reachable s -> FEEDBACK_DELAY <= dt ->
      exists target, Game2DProps.awaiting (Game2D.wait dt s) target) /\
  (forall (s : Game3D.State) (dt : nat),
      Game3D.reachable s -> FEEDBACK_DELAY <= dt ->
      exists target, Game3DProps.awaiting (Game3D.wait dt s) target /\
                     Game3D.feedback (Game3D.wait dt s) = None) /\
  (forall s : Game3D.State,
      Game3D.reachable s ->
      (Game3D.feedback s = None <-> Game3D.isAnimating (Game3D.gameStateRef s) = false)).
Proof.
  split; [|split].
  - intros s dt Hr Hdt.
    apply Game2DFacts.reachable_awaiting_dom; [apply reachable_wait_dom; exact Hr|].
    destruct (Game2DFacts.reachable_wf_dom s Hr) as (_ & _ & Hw).
    destruct (Game2D.feedback s) as [f|] eqn:Ef.
    + destruct Hw as (t0 & Htm & Hnow).
      rewrite (Game2DFacts.wait_due dt (t0 + FEEDBACK_DELAY) s Htm) by lia.
      destruct (Game2DFacts.generateNewCard_frame_dom
                  (Game2D.setFeedback None
                     (Game2D.withNow (Nat.max (Game2D.now s) (t0 + FEEDBACK_DELAY))
                        (Game2D.withTimers [] s)))) as (_ & _ & Hf & _).
      exact Hf.
    + rewrite (Game2DFacts.wait_idle_dom dt s Hw). exact Ef.
  - intros s dt Hr Hdt.
    assert (Hr' : Game3D.reachable (Game3D.wait dt s)) by (apply reachable_wait_gl; exact Hr).
    assert (Ha : Game3D.isAnimating (Game3D.gameStateRef (Game3D.wait dt s)) = false).
    { destruct (Game3DFacts.reachable_wf_gl s Hr) as (_ & _ & _ & Hw).
      destruct (Game3D.isAnimating (Game3D.gameStateRef s)) eqn:Ea.
      - destruct Hw as (t0 & Hl).
        assert (Hle : t0 + FEEDBACK_DELAY <= Game3D.now s + dt)
          by (destruct Hl as (_ & Hnow & _); lia).
        exact (proj1 (Game3DFacts.wait_unlocks dt t0 s Hl Hle)).
      - rewrite (Game3DFacts.wait_idle_gl dt s Hw). exact Ea. }
    destruct (Game3DFacts.reachable_awaiting_gl _ Hr' Ha) as (target & Haw).
    exists target. split; [exact Haw|].
    apply (reachable_overlay_gl _ Hr'). exact Ha.
  - exact reachable_overlay_gl.
Qed.

(** The feedback window of the first selection of a session of the DOM
    component ends. *)
Lemma X11_witness :
  let s := Game2D.click (mkCard 3 blue star 3 large)
             (Game2D.mount (Game2D.initialState 0 zeroRandom)) in
  Game2D.reachable s /\ FEEDBACK_DELAY <= 1000 /\
  exists target, Game2DProps.awaiting (Game2D.wait 1000 s) target.
Proof.
  cbv zeta.
  assert (Hr : Game2D.reachable
                 (Game2D.click (mkCard 3 blue star 3 large)
                    (Game2D.mount (Game2D.initialState 0 zeroRandom))))
    by (apply reachable_click_dom, Game2D.reach_mount).
  assert (Hd : FEEDBACK_DELAY <= 1000) by (unfold FEEDBACK_DELAY; lia).
  split; [exact Hr|]. split; [exact Hd|].
  exact (proj1 X11_the_lockout_always_ends _ 1000 Hr Hd).
Defined.

(* ------------------------------------------------------------------ *)
(** ** What is drawn *)

Lemma sameFace_iff {I J : Type} (a : Card I) (b : Card J) :
  sameFace a b <->
  color a = color b /\ shape a = shape b /\ number a = number b /\ size a = size b.
Proof.
  split.
  - intros H.
    pose proof (H ByColor) as H1. pose proof (H ByShape) as H2.
    pose proof (H ByNumber) as H3. pose proof (H BySize) as H4.
    cbn [attr] in H1, H2, H3, H4.
    injection H1 as H1. injection H2 as H2. injection H3 as H3. injection H4 as H4.
    auto.
  - intros (H1 & H2 & H3 & H4) rule. destruct rule; cbn [attr]; congruence.
Qed.

Lemma mapWithIndex_length {A B : Type} (f : A -> nat -> B) (l : list A) :
  length (mapWithIndex f l) = length l.
Proof.
  unfold mapWithIndex. rewrite length_map, length_combine, length_seq. lia.
Qed.

Lemma renderShape_children {I : Type} (c : Card I) :
  length (Game2DView.children (Game2DView.renderShape c)) = number c.
Proof.
  unfold Game2DView.renderShape. cbn [Game2DView.children].
  now rewrite mapWithIndex_length, repeat_length.
Qed.

Lemma renderShape_eq_iff {I J : Type} (a : Card I) (b : Card J) :
  Game2DView.renderShape a = Game2DView.renderShape b <->
  color a = color b /\ size a = size b /\ number a = number b /\
  (number a = 0 \/ shape a = shape b).
Proof.
  split.
  - intros H.
    assert (Hn : number a = number b)
      by (rewrite <- (renderShape_children a), <- (renderShape_children b), H;
          reflexivity).
    destruct a as [ia ca sha na za], b as [ib cb shb nb zb].
    cbn [color shape number size] in *. subst nb.
    unfold Game2DView.renderShape in H. cbn [color shape number size] in H.
    injection H as Hcls Hch.
    split; [destruct ca, cb, za, zb; try discriminate Hcls; reflexivity|].
    split; [destruct ca, cb, za, zb; try discriminate Hcls; reflexivity|].
    split; [reflexivity|].
    destruct na as [|n]; [now left | right].
    cbn [repeat mapWithIndex length seq combine map fst snd] in Hch.
    injection Hch as Hsym _.
    destruct sha, shb; try discriminate Hsym; reflexivity.
  - destruct a as [ia ca sha na za], b as [ib cb shb nb zb].
    cbn [color shape number size]. intros (-> & -> & -> & [-> | ->]); reflexivity.
Qed.

Lemma renderShape_sameFace {I J : Type} (a : Card I) (b : Card J) :
  1 <= number a ->
  (Game2DView.renderShape a = Game2DView.renderShape b <-> sameFace a b).
Proof.
  intros Hpos. rewrite renderShape_eq_iff, sameFace_iff. split.
  - intros (H1 & H2 & H3 & [H4 | H4]); [lia | auto].
  - intros (H1 & H2 & H3 & H4). auto.
Qed.

(** X12.  What [renderShape] draws of a card: as many symbols as the
    card's number, the symbol of its shape, the class of its colour and
    the class of its size, and nothing of its identifier.  Two cards are
    drawn alike exactly when they have the same colour, size and number
    and, unless they have no symbol at all, the same shape; so for cards
    with at least one symbol, as all cards of the game are, exactly when
    they show the same face. *)
Theorem X12_renderShape_draws_the_face :
  forall (I J : Type) (a : Card I) (b : Card J),
    (Game2DView.renderShape a = Game2DView.renderShape b <->
     color a = color b /\ size a = size b /\ number a = number b /\
     (number a = 0 \/ shape a = shape b)) /\
    length (Game2DView.children (Game2DView.renderShape a)) = number a /\
    (1 <= number a ->
     (Game2DView.renderShape a = Game2DView.renderShape b <-> sameFace a b)).
Proof.
  intros I J a b.
  split; [apply renderShape_eq_iff|]. split; [apply renderShape_children|].
  apply renderShape_sameFace.
Qed.

(** Two cards with the face of the first reference card. *)
Lemma X12_witness :
  1 <= number (mkCard 1 red circle 1 small) /\
  (Game2DView.renderShape (mkCard 1 red circle 1 small) =
   Game2DView.renderShape (mkCard "u"%string red circle 1 small) <->
   sameFace (mkCard 1 red circle 1 small) (mkCard "u"%string red circle 1 small)).
Proof.
  assert (H : 1 <= number (mkCard 1 red circle 1 small)) by (cbn; lia).
  split; [exact H|].
  exact (proj2 (proj2 (X12_renderShape_draws_the_face nat string
                         (mkCard 1 red circle 1 small)
                         (mkCard "u"%string red circle 1 small))) H).
Defined.

Lemma getGeometry_inj (a b : Shape) :
  Game3DScene.getGeometry a = Game3DScene.getGeometry b -> a = b.
Proof. destruct a, b; intros H; try discriminate H; reflexivity. Qed.

Lemma getColor_inj (a b : Color) :
  Game3DScene.getColor a = Game3DScene.getColor b -> a = b.
Proof. destruct a, b; intros H; try discriminate H; reflexivity. Qed.

Lemma getScale_inj (a b : Size) :
  Game3DScene.getScale a = Game3DScene.getScale b -> a = b.
Proof. destruct a, b; intros H; try discriminate H; reflexivity. Qed.

(** X13.  What the three.js component draws of a card: the geometry of
    its shape, the colour of its colour and the scale of its size, each
    attribute value with a mesh property of its own (the fallback values
    of [getColor] and [getScale] are never used, and the scales grow with
    the size), and nothing of its number or its identifier; the
    reference meshes stand 3.5 apart, in the order of the reference
    cards.  So two
    target cards look alike exactly when they agree on colour, shape and
    size, and two target cards that differ only in their number look
    alike although no reference card matches both by number. *)
Theorem X13_meshes_draw_all_but_the_number :
  (forall a b : Card string,
      Game3DScene.targetMesh a = Game3DScene.targetMesh b <->
      color a = color b /\ shape a = shape b /\ size a = size b) /\
  (forall (a b : Card string) (index : nat),
      Game3DScene.appearance (Game3DScene.referenceMeshAt a index) =
      Game3DScene.appearance (Game3DScene.referenceMeshAt b index) <->
      color a = color b /\ shape a = shape b /\ size a = size b) /\
  (forall c : Color, Game3DScene.getColor c <> 0xffffff%N) /\
  (Game3DScene.getScale small < Game3DScene.getScale medium)%Q /\
  (Game3DScene.getScale medium < Game3DScene.getScale large)%Q /\
  (forall (a b : Card string) (index : nat),
      (fst (fst (Game3DScene.position (Game3DScene.referenceMeshAt b (S index)))) ==
       fst (fst (Game3DScene.position (Game3DScene.referenceMeshAt a index))) + (7 # 2))%Q) /\
  (forall (a b refCard : Card string),
      color a = color b -> shape a = shape b -> size a = size b ->
      number a <> number b ->
      Game3DScene.targetMesh a = Game3DScene.targetMesh b /\
      (checkMatch a refCard ByNumber = true -> checkMatch b refCard ByNumber = false)).
Proof.
  assert (Htarget : forall a b : Card string,
             Game3DScene.targetMesh a = Game3DScene.targetMesh b <->
             color a = color b /\ shape a = shape b /\ size a = size b).
  { intros a b. split.
    - unfold Game3DScene.targetMesh. intros H.
      injection H as Hg Hc _ Hs _ _.
      split; [exact (getColor_inj _ _ Hc)|].
      split; [exact (getGeometry_inj _ _ Hg) | exact (getScale_inj _ _ Hs)].
    - unfold Game3DScene.targetMesh. intros (-> & -> & ->). reflexivity. }
  split; [exact Htarget|]. split; [|split; [|split; [|split; [|split]]]].
  - intros a b index. split.
    + unfold Game3DScene.appearance, Game3DScene.referenceMeshAt.
      cbn [Game3DScene.geometry Game3DScene.material Game3DScene.scale].
      intros H. injection H as Hg Hc Hs _ _.
      split; [exact (getColor_inj _ _ Hc)|].
      split; [exact (getGeometry_inj _ _ Hg) | exact (getScale_inj _ _ Hs)].
    + unfold Game3DScene.appearance, Game3DScene.referenceMeshAt.
      cbn [Game3DScene.geometry Game3DScene.material Game3DScene.scale].
      intros (-> & -> & ->). reflexivity.
  - intros c. destruct c; discriminate.
  - reflexivity.
  - reflexivity.
  - intros a b index. unfold Game3DScene.referenceMeshAt.
    cbn [Game3DScene.position fst].
    unfold Qeq, Qplus, Qmult, inject_Z. cbn [Qnum Qden]. lia.
  - intros a b refCard Hc Hsh Hz Hn.
    split; [apply Htarget; auto|].
    unfold checkMatch, strictEq. cbn [attr].
    destruct (Attr_eq_dec (ANumber (number a)) (ANumber (number refCard))) as [Ea | Ea];
      [|discriminate].
    intros _.
    destruct (Attr_eq_dec (ANumber (number b)) (ANumber (number refCard))) as [Eb | Eb];
      [|reflexivity].
    injection Ea as Ea. injection Eb as Eb. congruence.
Qed.

(** Two target cards that differ in their number only. *)
Lemma X13_witness :
  let a := mkCard "a"%string red circle 1 small in
  let b := mkCard "b"%string red circle 2 small in
  let refCard := mkCard "r"%string red circle 1 small in
  Game3DScene.targetMesh a = Game3DScene.targetMesh b /\
  (checkMatch a refCard ByNumber = true -> checkMatch b refCard ByNumber = false).
Proof.
  cbv zeta.
  apply (proj2 (proj2 (proj2 (proj2 (proj2 (proj2 X13_meshes_draw_all_but_the_number))))));
    [reflexivity | reflexivity | reflexivity | cbn; lia].
Defined.

(** *** The scene graph *)

Lemma removeAt_middle {A : Type} (pre : list A) (x : A) (post : list A) :
  Game3DScene.removeAt (length pre) (pre ++ x :: post) = pre ++ post.
Proof.
  induction pre as [|y pre IH]; [reflexivity|].
  cbn [length app Game3DScene.removeAt]. now rewrite IH.
Qed.

(** The loop, when the children from [length pre] on are no meshes. *)
Lemma removeMeshesFrom_filter (pre : list Game3DScene.Object3D) :
  forall post : list Game3DScene.Object3D,
    Game3DScene.removeMeshesFrom (length pre) (pre ++ post) =
    filter (fun child => negb (Game3DScene.isMesh child)) pre ++ post.
Proof.
  induction pre as [|x pre IH] using rev_ind; intros post; [reflexivity|].
  rewrite length_app, Nat.add_comm. cbn [length Nat.add Game3DScene.removeMeshesFrom].
  rewrite <- app_assoc. cbn [app].
  rewrite nth_error_app2 by lia. rewrite Nat.sub_diag. cbn [nth_error].
  rewrite filter_app. cbn [filter].
  destruct (Game3DScene.isMesh x); cbn [negb].
  - rewrite removeAt_middle, IH, app_nil_r. reflexivity.
  - rewrite IH, <- app_assoc. reflexivity.
Qed.

Lemma removeMeshes_filter (children : list Game3DScene.Object3D) :
  Game3DScene.removeMeshesFrom (length children) children =
  filter (fun child => negb (Game3DScene.isMesh child)) children.
Proof.
  rewrite <- (app_nil_r children) at 2.
  rewrite removeMeshesFrom_filter. apply app_nil_r.
Qed.

(** The [forEach] of the scene effect, from index [k] on. *)
Lemma addReferences_fold (refs : list (Card string)) :
  forall (k : nat) (children : list Game3DScene.Object3D)
         (clickable : list Game3DScene.SceneMesh),
    fold_left
      (fun acc p =>
         let rMesh := Game3DScene.referenceMeshAt (snd p) (fst p) in
         (fst acc ++ [Game3DScene.MeshObject rMesh], snd acc ++ [rMesh]))
      (combine (seq k (length refs)) refs) (children, clickable) =
    let rMeshes :=
      map (fun p => Game3DScene.referenceMeshAt (snd p) (fst p))
          (combine (seq k (length refs)) refs) in
    (children ++ map Game3DScene.MeshObject rMeshes, clickable ++ rMeshes).
Proof.
  induction refs as [|card refs IH]; intros k children clickable.
  - cbn. now rewrite !app_nil_r.
  - cbn [length seq combine fold_left map fst snd]. rewrite IH. cbv zeta.
    now rewrite <- !app_assoc.
Qed.

Lemma rebuildScene_eq (target : Card string) (refs : list (Card string))
      (children : list Game3DScene.Object3D) :
  Game3DScene.rebuildScene target refs children =
  (filter (fun child => negb (Game3DScene.isMesh child)) children ++
   Game3DScene.MeshObject (Game3DScene.targetMesh target) ::
   map Game3DScene.MeshObject (mapWithIndex Game3DScene.referenceMeshAt refs),
   mapWithIndex Game3DScene.referenceMeshAt refs).
Proof.
  unfold Game3DScene.rebuildScene. cbv zeta.
  rewrite addReferences_fold, removeMeshes_filter. cbv zeta.
  unfold mapWithIndex. rewrite <- app_assoc. reflexivity.
Qed.

Lemma filter_lights (l : list Game3DScene.Object3D) (ms : list Game3DScene.SceneMesh) :
  filter (fun child => negb (Game3DScene.isMesh child))
         (l ++ map Game3DScene.MeshObject ms) =
  filter (fun child => negb (Game3DScene.isMesh child)) l.
Proof.
  rewrite filter_app.
  assert (H : filter (fun child => negb (Game3DScene.isMesh child))
                     (map Game3DScene.MeshObject ms) = []).
  { induction ms as [|m ms IH]; [reflexivity | exact IH]. }
  rewrite H. apply app_nil_r.
Qed.

(** X14.  The scene effect of the three.js component.  Its loop removes
    every mesh of the scene and nothing else, whatever the scene holds;
    then the scene holds what it held besides meshes, the mesh of the
    target card, and one mesh per reference card in order, and these
    reference meshes are the clickable objects, each carrying its card.
    So meshes never pile up: after the scene effect has run for any
    number of target cards, the scene holds the two lights of the mount
    effect, the mesh of the last target card and the reference meshes. *)
Theorem X14_scene_effect_replaces_the_meshes :
  (forall children : list Game3DScene.Object3D,
      Game3DScene.removeMeshesFrom (length children) children =
      filter (fun child => negb (Game3DScene.isMesh child)) children) /\
  (forall (target : Card string) (refs : list (Card string))
          (children : list Game3DScene.Object3D),
      let (children', clickable) := Game3DScene.rebuildScene target refs children in
      children' =
        filter (fun child => negb (Game3DScene.isMesh child)) children ++
        Game3DScene.MeshObject (Game3DScene.targetMesh target) ::
        map Game3DScene.MeshObject clickable /\
      clickable = mapWithIndex Game3DScene.referenceMeshAt refs /\
      map Game3DScene.clickView clickable =
        map (fun card => Game3D.mkMesh (Some (Game3D.mkUserData true card))) refs) /\
  (forall (targets : list (Card string)) (last : Card string) (refs : list (Card string)),
      Game3DScene.sceneAfter (targets ++ [last]) refs =
        Game3DScene.mountScene ++
        Game3DScene.MeshObject (Game3DScene.targetMesh last) ::
        map Game3DScene.MeshObject (mapWithIndex Game3DScene.referenceMeshAt refs)) /\
  (forall (s : Game3D.State) (target : Card string) (children : list Game3DScene.Object3D),
      Game3D.sceneReady s = true -> Game3D.targetCard s = Some target ->
      Game3D.clickableObjects (Game3D.sceneEffect s) =
      map Game3DScene.clickView
          (snd (Game3DScene.rebuildScene target (Game3D.referenceCards s) children))).
Proof.
  assert (Hclick : forall refs : list (Card string),
             map Game3DScene.clickView (mapWithIndex Game3DScene.referenceMeshAt refs) =
             map (fun card => Game3D.mkMesh (Some (Game3D.mkUserData true card))) refs).
  { intros refs. unfold mapWithIndex. rewrite map_map.
    generalize 0 as k. induction refs as [|card refs IH]; intros k; [reflexivity|].
    cbn [length seq combine map fst snd]. now rewrite IH. }
  split; [exact removeMeshes_filter|]. split; [|split].
  - intros target refs children. rewrite rebuildScene_eq.
    split; [reflexivity|]. split; [reflexivity | apply Hclick].
  - intros targets last refs. unfold Game3DScene.sceneAfter.
    rewrite fold_left_app. cbn [fold_left].
    rewrite rebuildScene_eq. cbn [fst].
    assert (Hlights :
              filter (fun child => negb (Game3DScene.isMesh child))
                (fold_left
                   (fun children target =>
                      fst (Game3DScene.rebuildScene target refs children))
                   targets Game3DScene.mountScene) = Game3DScene.mountScene).
    { induction targets as [|t targets IH] using rev_ind; [reflexivity|].
      rewrite fold_left_app. cbn [fold_left]. rewrite rebuildScene_eq. cbn [fst].
      change (?l ++ ?x :: map Game3DScene.MeshObject ?ms)
        with (l ++ map Game3DScene.MeshObject (Game3DScene.targetMesh t :: ms)).
      rewrite filter_lights.
      set (f := fun child => negb (Game3DScene.isMesh child)) in *.
      assert (Hidem : forall l, filter f (filter f l) = filter f l).
      { induction l as [|x l IHl]; [reflexivity|].
        cbn [filter]. destruct (f x) eqn:E; [|exact IHl].
        cbn [filter]. now rewrite E, IHl. }
      rewrite Hidem. exact IH. }
    rewrite Hlights. reflexivity.
  - intros s target children Hready Ht.
    rewrite rebuildScene_eq. cbn [snd]. rewrite Hclick.
    unfold Game3D.sceneEffect. rewrite Hready, Ht. reflexivity.
Qed.

Lemma ruleName_inj (a b : Rule) : ruleName a = ruleName b -> a = b.
Proof. destruct a, b; intros H; try discriminate H; reflexivity. Qed.

(** X15.  What the page of the DOM component shows of a session.  Two
    states of sessions give the same page exactly when they have the same
    current rule, the same feedback, the same attempts, correct answers,
    rule changes and perseverative errors, and target cards with the same
    face: the page shows the rule that the subject is to discover, and it
    shows nothing of the streak, of the previous rule, or of the clock
    and the timers. *)
Theorem X15_page_shows_rule_feedback_counters_and_face :
  forall s1 s2 : Game2D.State,
    Game2D.reachable s1 -> Game2D.reachable s2 ->
    (Game2DView.render s1 = Game2DView.render s2 <-> Game2DView.sameShown s1 s2).
Proof.
  intros s1 s2 Hr1 Hr2.
  destruct (reachable_targetValid_dom s1 Hr1) as (t1 & Ht1 & Hn1).
  destruct (reachable_targetValid_dom s2 Hr2) as (t2 & Ht2 & Hn2).
  unfold Game2DView.sameShown, Game2DView.render. rewrite Ht1, Ht2.
  split.
  - intros H.
    pose proof (f_equal Game2DView.shownAttempts H) as Ha.
    pose proof (f_equal Game2DView.shownCorrect H) as Hc.
    pose proof (f_equal Game2DView.shownRuleChanges H) as Hrc.
    pose proof (f_equal Game2DView.shownPerseverativeErrors H) as Hp.
    pose proof (f_equal Game2DView.targetView H) as Ht.
    pose proof (f_equal Game2DView.overlay H) as Ho.
    pose proof (f_equal Game2DView.devLine H) as Hd.
    cbn [Game2DView.shownAttempts Game2DView.shownCorrect Game2DView.shownRuleChanges
         Game2DView.shownPerseverativeErrors Game2DView.targetView Game2DView.overlay
         Game2DView.devLine] in Ha, Hc, Hrc, Hp, Ht, Ho, Hd.
    clear H.
    assert (Ht' : Game2DView.renderShape t1 = Game2DView.renderShape t2)
      by congruence.
    clear Ht.
    assert (Hrule : Game2D.currentRule s1 = Game2D.currentRule s2).
    { apply ruleName_inj.
      destruct (Game2D.currentRule s1), (Game2D.currentRule s2);
        try discriminate Hd; reflexivity. }
    assert (Hf : Game2D.feedback s1 = Game2D.feedback s2).
    { destruct (Game2D.feedback s1) as [[|]|], (Game2D.feedback s2) as [[|]|];
        try discriminate Ho; reflexivity. }
    split; [exact Hrule|]. split; [exact Hf|].
    split; [exact Ha|]. split; [exact Hc|]. split; [exact Hrc|]. split; [exact Hp|].
    apply renderShape_sameFace; [lia | exact Ht'].
  - intros (Hrule & Hf & Ha & Hc & Hrc & Hp & Ht).
    rewrite Hrule, Hf, Ha, Hc, Hrc, Hp.
    apply (renderShape_sameFace t1 t2) in Ht; [|lia].
    rewrite Ht. reflexivity.
Qed.

(** The first pages of two sessions that start at different times. *)
Lemma X15_witness :
  let s1 := Game2D.mount (Game2D.initialState 0 zeroRandom) in
  let s2 := Game2D.mount (Game2D.initialState 5 zeroRandom) in
  Game2D.reachable s1 /\ Game2D.reachable s2 /\
  Game2D.targetCard s1 <> Game2D.targetCard s2 /\
  Game2DView.render s1 = Game2DView.render s2.
Proof.
  cbv zeta.
  split; [apply Game2D.reach_mount|]. split; [apply Game2D.reach_mount|].
  split; [discriminate|].
  apply (X15_page_shows_rule_feedback_counters_and_face _ _
           (Game2D.reach_mount 0 zeroRandom) (Game2D.reach_mount 5 zeroRandom)).
  repeat split.
Defined.

(** The scene effect at the first render of a session, on the scene of
    the mount effect. *)
Lemma X14_witness :
  let s := Game3D.mount (Game3D.initialState 0 zeroRandom countingUuid) in
  let target := mkCard "uuuuu"%string red circle 1 small in
  Game3D.sceneReady s = true /\ Game3D.targetCard s = Some target /\
  Game3D.clickableObjects (Game3D.sceneEffect s) =
  map Game3DScene.clickView
      (snd (Game3DScene.rebuildScene target (Game3D.referenceCards s)
              Game3DScene.mountScene)).
Proof.
  cbv zeta.
  split; [reflexivity|]. split; [reflexivity|].
  apply (proj2 (proj2 (proj2 X14_scene_effect_replaces_the_meshes)));
    reflexivity.
Defined.

(** A card that the DOM component can generate at time 3. *)
Lemma X6_witness :
  let s := Game2D.initialState 3 zeroRandom in
  let card := mkCard 3 yellow star 4 large in
  (id card = Game2D.now s /\ 1 <= number card <= 4) /\
  exists g, Game2D.targetCard (Game2D.generateNewCard (Game2D.withRand g s)) = Some card.
Proof.
  cbv zeta.
  assert (H : id (mkCard 3 yellow star 4 large) =
              Game2D.now (Game2D.initialState 3 zeroRandom) /\
              1 <= number (mkCard 3 yellow star 4 large) <= 4)
    by (cbn; lia).
  split; [exact H|].
  exact (proj2 (proj1 X6_generateNewCard_produces_every_valid_card
                  (Game2D.initialState 3 zeroRandom)
                  (mkCard 3 yellow star 4 large)) H).
Defined.

(** From the first rule, [changeRule] can switch to the size rule. *)
Lemma X7_witness :
  let s := Game2D.initialState 0 zeroRandom in
  BySize <> Game2D.currentRule s /\
  exists g, Game2D.currentRule (Game2D.changeRule (Game2D.withRand g s)) = BySize.
Proof.
  cbv zeta.
  assert (H : BySize <> Game2D.currentRule (Game2D.initialState 0 zeroRandom))
    by discriminate.
  split; [exact H|].
  exact (proj2 (proj1 X7_changeRule_reaches_exactly_the_other_rules
                  (Game2D.initialState 0 zeroRandom) BySize) H).
Defined.

(** The renders after a fifth correct answer in a row. *)
Lemma X8_witness :
  let s := Game2D.setStats (fun _ => mkStats 5 5 0 0 5) (Game2D.initialState 0 zeroRandom) in
  (streakDue (streak (Game2D.stats s)) = true /\ streak (Game2D.stats s) <> 4) /\
  Game2D.commit 4 s = Game2D.changeRule s.
Proof.
  cbv zeta.
  assert (H : streakDue (streak (Game2D.stats
                 (Game2D.setStats (fun _ => mkStats 5 5 0 0 5)
                    (Game2D.initialState 0 zeroRandom)))) = true /\
              streak (Game2D.stats
                 (Game2D.setStats (fun _ => mkStats 5 5 0 0 5)
                    (Game2D.initialState 0 zeroRandom))) <> 4)
    by (split; [reflexivity | cbn; lia]).
  split; [exact H|].
  exact (proj2 (proj1 (X8_streak_effect_runs_changeRule_at_most_once 4
                         (Game2D.setStats (fun _ => mkStats 5 5 0 0 5)
                            (Game2D.initialState 0 zeroRandom)))) H).
Defined.
